(** * poker-server: the game room state machine of server.js

    A shallow embedding of the room logic of the Socket.IO poker server
    (createDeck, shuffleDeck, createGameRoom, the authenticate, join-room,
    player-action, leave-room and disconnect handlers, leaveCurrentRoom,
    startNewGame, nextPlayer, nextPhase, endGame, sanitizeRoomForClient,
    sanitizeRoomForClients, updateGameState), the properties of it that the
    design document states, and further properties read off the code.

    Conventions of the embedding.
    - JavaScript numbers that carry chips (chips, bet, pot, blinds) are
      rationals [Q], and equations between amounts are stated with [==], the
      equality of rationals.  The definitions of the first part compute with
      them exactly, which is what the program's binary64 numbers do as long
      as every amount is an integer below 2^53 in magnitude.  Module [Js], at
      the end of the definitions, has the code that adds and subtracts
      amounts once more, with every [+] and [-] rounded as binary64 rounds
      it; what depends on several additions being exact (the conservation of
      chips, what a call or a raise moves) is stated and proved there.
    - Seat indices are [Z]: currentPlayerIndex is -1 in a new room, findIndex
      answers -1, and [%] is the remainder [Z.rem].
    - [Math.random()] is the section variable [random]: its n-th call
      answers [random n]; the number of calls made so far is threaded
      through the state.
    - Messages sent to clients (emit) and the delays of setTimeout are not
      part of the state; a scheduled startNewGame is a transition of its own.
    - A TypeError thrown by the handler is the result [TypeError]; the
      recursion nextPlayer -> nextPhase -> nextPlayer is bounded by fuel. *)

From Stdlib Require Import QArith Qround Qminmax Qabs Qpower Lqa ZArith Lia String.
From stdpp Require Import gmap strings list fin_maps.

Local Open Scope Q_scope.
Local Open Scope string_scope.

(** ** Numbers *)

Definition Qltb (x y : Q) : bool := negb (Qle_bool y x).

Definition Math_min (a b : Q) : Q := if Qle_bool a b then a else b.

(** ** Data model *)

Inductive phase_t := waiting | preflop | flop | turn | river | showdown.

Module Card.
Record t := mk { value : string; suit : string; color : string }.
End Card.

Module Player.
Record t := mk {
  userId : string;
  socketId : string;
  chips : Q;
  cards : list Card.t;
  bet : Q;
  folded : bool;
  allIn : bool
}.

Definition set_chips (v : Q) (p : t) : t :=
  mk (userId p) (socketId p) v (cards p) (bet p) (folded p) (allIn p).
Definition set_cards (v : list Card.t) (p : t) : t :=
  mk (userId p) (socketId p) (chips p) v (bet p) (folded p) (allIn p).
Definition set_bet (v : Q) (p : t) : t :=
  mk (userId p) (socketId p) (chips p) (cards p) v (folded p) (allIn p).
Definition set_folded (v : bool) (p : t) : t :=
  mk (userId p) (socketId p) (chips p) (cards p) (bet p) v (allIn p).
Definition set_allIn (v : bool) (p : t) : t :=
  mk (userId p) (socketId p) (chips p) (cards p) (bet p) (folded p) v.
End Player.

Module User.
Record t := mk {
  id : string;
  password : string;
  chips : Q;
  socketId : option string
}.

Definition set_chips (v : Q) (u : t) : t :=
  mk (id u) (password u) v (socketId u).
End User.

Module Room.
Record t := mk {
  id : string;
  players : list Player.t;
  deck : list Card.t;
  communityCards : list Card.t;
  pot : Q;
  currentBet : Q;
  bigBlind : Q;
  smallBlind : Q;
  dealerIndex : Z;
  currentPlayerIndex : Z;
  phase : phase_t;
  maxPlayers : Z
}.

Definition set_players (v : list Player.t) (r : t) : t :=
  mk (id r) v (deck r) (communityCards r) (pot r) (currentBet r) (bigBlind r)
     (smallBlind r) (dealerIndex r) (currentPlayerIndex r) (phase r) (maxPlayers r).
Definition set_deck (v : list Card.t) (r : t) : t :=
  mk (id r) (players r) v (communityCards r) (pot r) (currentBet r) (bigBlind r)
     (smallBlind r) (dealerIndex r) (currentPlayerIndex r) (phase r) (maxPlayers r).
Definition set_communityCards (v : list Card.t) (r : t) : t :=
  mk (id r) (players r) (deck r) v (pot r) (currentBet r) (bigBlind r)
     (smallBlind r) (dealerIndex r) (currentPlayerIndex r) (phase r) (maxPlayers r).
Definition set_pot (v : Q) (r : t) : t :=
  mk (id r) (players r) (deck r) (communityCards r) v (currentBet r) (bigBlind r)
     (smallBlind r) (dealerIndex r) (currentPlayerIndex r) (phase r) (maxPlayers r).
Definition set_currentBet (v : Q) (r : t) : t :=
  mk (id r) (players r) (deck r) (communityCards r) (pot r) v (bigBlind r)
     (smallBlind r) (dealerIndex r) (currentPlayerIndex r) (phase r) (maxPlayers r).
Definition set_dealerIndex (v : Z) (r : t) : t :=
  mk (id r) (players r) (deck r) (communityCards r) (pot r) (currentBet r) (bigBlind r)
     (smallBlind r) v (currentPlayerIndex r) (phase r) (maxPlayers r).
Definition set_currentPlayerIndex (v : Z) (r : t) : t :=
  mk (id r) (players r) (deck r) (communityCards r) (pot r) (currentBet r) (bigBlind r)
     (smallBlind r) (dealerIndex r) v (phase r) (maxPlayers r).
Definition set_phase (v : phase_t) (r : t) : t :=
  mk (id r) (players r) (deck r) (communityCards r) (pot r) (currentBet r) (bigBlind r)
     (smallBlind r) (dealerIndex r) (currentPlayerIndex r) v (maxPlayers r).
End Room.

(** createGameRoom(roomId, bigBlind) *)
Definition createGameRoom (roomId : string) (bigBlind : Q) : Room.t :=
  {| Room.id := roomId;
     Room.players := [];
     Room.deck := [];
     Room.communityCards := [];
     Room.pot := 0;
     Room.currentBet := 0;
     Room.bigBlind := bigBlind;
     Room.smallBlind := bigBlind / 2;
     Room.dealerIndex := 0%Z;
     Room.currentPlayerIndex := (-1)%Z;
     Room.phase := waiting;
     Room.maxPlayers := 6%Z |}.

(** The truncated integer quotient the design document speaks of. *)
Definition truncated_half (bigBlind : Z) : Z := Z.quot bigBlind 2.

(** ** Results of handlers *)

Inductive result (A : Type) : Type :=
  | Ok (a : A)
  | TypeError
  | OutOfFuel.
Arguments Ok {A} a.
Arguments TypeError {A}.
Arguments OutOfFuel {A}.

(** ** Arrays *)

(** [arr[i]] for a JavaScript number [i]: undefined ([None]) out of range. *)
Definition at_index {A : Type} (l : list A) (i : Z) : option A :=
  if (i <? 0)%Z then None else l !! Z.to_nat i.

(** [arr.findIndex(f)], counting from [i]; -1 when no element satisfies [f]. *)
Fixpoint findIndex_from {A : Type} (f : A -> bool) (l : list A) (i : Z) : Z :=
  match l with
  | [] => (-1)%Z
  | x :: rest => if f x then i else findIndex_from f rest (i + 1)%Z
  end.

Definition findIndex {A : Type} (f : A -> bool) (l : list A) : Z :=
  findIndex_from f l 0%Z.

(** [arr.pop()]: the last element and the array without it. *)
Definition pop {A : Type} (l : list A) : option (A * list A) :=
  match last l with
  | Some x => Some (x, removelast l)
  | None => None
  end.

(** [[a[i], a[j]] = [a[j], a[i]]] for indices inside the array (lemma
    [shuffle_index_range] shows that shuffleDeck only swaps such indices). *)
Definition swap {A : Type} (l : list A) (i : nat) (j : Z) : list A :=
  match l !! i, at_index l j with
  | Some a, Some b => <[Z.to_nat j := a]> (<[i := b]> l)
  | _, _ => l
  end.

(** The state one room's functions read and write: the room object, the
    global [users] map and the number of Math.random() calls made so far. *)
Module Table.
Record t := mk {
  room : Room.t;
  users : gmap string User.t;
  rcalls : nat
}.
Definition set_room (v : Room.t) (s : t) : t := mk v (users s) (rcalls s).
Definition set_users (v : gmap string User.t) (s : t) : t := mk (room s) v (rcalls s).
Definition set_rcalls (v : nat) (s : t) : t := mk (room s) (users s) v.
End Table.

(** [const user = users.get(uid); if (user) user.chips = v;] *)
Definition sync_user (uid : string) (v : Q) (us : gmap string User.t)
  : gmap string User.t :=
  match us !! uid with
  | Some u => <[uid := User.set_chips v u]> us
  | None => us
  end.

(** [user.chips = v] for [user = users.get(socket.userId)], which throws
    when the user is undefined. *)
Definition assign_user_chips (uid : option string) (v : Q)
    (us : gmap string User.t) : result (gmap string User.t) :=
  match uid with
  | None => TypeError
  | Some k =>
      match us !! k with
      | Some u => Ok (<[k := User.set_chips v u]> us)
      | None => TypeError
      end
  end.

Definition players_count (r : Room.t) : Z := Z.of_nat (length (Room.players r)).

Section Game.

(** [random n] is what the n-th call of Math.random() returns. *)
Variable random : nat -> Q.

(** [Math.floor(Math.random() * n)] at call number [k]. *)
Definition random_index (k : nat) (n : nat) : Z :=
  Qfloor (random k * inject_Z (Z.of_nat n)).

(** *** Deck *)

Definition suits : list string := ["♠"; "♥"; "♦"; "♣"].
Definition values : list string :=
  ["A"; "2"; "3"; "4"; "5"; "6"; "7"; "8"; "9"; "10"; "J"; "Q"; "K"].

Definition ordered_deck : list Card.t :=
  flat_map (fun suit =>
    List.map (fun value =>
      Card.mk value suit
        (if String.eqb suit "♥" || String.eqb suit "♦" then "red" else "black"))
      values) suits.

(** The loop [for (let i = shuffled.length - 1; i > 0; i--)], entered with
    loop variable [i] and [k] earlier calls of Math.random(). *)
Fixpoint shuffle_loop (i : nat) (shuffled : list Card.t) (k : nat)
  : list Card.t * nat :=
  match i with
  | O => (shuffled, k)
  | S i' =>
      let j := random_index k (i + 1) in
      shuffle_loop i' (swap shuffled i j) (S k)
  end.

Definition shuffleDeck (deck : list Card.t) (k : nat) : list Card.t * nat :=
  shuffle_loop (length deck - 1) deck k.

Definition createDeck (k : nat) : list Card.t * nat :=
  shuffleDeck ordered_deck k.

(** *** startNewGame *)

(** The body of [room.players.forEach((player, index) => ...)] in
    startNewGame: the per-hand reset of one player and the blinds.  [r] is
    the room, read for dealerIndex, the blinds and the number of players;
    [pot] and [us] are room.pot and the users map as the iteration finds
    them.  The sum and the difference are exact here ([Js.reset_and_blind]
    rounds them as the program does). *)
Definition reset_and_blind (r : Room.t) (index : Z) (player : Player.t)
    (pot : Q) (us : gmap string User.t)
  : Player.t * Q * gmap string User.t :=
  let player :=
    Player.set_allIn false (Player.set_folded false
      (Player.set_bet 0 (Player.set_cards [] player))) in
  if (index =? Z.rem (Room.dealerIndex r + 1) (players_count r))%Z then
    let player := Player.set_bet (Room.smallBlind r) player in
    let player := Player.set_chips (Player.chips player - Room.smallBlind r) player in
    (player, pot + Room.smallBlind r,
     sync_user (Player.userId player) (Player.chips player) us)
  else if (index =? Z.rem (Room.dealerIndex r + 2) (players_count r))%Z then
    let player := Player.set_bet (Room.bigBlind r) player in
    let player := Player.set_chips (Player.chips player - Room.bigBlind r) player in
    (player, pot + Room.bigBlind r,
     sync_user (Player.userId player) (Player.chips player) us)
  else (player, pot, us).

Fixpoint forEach_blinds (r : Room.t) (index : Z) (ps : list Player.t)
    (pot : Q) (us : gmap string User.t)
  : list Player.t * Q * gmap string User.t :=
  match ps with
  | [] => ([], pot, us)
  | player :: rest =>
      let '(player', pot', us') := reset_and_blind r index player pot us in
      let '(rest', pot'', us'') := forEach_blinds r (index + 1)%Z rest pot' us' in
      (player' :: rest', pot'', us'')
  end.

(** One pass of [room.players.forEach(player => { if (room.deck.length > 0)
    player.cards.push(room.deck.pop()); })]. *)
Fixpoint deal_round (ps : list Player.t) (deck : list Card.t)
  : list Player.t * list Card.t :=
  match ps with
  | [] => ([], deck)
  | player :: rest =>
      match pop deck with
      | Some (c, deck') =>
          let '(rest', deck'') := deal_round rest deck' in
          (Player.set_cards (Player.cards player ++ [c]) player :: rest', deck'')
      | None =>
          let '(rest', deck'') := deal_round rest deck in
          (player :: rest', deck'')
      end
  end.

(** startNewGame(roomId), on the room found under roomId. *)
Definition startNewGame (s : Table.t) : Table.t :=
  let room := Table.room s in
  if (players_count room <? 2)%Z then s else
  let '(deck, k) := createDeck (Table.rcalls s) in
  let room := Room.set_deck deck room in
  let room := Room.set_communityCards [] room in
  let room := Room.set_pot 0 room in
  let room := Room.set_currentBet (Room.bigBlind room) room in
  let room := Room.set_phase preflop room in
  let '(ps, pot, us) :=
    forEach_blinds room 0 (Room.players room) (Room.pot room) (Table.users s) in
  let room := Room.set_pot pot (Room.set_players ps room) in
  let '(ps, deck) := deal_round (Room.players room) (Room.deck room) in
  let '(ps, deck) := deal_round ps deck in
  let room := Room.set_deck deck (Room.set_players ps room) in
  let room :=
    Room.set_currentPlayerIndex
      (Z.rem (Room.dealerIndex room + 3) (players_count room)) room in
  Table.mk room us k.

(** *** endGame *)

(** [room.players.filter(p => !p.folded)]: the filtered array holds the
    player objects themselves, here the seats they sit at ([i] is the seat
    of the head of [ps]). *)
Fixpoint activeSeats (i : nat) (ps : list Player.t) : list nat :=
  match ps with
  | [] => []
  | p :: rest =>
      if Player.folded p then activeSeats (S i) rest
      else i :: activeSeats (S i) rest
  end.

Definition endGame (s : Table.t) : result Table.t :=
  let room := Table.room s in
  let activePlayers := activeSeats 0 (Room.players room) in
  let '(pick, k) :=
    if (length activePlayers =? 1)%nat then (0%Z, Table.rcalls s)
    else (random_index (Table.rcalls s) (length activePlayers),
          S (Table.rcalls s)) in
  match at_index activePlayers pick with
  | None => TypeError
  | Some seat =>
      match Room.players room !! seat with
      | None => TypeError
      | Some winner =>
          let winner := Player.set_chips (Player.chips winner + Room.pot room) winner in
          let room := Room.set_players (<[seat := winner]> (Room.players room)) room in
          let us := sync_user (Player.userId winner) (Player.chips winner) (Table.users s) in
          let room := Room.set_phase waiting room in
          let room :=
            Room.set_dealerIndex
              (Z.rem (Room.dealerIndex room + 1) (players_count room)) room in
          Ok (Table.mk room us k)
      end
  end.

(** *** nextPlayer and nextPhase *)

Definition eligible (player : Player.t) : bool :=
  negb (Player.folded player) && negb (Player.allIn player)
  && Qltb 0 (Player.chips player).

Inductive scan_result := Found (nextIndex : Z) | NoneEligible | Undefined.

(** The loop [while (attempts < room.players.length)] of nextPlayer, with
    [remaining = room.players.length - attempts] iterations to go. *)
Fixpoint scan_loop (ps : list Player.t) (remaining : nat) (nextIndex : Z)
  : scan_result :=
  match remaining with
  | O => NoneEligible
  | S remaining' =>
      match at_index ps nextIndex with
      | None => Undefined
      | Some player =>
          if eligible player then Found nextIndex
          else scan_loop ps remaining'
                 (Z.rem (nextIndex + 1) (Z.of_nat (length ps)))
      end
  end.

Definition scan (r : Room.t) : scan_result :=
  scan_loop (Room.players r) (length (Room.players r))
    (Z.rem (Room.currentPlayerIndex r + 1) (players_count r)).

(** [if (room.deck.length > 0) room.communityCards.push(room.deck.pop())],
    [n] times. *)
Fixpoint deal_community (n : nat) (r : Room.t) : Room.t :=
  match n with
  | O => r
  | S n' =>
      deal_community n'
        match pop (Room.deck r) with
        | Some (c, deck') =>
            Room.set_deck deck'
              (Room.set_communityCards (Room.communityCards r ++ [c]) r)
        | None => r
        end
  end.

Definition reset_bets (r : Room.t) : Room.t :=
  Room.set_currentBet 0
    (Room.set_players (List.map (Player.set_bet 0) (Room.players r)) r).

Fixpoint nextPlayer (fuel : nat) (s : Table.t) {struct fuel} : result Table.t :=
  match fuel with
  | O => OutOfFuel
  | S fuel' =>
      match scan (Table.room s) with
      | Found nextIndex =>
          Ok (Table.set_room
                (Room.set_currentPlayerIndex nextIndex (Table.room s)) s)
      | Undefined => TypeError
      | NoneEligible => nextPhase fuel' s
      end
  end
with nextPhase (fuel : nat) (s : Table.t) {struct fuel} : result Table.t :=
  match fuel with
  | O => OutOfFuel
  | S fuel' =>
      let room := reset_bets (Table.room s) in
      let continue room :=
        nextPlayer fuel'
          (Table.set_room
             (Room.set_currentPlayerIndex (Room.dealerIndex room) room) s) in
      match Room.phase room with
      | preflop => continue (deal_community 3 (Room.set_phase flop room))
      | flop => continue (deal_community 1 (Room.set_phase turn room))
      | turn => continue (deal_community 1 (Room.set_phase river room))
      | river => endGame (Table.set_room (Room.set_phase showdown room) s)
      | waiting | showdown => continue room
      end
  end.

(** *** The handlers *)

(** [parseInt(amount) || room.bigBlind], where [amount] is what parseInt
    reads from the request ([None] for NaN). *)
Definition raise_amount (amount : option Z) (r : Room.t) : Q :=
  match amount with
  | Some n => if (n =? 0)%Z then Room.bigBlind r else inject_Z n
  | None => Room.bigBlind r
  end.

(** [player.bet += x; player.chips -= x;], the sum and the difference
    exact ([Js.bet_more] rounds them as the program does). *)
Definition bet_more (x : Q) (player : Player.t) : Player.t :=
  let player := Player.set_bet (Player.bet player + x) player in
  Player.set_chips (Player.chips player - x) player.

(** The [switch (action)] of the player-action handler, for the player
    object [player] found at [room.players[playerIndex]]; [uid] is
    socket.userId.  Sums and differences are exact here
    ([Js.action_switch] rounds them as the program does). *)
Definition action_switch (uid : option string) (action : string)
    (amount : option Z) (playerIndex : nat) (player : Player.t)
    (s : Table.t) : result Table.t :=
  let room := Table.room s in
  let store player room :=
    Room.set_players (<[playerIndex := player]> (Room.players room)) room in
  if String.eqb action "fold" then
    Ok (Table.set_room (store (Player.set_folded true player) room) s)
  else if String.eqb action "call" then
    let callAmount := Room.currentBet room - Player.bet player in
    let actualCallAmount := Math_min callAmount (Player.chips player) in
    let player := bet_more actualCallAmount player in
    let room := Room.set_pot (Room.pot room + actualCallAmount) room in
    match assign_user_chips uid (Player.chips player) (Table.users s) with
    | Ok us => Ok (Table.mk (store player room) us (Table.rcalls s))
    | _ => TypeError
    end
  else if String.eqb action "raise" then
    let raiseAmount := raise_amount amount room in
    let totalBet := Room.currentBet room + raiseAmount in
    let playerRaise := totalBet - Player.bet player in
    let actualRaise := Math_min playerRaise (Player.chips player) in
    let player := bet_more actualRaise player in
    let room := Room.set_pot (Room.pot room + actualRaise) room in
    let room := Room.set_currentBet (Player.bet player) room in
    match assign_user_chips uid (Player.chips player) (Table.users s) with
    | Ok us => Ok (Table.mk (store player room) us (Table.rcalls s))
    | _ => TypeError
    end
  else if String.eqb action "check" then
    if Qltb (Player.bet player) (Room.currentBet room) then
      let callAmount := Room.currentBet room - Player.bet player in
      let actualCallAmount := Math_min callAmount (Player.chips player) in
      let player := bet_more actualCallAmount player in
      let room := Room.set_pot (Room.pot room + actualCallAmount) room in
      match assign_user_chips uid (Player.chips player) (Table.users s) with
      | Ok us => Ok (Table.mk (store player room) us (Table.rcalls s))
      | _ => TypeError
      end
    else Ok s
  else if String.eqb action "all-in" then
    let room := Room.set_pot (Room.pot room + Player.chips player) room in
    let player := Player.set_bet (Player.bet player + Player.chips player) player in
    let player := Player.set_chips 0 player in
    let player := Player.set_allIn true player in
    match assign_user_chips uid 0 (Table.users s) with
    | Ok us =>
        let room :=
          if Qltb (Room.currentBet room) (Player.bet player)
          then Room.set_currentBet (Player.bet player) room else room in
        Ok (Table.mk (store player room) us (Table.rcalls s))
    | _ => TypeError
    end
  else Ok s.

(** The action of the player in turn on one room: the switch, then
    nextPlayer(roomId). *)
Definition act (fuel : nat) (uid : option string) (action : string)
    (amount : option Z) (playerIndex : nat) (player : Player.t)
    (s : Table.t) : result Table.t :=
  match action_switch uid action amount playerIndex player s with
  | Ok s' => nextPlayer fuel s'
  | TypeError => TypeError
  | OutOfFuel => OutOfFuel
  end.
End Game.

(** ** The server: users, rooms and sockets *)

Module World.
Record t := mk {
  users : gmap string User.t;
  gameRooms : gmap string Room.t;
  rcalls : nat
}.
End World.

Module Socket.
Record t := mk {
  id : string;
  userId : option string;
  currentRoom : option string
}.
Definition set_userId (v : option string) (k : t) : t := mk (id k) v (currentRoom k).
Definition set_currentRoom (v : option string) (k : t) : t := mk (id k) (userId k) v.
End Socket.

(** The room under [roomId] with the globals, and back. *)
Definition focus (w : World.t) (room : Room.t) : Table.t :=
  Table.mk room (World.users w) (World.rcalls w).

Definition unfocus (roomId : string) (w : World.t) (s : Table.t) : World.t :=
  World.mk (Table.users s) (<[roomId := Table.room s]> (World.gameRooms w))
    (Table.rcalls s).

(** [!roomId] for socket.currentRoom: undefined, null or the empty string. *)
Definition falsy (roomId : option string) : bool :=
  match roomId with
  | None => true
  | Some k => String.eqb k ""
  end.

Definition has_socket (socket : Socket.t) (p : Player.t) : bool :=
  String.eqb (Player.socketId p) (Socket.id socket).

Inductive auth_reply := auth_error | auth_success (userId : string) (chips : Q).

(** socket.on('authenticate', ...) *)
Definition authenticate (w : World.t) (socket : Socket.t)
    (userId password : string) (isRegistration : bool)
  : World.t * Socket.t * auth_reply :=
  if isRegistration then
    match World.users w !! userId with
    | Some _ => (w, socket, auth_error)
    | None =>
        (World.mk
           (<[userId := User.mk userId password 10000 (Some (Socket.id socket))]>
              (World.users w))
           (World.gameRooms w) (World.rcalls w),
         Socket.set_userId (Some userId) socket,
         auth_success userId 10000)
    end
  else
    match World.users w !! userId with
    | None => (w, socket, auth_error)
    | Some user =>
        if negb (String.eqb (User.password user) password)
        then (w, socket, auth_error)
        else
          (World.mk
             (<[userId := User.mk (User.id user) (User.password user)
                            (User.chips user) (Some (Socket.id socket))]>
                (World.users w))
             (World.gameRooms w) (World.rcalls w),
           Socket.set_userId (Some userId) socket,
           auth_success userId (User.chips user))
    end.

(** What the join-room handler answers: one of its four 'error' messages, or
    'joined-room' together with whether setTimeout(startNewGame, 3000) was
    called. *)
Inductive join_reply :=
  | auth_required
  | insufficient_chips
  | already_joined
  | room_full
  | joined_room (start_scheduled : bool).

(** socket.on('join-room', ...) with data = { roomId, bigBlind }.  The room
    is created under roomId when gameRooms has none; [rooms] is gameRooms
    after that step. *)
Definition join_room (w : World.t) (socket : Socket.t)
    (roomId : string) (bigBlind : Q)
  : World.t * Socket.t * join_reply :=
  match Socket.userId socket with
  | None => (w, socket, auth_required)
  | Some uid =>
  match World.users w !! uid with
  | None => (w, socket, auth_required)
  | Some user =>
      if Qltb (User.chips user) (bigBlind * 10) then (w, socket, insufficient_chips)
      else
        let room :=
          match World.gameRooms w !! roomId with
          | Some room => room
          | None => createGameRoom roomId bigBlind
          end in
        let rooms := <[roomId := room]> (World.gameRooms w) in
        let w := World.mk (World.users w) rooms (World.rcalls w) in
        if existsb (fun p => String.eqb (Player.userId p) uid) (Room.players room)
        then (w, socket, already_joined)
        else if (Room.maxPlayers room <=? players_count room)%Z
        then (w, socket, room_full)
        else
          let player :=
            Player.mk uid (Socket.id socket) (User.chips user) [] 0 false false in
          let room := Room.set_players (Room.players room ++ [player]) room in
          (World.mk (World.users w) (<[roomId := room]> rooms) (World.rcalls w),
           Socket.set_currentRoom (Some roomId) socket,
           joined_room
             ((2 <=? players_count room)%Z
              && match Room.phase room with waiting => true | _ => false end))
  end
  end.

(** leaveCurrentRoom(socket), called on 'leave-room' and on 'disconnect'. *)
Definition leaveCurrentRoom (w : World.t) (socket : Socket.t)
  : World.t * Socket.t :=
  match Socket.currentRoom socket with
  | None => (w, socket)
  | Some roomId =>
      if String.eqb roomId "" then (w, socket) else
      match World.gameRooms w !! roomId with
      | None => (w, socket)
      | Some room =>
          let playerIndex := findIndex (has_socket socket) (Room.players room) in
          let rooms :=
            if (playerIndex =? -1)%Z then World.gameRooms w
            else
              let room :=
                Room.set_players
                  (delete (Z.to_nat playerIndex) (Room.players room)) room in
              if (length (Room.players room) =? 0)%nat
              then delete roomId (World.gameRooms w)
              else <[roomId := room]> (World.gameRooms w) in
          (World.mk (World.users w) rooms (World.rcalls w),
           Socket.set_currentRoom None socket)
      end
  end.

Section Server.
Variable random : nat -> Q.

(** The callback [() => startNewGame(roomId)] of a timer. *)
Definition startNewGame_timer (w : World.t) (roomId : string) : World.t :=
  match World.gameRooms w !! roomId with
  | None => w
  | Some room => unfocus roomId w (startNewGame random (focus w room))
  end.

(** socket.on('player-action', ...) with data = { action, amount } *)
Definition player_action (fuel : nat) (w : World.t) (socket : Socket.t)
    (action : string) (amount : option Z) : result World.t :=
  match Socket.currentRoom socket with
  | None => Ok w
  | Some roomId =>
      if String.eqb roomId "" then Ok w else
      match World.gameRooms w !! roomId with
      | None => Ok w
      | Some room =>
          let playerIndex := findIndex (has_socket socket) (Room.players room) in
          if (playerIndex =? -1)%Z
             || negb (playerIndex =? Room.currentPlayerIndex room)%Z
          then Ok w
          else
            match at_index (Room.players room) playerIndex with
            | None => TypeError
            | Some player =>
                match act random fuel (Socket.userId socket) action amount
                        (Z.to_nat playerIndex) player (focus w room) with
                | Ok s => Ok (unfocus roomId w s)
                | TypeError => TypeError
                | OutOfFuel => OutOfFuel
                end
            end
      end
  end.
End Server.

(** ** The transition system of the server *)

Section Reachability.
Variable random : nat -> Q.

(** One event of the server: a socket message handled, or a timer firing.
    Sockets are not tracked: every handler may run with any socket record,
    which covers every real execution. *)
Inductive step : World.t -> World.t -> Prop :=
  | step_authenticate w socket userId password isRegistration :
      step w (authenticate w socket userId password isRegistration).1.1
  | step_join w socket roomId bigBlind :
      step w (join_room w socket roomId bigBlind).1.1
  | step_leave w socket :
      step w (leaveCurrentRoom w socket).1
  | step_timer w roomId :
      step w (startNewGame_timer random w roomId)
  | step_action fuel w socket action amount w' :
      player_action random fuel w socket action amount = Ok w' ->
      step w w'.

(** The server right after start-up: no user, no room. *)
Definition initial : World.t := World.mk ∅ ∅ 0.

Inductive reachable : World.t -> Prop :=
  | reachable_initial : reachable initial
  | reachable_step w w' : reachable w -> step w w' -> reachable w'.
End Reachability.

(** ** Quantities the properties speak about *)

(** The sum of player.chips over the seated players. *)
Definition total_chips (ps : list Player.t) : Q :=
  foldr (fun p acc => Player.chips p + acc) 0 ps.

(** pot + sum of chips: what a hand must conserve. *)
Definition chips_in_play (r : Room.t) : Q :=
  Room.pot r + total_chips (Room.players r).

(** room.currentBet >= player.bet for every seated player. *)
Definition currentBet_covers (r : Room.t) : Prop :=
  Forall (fun p => Player.bet p <= Room.currentBet r) (Room.players r).

Definition in_hand (ph : phase_t) : bool :=
  match ph with
  | preflop | flop | turn | river => true
  | waiting | showdown => false
  end.

(** The number of community cards the design document gives each phase. *)
Definition cards_of_phase (ph : phase_t) : nat :=
  match ph with
  | waiting => 0
  | preflop => 0
  | flop => 3
  | turn => 4
  | river => 5
  | showdown => 5
  end.

(** The seats in the order the turn advance visits them, starting at
    (currentPlayerIndex + 1) mod N and going once around the table. *)
Definition scan_order (r : Room.t) : list Z :=
  List.map
    (fun k => ((Room.currentPlayerIndex r + 1 + Z.of_nat k) mod players_count r)%Z)
    (seq 0 (length (Room.players r))).

Definition eligible_at (ps : list Player.t) (i : Z) : bool :=
  match at_index ps i with
  | Some player => eligible player
  | None => false
  end.

(** The first seat of the scan order whose player is eligible. *)
Definition first_eligible (r : Room.t) : option Z :=
  List.find (eligible_at (Room.players r)) (scan_order r).



(** The streets a hand in phase [ph] still has to go through. *)
Definition streets_left (ph : phase_t) : nat :=
  match ph with
  | preflop => 4
  | flop => 3
  | turn => 2
  | river => 1
  | waiting | showdown => 0
  end.

(** Exactly one seated player has not folded: [survivor], at [seat]. *)
Definition sole_survivor (ps : list Player.t) (seat : nat) (survivor : Player.t)
  : Prop :=
  ps !! seat = Some survivor /\
  Player.folded survivor = false /\
  length (List.filter (fun p => negb (Player.folded p)) ps) = 1%nat.

(** No seated player can act: each has folded, is all-in or has no chips. *)
Definition nobody_eligible (ps : list Player.t) : Prop :=
  Forall (fun p => eligible p = false) ps.

(** The community cards by phase: the count the design document gives in a
    running hand; in phase waiting none in a room that has not played, and
    the five of the last hand after endGame. *)
Definition cards_by_phase (r : Room.t) : Prop :=
  match Room.phase r with
  | waiting =>
      length (Room.communityCards r) = 0%nat \/ length (Room.communityCards r) = 5%nat
  | ph => length (Room.communityCards r) = cards_of_phase ph
  end.

(** What holds of every room of a reachable server state: the cards on the
    board by phase, enough cards in the deck for the streets to come, and at
    most maxPlayers = 6 players. *)
Definition room_inv (r : Room.t) : Prop :=
  cards_by_phase r /\
  (in_hand (Room.phase r) = true ->
   (5 <= length (Room.communityCards r) + length (Room.deck r))%nat) /\
  Room.maxPlayers r = 6%Z /\
  (length (Room.players r) <= 6)%nat.

(** ** Example runs of the server *)

Module Example.
(** A Math.random() that always answers 0. *)
Definition random0 : nat -> Q := fun _ => 0.

Definition and_then (r : result World.t) (f : World.t -> result World.t)
  : result World.t :=
  match r with
  | Ok w => f w
  | TypeError => TypeError
  | OutOfFuel => OutOfFuel
  end.

(** alice and bob register, each on a socket of their own. *)
Definition alice_registers :=
  authenticate initial (Socket.mk "socket-a" None None) "alice" "pw" true.
Definition bob_registers :=
  authenticate alice_registers.1.1 (Socket.mk "socket-b" None None) "bob" "pw" true.
Definition registered : World.t := bob_registers.1.1.

(** Both join room "r", asking for the big blind [bb]; the timer set by the
    second join fires and the first hand starts: bob (seat 1) posts the
    small blind, alice (seat 0, the dealer) the big blind, bob is first to
    act. *)
Definition alice_joins (bb : Q) := join_room registered alice_registers.1.2 "r" bb.
Definition bob_joins (bb : Q) := join_room (alice_joins bb).1.1 bob_registers.1.2 "r" bb.
Definition alice (bb : Q) : Socket.t := (alice_joins bb).1.2.
Definition bob (bb : Q) : Socket.t := (bob_joins bb).1.2.
Definition seated (bb : Q) : World.t := (bob_joins bb).1.1.
Definition first_hand (bb : Q) : World.t := startNewGame_timer random0 (seated bb) "r".

(** Heads-up with big blind 100: bob folds. *)
Definition bob_folds : result World.t :=
  player_action random0 8 (first_hand 100) (bob 100) "fold" None.

(** Then alice, alone in the hand, goes all-in: the streets are dealt and
    endGame gives her the pot. *)
Definition alice_all_in : result World.t :=
  and_then bob_folds (fun w => player_action random0 8 w (alice 100) "all-in" None).

(** The timer set by endGame fires: second hand, alice posts the small
    blind and acts first.  She raises by 9900, which leaves her 50 chips;
    bob raises by 100, capped by the chips he has left. *)
Definition second_hand : result World.t :=
  and_then alice_all_in (fun w => Ok (startNewGame_timer random0 w "r")).
Definition alice_raises : result World.t :=
  and_then second_hand
    (fun w => player_action random0 8 w (alice 100) "raise" (Some 9900%Z)).
Definition bob_raises_capped : result World.t :=
  and_then alice_raises
    (fun w => player_action random0 8 w (bob 100) "raise" (Some 100%Z)).

(** With big blind 1000: the first hand starts, bob (who posted 500) leaves
    the room and asks to join it again with bigBlind 1 in the request. *)
Definition bob_leaves := leaveCurrentRoom (first_hand 1000) (bob 1000).
Definition bob_rejoins := join_room bob_leaves.1 bob_leaves.2 "r" 1.

(** The room of a world, for reading the examples. *)
Definition room_of (r : result World.t) : option Room.t :=
  match r with
  | Ok w => World.gameRooms w !! "r"
  | _ => None
  end.

Definition seats (r : option Room.t) : list (string * Q * Q * bool * bool) :=
  match r with
  | Some room =>
      List.map (fun p => (Player.userId p, Qred (Player.chips p), Qred (Player.bet p),
                          Player.folded p, Player.allIn p))
        (Room.players room)
  | None => []
  end.

(** Three players at a table of big blind 100, seat 0 the dealer. *)
Definition seat_of (name : string) (chips : Q) : Player.t :=
  Player.mk name ("socket-" ++ name) chips [] 0 false false.

Definition three_players : Table.t :=
  Table.mk
    (Room.set_players [seat_of "A" 1000; seat_of "B" 1000; seat_of "C" 1000]
       (createGameRoom "r" 100))
    ∅ 0.

(** Heads-up after startNewGame: A (seat 0, dealer) has posted the big
    blind, B the small blind, and B is first to act. *)
Definition heads_up : Table.t :=
  startNewGame random0
    (Table.mk
       (Room.set_players [seat_of "A" 1000; seat_of "B" 1000]
          (createGameRoom "r" 100))
       ∅ 0).

(** B in heads-up, as the hand starts. *)
Definition heads_up_B : Player.t :=
  default (seat_of "B" 0) (Room.players (Table.room heads_up) !! 1%nat).

(** A is all-in with 1000 and B, who posted 50, is to act. *)
Definition B_facing_all_in_B : Player.t :=
  Player.set_bet 50 (seat_of "B" 950).

Definition B_facing_all_in : Table.t :=
  Table.mk
    (Room.set_phase preflop
       (Room.set_currentPlayerIndex 1
          (Room.set_currentBet 1000
             (Room.set_pot 1050
                (Room.set_players
                   [Player.set_allIn true (Player.set_bet 1000 (seat_of "A" 0));
                    B_facing_all_in_B]
                   (createGameRoom "r" 100))))))
    ∅ 0.

(** A has folded, B is all-in, C can act; A is the current player. *)
Definition A_folded_B_all_in : Table.t :=
  Table.mk
    (Room.set_phase flop
       (Room.set_currentPlayerIndex 0
          (Room.set_players
             [Player.set_folded true (seat_of "A" 900);
              Player.set_allIn true (seat_of "B" 0);
              seat_of "C" 900]
             (createGameRoom "r" 100))))
    ∅ 0.

(** A has folded and B has not, with 150 in the pot. *)
Definition B_remains : Table.t :=
  Table.mk
    (Room.set_phase showdown
       (Room.set_pot 150
          (Room.set_players
             [Player.set_folded true (seat_of "A" 950); seat_of "B" 900]
             (createGameRoom "r" 100))))
    {["B" := User.mk "B" "pw" 900 None]} 0.
End Example.


(** ** Cards of a room *)

#[global] Instance Card_eq_dec : EqDecision Card.t.
Proof. solve_decision. Defined.

(** The hole cards of the seated players, seat by seat. *)
Definition hole_cards (ps : list Player.t) : list Card.t :=
  concat (List.map Player.cards ps).

(** Every card a room holds: hole cards, board and deck. *)
Definition all_cards (r : Room.t) : list Card.t :=
  hole_cards (Room.players r) ++ Room.communityCards r ++ Room.deck r.

(** The (value, suit) pair that identifies a card. *)
Definition face (c : Card.t) : string * string := (Card.value c, Card.suit c).

(** The seat stays with the same participant and the same hole cards. *)
Definition same_seat (p p' : Player.t) : Prop :=
  Player.userId p' = Player.userId p /\
  Player.socketId p' = Player.socketId p /\
  Player.cards p' = Player.cards p.

(** A room as the registry keeps it: stored under its own id, with one to
    six players of pairwise different userIds, maxPlayers 6 and seat indices
    that are not below their initial values. *)
Definition room_wf (roomId : string) (r : Room.t) : Prop :=
  Room.id r = roomId /\
  (1 <= length (Room.players r) <= 6)%nat /\
  Room.maxPlayers r = 6%Z /\
  NoDup (Player.userId <$> Room.players r) /\
  (-1 <= Room.currentPlayerIndex r)%Z /\
  (0 <= Room.dealerIndex r)%Z.

(** No card twice among hole cards, board and deck. *)
Definition cards_distinct (r : Room.t) : Prop :=
  NoDup (face <$> all_cards r).

(** ** Disconnecting and what clients are sent *)

(** socket.on('disconnect', ...): leaveCurrentRoom(socket), then the user's
    socketId is cleared when it is this socket's. *)
Definition disconnect (w : World.t) (socket : Socket.t) : World.t * Socket.t :=
  let '(w, socket) := leaveCurrentRoom w socket in
  match Socket.userId socket with
  | None => (w, socket)
  | Some uid =>
      if String.eqb uid "" then (w, socket) else
      match World.users w !! uid with
      | Some user =>
          if match User.socketId user with
             | Some k => String.eqb k (Socket.id socket)
             | None => false
             end
          then
            (World.mk
               (<[uid := User.mk (User.id user) (User.password user)
                           (User.chips user) None]> (World.users w))
               (World.gameRooms w) (World.rcalls w),
             socket)
          else (w, socket)
      | None => (w, socket)
      end
  end.

(** A card as a client sees it: the card, or the marker { hidden: true }. *)
Inductive client_card := shown (c : Card.t) | hidden.

Module ClientPlayer.
Record t := mk {
  userId : string;
  socketId : string;
  chips : Q;
  cards : list client_card;
  bet : Q;
  folded : bool;
  allIn : bool
}.
End ClientPlayer.

Module ClientRoom.
Record t := mk {
  id : string;
  players : list ClientPlayer.t;
  deck : list Card.t;
  communityCards : list Card.t;
  pot : Q;
  currentBet : Q;
  bigBlind : Q;
  smallBlind : Q;
  dealerIndex : Z;
  currentPlayerIndex : Z;
  phase : phase_t;
  maxPlayers : Z
}.
End ClientRoom.

(** [{ ...player, cards: cards }] *)
Definition client_player (cards : list client_card) (p : Player.t)
  : ClientPlayer.t :=
  ClientPlayer.mk (Player.userId p) (Player.socketId p) (Player.chips p) cards
    (Player.bet p) (Player.folded p) (Player.allIn p).

(** [{ ...room, players: players }] *)
Definition client_room (players : list ClientPlayer.t) (r : Room.t)
  : ClientRoom.t :=
  ClientRoom.mk (Room.id r) players (Room.deck r) (Room.communityCards r)
    (Room.pot r) (Room.currentBet r) (Room.bigBlind r) (Room.smallBlind r)
    (Room.dealerIndex r) (Room.currentPlayerIndex r) (Room.phase r)
    (Room.maxPlayers r).

(** sanitizeRoomForClient(room, userId) *)
Definition sanitizeRoomForClient (room : Room.t) (userId : string)
  : ClientRoom.t :=
  client_room
    (List.map
       (fun player =>
          client_player
            (if String.eqb (Player.userId player) userId
             then List.map shown (Player.cards player)
             else List.map (fun _ => hidden) (Player.cards player))
            player)
       (Room.players room))
    room.

(** sanitizeRoomForClients(room) *)
Definition sanitizeRoomForClients (room : Room.t) : ClientRoom.t :=
  client_room
    (List.map
       (fun player =>
          client_player (List.map (fun _ => hidden) (Player.cards player)) player)
       (Room.players room))
    room.

(** A 'game-update' message: the socket it is emitted on, the room as that
    client may see it, and isYourTurn. *)
Record game_update := mkUpdate {
  recipient : string;
  update_room : ClientRoom.t;
  isYourTurn : bool
}.

(** updateGameState(roomId) on the room found: one message per player whose
    socket is connected ([connected] answers whether
    io.sockets.sockets.get(socketId) finds a socket). *)
Definition updateGameState (connected : string -> bool) (room : Room.t)
  : list game_update :=
  flat_map
    (fun player =>
       if connected (Player.socketId player) then
         [mkUpdate (Player.socketId player)
            (sanitizeRoomForClient room (Player.userId player))
            (Room.currentPlayerIndex room
             =? findIndex (fun p => String.eqb (Player.userId p) (Player.userId player))
                  (Room.players room))%Z]
       else [])
    (Room.players room).

(** The sum of player.bet over the seated players. *)
Definition total_bets (ps : list Player.t) : Q :=
  foldr (fun p acc => Player.bet p + acc) 0 ps.

(** Tables for the edge cases of the turn engine. *)
Module Tables.
(** Heads-up in phase preflop: B has folded and A, the dealer, is to act. *)
Definition B_folded_A_to_act : Table.t :=
  Table.mk
    (Room.set_phase preflop
       (Room.set_currentPlayerIndex 0
          (Room.set_currentBet 100
             (Room.set_pot 150
                (Room.set_players
                   [Player.set_bet 100 (Example.seat_of "A" 900);
                    Player.set_folded true
                      (Player.set_bet 50 (Example.seat_of "B" 950))]
                   (createGameRoom "r" 100))))))
    {["A" := User.mk "A" "pw" 900 None; "B" := User.mk "B" "pw" 950 None]} 0.

(** The hand is over: A, who was all-in, has been paid the pot, B had
    folded; the room waits, with A still the current player. *)
Definition hand_over : Table.t :=
  Table.mk
    (Room.set_phase waiting
       (Room.set_currentPlayerIndex 0
          (Room.set_dealerIndex 1
             (Room.set_pot 1050
                (Room.set_players
                   [Player.set_allIn true (Example.seat_of "A" 1050);
                    Player.set_folded true (Example.seat_of "B" 950)]
                   (createGameRoom "r" 100))))))
    ∅ 0.
End Tables.

(** ** The arithmetic of JavaScript numbers

    A JavaScript number is an IEEE 754 binary64 value, and [x + y] and
    [x - y] are the exact sum and difference rounded to the nearest value
    of the format, a tie going to the value with an even significand.
    [Binary64.round] is that rounding on the rationals: the result is a
    multiple m * 2^(e-52) of the unit in the last place, where 2^e is the
    power of two at or below the magnitude (or 2^-1022 for the subnormal
    numbers) and m is the nearest integer.  Only finite values are
    represented: the program has Infinity and NaN where a magnitude reaches
    2^1024, and the sign of a zero is not kept. *)
Module Binary64.
(** The integer part of the binary logarithm of [q > 0]. *)
Definition ilog2 (q : Q) : Z :=
  let q := Qred q in
  let e := (Z.log2 (Qnum q) - Z.log2 (Zpos (Qden q)))%Z in
  if Qle_bool (2 ^ e) q then e else (e - 1)%Z.

(** The nearest integer, ties to even. *)
Definition round_half_even (q : Q) : Z :=
  let f := Qfloor q in
  match Qcompare (q - inject_Z f) (1 # 2) with
  | Lt => f
  | Gt => (f + 1)%Z
  | Eq => if Z.even f then f else (f + 1)%Z
  end.

(** The unit in the last place of the 53-bit significand at [q]. *)
Definition ulp (q : Q) : Q := 2 ^ (Z.max (ilog2 (Qabs q)) (-1022) - 52).

Definition round (q : Q) : Q :=
  if Qeq_bool q 0 then 0
  else Qred (inject_Z (round_half_even (q / ulp q)) * ulp q).

(** [x + y] and [x - y] of the program. *)
Definition add (x y : Q) : Q := round (x + y).
Definition sub (x y : Q) : Q := round (x - y).
End Binary64.

(** An integer of magnitude at most 2^50.  Three such amounts add up to
    less than 2^53, so that binary64 computes every sum and difference of
    the handlers exactly on them. *)
Definition small (q : Q) : bool :=
  (Zpos (Qden (Qred q)) =? 1)%Z && (Z.abs (Qnum (Qred q)) <=? 2 ^ 50)%Z.

Definition small_player (p : Player.t) : bool :=
  small (Player.chips p) && small (Player.bet p).


(** What parseInt read from the amount of a request is small. *)
Definition small_amount (amount : option Z) : bool :=
  match amount with
  | Some n => (Z.abs n <=? 2 ^ 50)%Z
  | None => true
  end.

(** ** The handlers in the arithmetic of JavaScript numbers

    The functions of the program that add or subtract amounts, as in
    section Game but with [Binary64.add] for [+] and [Binary64.sub] for
    [-], and the functions that call them.  Comparisons and Math.min are
    exact in binary64 and stay as they are. *)
Module Js.
Section Game.
Variable random : nat -> Q.

(** The body of the forEach of startNewGame for [player] at [index]. *)
Definition reset_and_blind (r : Room.t) (index : Z) (player : Player.t)
    (pot : Q) (us : gmap string User.t)
  : Player.t * Q * gmap string User.t :=
  let player :=
    Player.set_allIn false (Player.set_folded false
      (Player.set_bet 0 (Player.set_cards [] player))) in
  if (index =? Z.rem (Room.dealerIndex r + 1) (players_count r))%Z then
    let player := Player.set_bet (Room.smallBlind r) player in
    let player :=
      Player.set_chips (Binary64.sub (Player.chips player) (Room.smallBlind r))
        player in
    (player, Binary64.add pot (Room.smallBlind r),
     sync_user (Player.userId player) (Player.chips player) us)
  else if (index =? Z.rem (Room.dealerIndex r + 2) (players_count r))%Z then
    let player := Player.set_bet (Room.bigBlind r) player in
    let player :=
      Player.set_chips (Binary64.sub (Player.chips player) (Room.bigBlind r))
        player in
    (player, Binary64.add pot (Room.bigBlind r),
     sync_user (Player.userId player) (Player.chips player) us)
  else (player, pot, us).

Fixpoint forEach_blinds (r : Room.t) (index : Z) (ps : list Player.t)
    (pot : Q) (us : gmap string User.t)
  : list Player.t * Q * gmap string User.t :=
  match ps with
  | [] => ([], pot, us)
  | player :: rest =>
      let '(player', pot', us') := reset_and_blind r index player pot us in
      let '(rest', pot'', us'') := forEach_blinds r (index + 1)%Z rest pot' us' in
      (player' :: rest', pot'', us'')
  end.

(** startNewGame(roomId) on the room found. *)
Definition startNewGame (s : Table.t) : Table.t :=
  let room := Table.room s in
  if (players_count room <? 2)%Z then s else
  let '(deck, k) := createDeck random (Table.rcalls s) in
  let room := Room.set_deck deck room in
  let room := Room.set_communityCards [] room in
  let room := Room.set_pot 0 room in
  let room := Room.set_currentBet (Room.bigBlind room) room in
  let room := Room.set_phase preflop room in
  let '(ps, pot, us) :=
    forEach_blinds room 0 (Room.players room) (Room.pot room) (Table.users s) in
  let room := Room.set_pot pot (Room.set_players ps room) in
  let '(ps, deck) := deal_round (Room.players room) (Room.deck room) in
  let '(ps, deck) := deal_round ps deck in
  let room := Room.set_deck deck (Room.set_players ps room) in
  let room :=
    Room.set_currentPlayerIndex
      (Z.rem (Room.dealerIndex room + 3) (players_count room)) room in
  Table.mk room us k.

(** endGame(roomId): [winner.chips += room.pot]. *)
Definition endGame (s : Table.t) : result Table.t :=
  let room := Table.room s in
  let activePlayers := activeSeats 0 (Room.players room) in
  let '(pick, k) :=
    if (length activePlayers =? 1)%nat then (0%Z, Table.rcalls s)
    else (random_index random (Table.rcalls s) (length activePlayers),
          S (Table.rcalls s)) in
  match at_index activePlayers pick with
  | None => TypeError
  | Some seat =>
      match Room.players room !! seat with
      | None => TypeError
      | Some winner =>
          let winner :=
            Player.set_chips (Binary64.add (Player.chips winner) (Room.pot room))
              winner in
          let room := Room.set_players (<[seat := winner]> (Room.players room)) room in
          let us := sync_user (Player.userId winner) (Player.chips winner) (Table.users s) in
          let room := Room.set_phase waiting room in
          let room :=
            Room.set_dealerIndex
              (Z.rem (Room.dealerIndex room + 1) (players_count room)) room in
          Ok (Table.mk room us k)
      end
  end.

Fixpoint nextPlayer (fuel : nat) (s : Table.t) {struct fuel} : result Table.t :=
  match fuel with
  | O => OutOfFuel
  | S fuel' =>
      match scan (Table.room s) with
      | Found nextIndex =>
          Ok (Table.set_room
                (Room.set_currentPlayerIndex nextIndex (Table.room s)) s)
      | Undefined => TypeError
      | NoneEligible => nextPhase fuel' s
      end
  end
with nextPhase (fuel : nat) (s : Table.t) {struct fuel} : result Table.t :=
  match fuel with
  | O => OutOfFuel
  | S fuel' =>
      let room := reset_bets (Table.room s) in
      let continue room :=
        nextPlayer fuel'
          (Table.set_room
             (Room.set_currentPlayerIndex (Room.dealerIndex room) room) s) in
      match Room.phase room with
      | preflop => continue (deal_community 3 (Room.set_phase flop room))
      | flop => continue (deal_community 1 (Room.set_phase turn room))
      | turn => continue (deal_community 1 (Room.set_phase river room))
      | river => endGame (Table.set_room (Room.set_phase showdown room) s)
      | waiting | showdown => continue room
      end
  end.

(** [parseInt(amount) || room.bigBlind]: parseInt answers the number
    nearest to the integer it reads. *)
Definition raise_amount (amount : option Z) (r : Room.t) : Q :=
  match amount with
  | Some n => if (n =? 0)%Z then Room.bigBlind r else Binary64.round (inject_Z n)
  | None => Room.bigBlind r
  end.

(** [player.bet += x; player.chips -= x;] *)
Definition bet_more (x : Q) (player : Player.t) : Player.t :=
  let player := Player.set_bet (Binary64.add (Player.bet player) x) player in
  Player.set_chips (Binary64.sub (Player.chips player) x) player.

(** The [switch (action)] of the player-action handler. *)
Definition action_switch (uid : option string) (action : string)
    (amount : option Z) (playerIndex : nat) (player : Player.t)
    (s : Table.t) : result Table.t :=
  let room := Table.room s in
  let store player room :=
    Room.set_players (<[playerIndex := player]> (Room.players room)) room in
  if String.eqb action "fold" then
    Ok (Table.set_room (store (Player.set_folded true player) room) s)
  else if String.eqb action "call" then
    let callAmount := Binary64.sub (Room.currentBet room) (Player.bet player) in
    let actualCallAmount := Math_min callAmount (Player.chips player) in
    let player := bet_more actualCallAmount player in
    let room := Room.set_pot (Binary64.add (Room.pot room) actualCallAmount) room in
    match assign_user_chips uid (Player.chips player) (Table.users s) with
    | Ok us => Ok (Table.mk (store player room) us (Table.rcalls s))
    | _ => TypeError
    end
  else if String.eqb action "raise" then
    let raiseAmount := raise_amount amount room in
    let totalBet := Binary64.add (Room.currentBet room) raiseAmount in
    let playerRaise := Binary64.sub totalBet (Player.bet player) in
    let actualRaise := Math_min playerRaise (Player.chips player) in
    let player := bet_more actualRaise player in
    let room := Room.set_pot (Binary64.add (Room.pot room) actualRaise) room in
    let room := Room.set_currentBet (Player.bet player) room in
    match assign_user_chips uid (Player.chips player) (Table.users s) with
    | Ok us => Ok (Table.mk (store player room) us (Table.rcalls s))
    | _ => TypeError
    end
  else if String.eqb action "check" then
    if Qltb (Player.bet player) (Room.currentBet room) then
      let callAmount := Binary64.sub (Room.currentBet room) (Player.bet player) in
      let actualCallAmount := Math_min callAmount (Player.chips player) in
      let player := bet_more actualCallAmount player in
      let room := Room.set_pot (Binary64.add (Room.pot room) actualCallAmount) room in
      match assign_user_chips uid (Player.chips player) (Table.users s) with
      | Ok us => Ok (Table.mk (store player room) us (Table.rcalls s))
      | _ => TypeError
      end
    else Ok s
  else if String.eqb action "all-in" then
    let room := Room.set_pot (Binary64.add (Room.pot room) (Player.chips player)) room in
    let player :=
      Player.set_bet (Binary64.add (Player.bet player) (Player.chips player)) player in
    let player := Player.set_chips 0 player in
    let player := Player.set_allIn true player in
    match assign_user_chips uid 0 (Table.users s) with
    | Ok us =>
        let room :=
          if Qltb (Room.currentBet room) (Player.bet player)
          then Room.set_currentBet (Player.bet player) room else room in
        Ok (Table.mk (store player room) us (Table.rcalls s))
    | _ => TypeError
    end
  else Ok s.

(** The switch, then nextPlayer(roomId). *)
Definition act (fuel : nat) (uid : option string) (action : string)
    (amount : option Z) (playerIndex : nat) (player : Player.t)
    (s : Table.t) : result Table.t :=
  match action_switch uid action amount playerIndex player s with
  | Ok s' => nextPlayer fuel s'
  | TypeError => TypeError
  | OutOfFuel => OutOfFuel
  end.



End Game.
End Js.

(** Tables for the arithmetic of amounts. *)
Module Amounts.
(** A and B, with accounts, 10000 chips each, at a table of big blind 100,
    A the dealer. *)
Definition two_players : Table.t :=
  Table.mk
    (Room.set_players [Example.seat_of "A" 10000; Example.seat_of "B" 10000]
       (createGameRoom "r" 100))
    {["A" := User.mk "A" "pw" 10000 None; "B" := User.mk "B" "pw" 10000 None]} 0.

(** The hand is started: B has posted 50 and is first to act, A has posted
    100. *)
Definition hand : Table.t := Js.startNewGame Example.random0 two_players.

(** B at that point. *)
Definition B_in_hand : Player.t :=
  default (Example.seat_of "B" 0) (Room.players (Table.room hand) !! 1%nat).

End Amounts.

(** * Properties *)

(** ** Numbers *)

Lemma Qltb_lt x y : Qltb x y = true <-> x < y.
Proof.
  unfold Qltb. rewrite negb_true_iff. split.
  - intros H. apply Qnot_le_lt. intros Hle. apply Qle_bool_iff in Hle. congruence.
  - intros H. destruct (Qle_bool y x) eqn:E; [|reflexivity].
    apply Qle_bool_iff in E. lra.
Qed.

Lemma Qltb_ge x y : Qltb x y = false <-> y <= x.
Proof.
  unfold Qltb. rewrite negb_false_iff. apply Qle_bool_iff.
Qed.

Lemma Math_min_spec a b :
  (a <= b /\ Math_min a b = a) \/ (b < a /\ Math_min a b = b).
Proof.
  unfold Math_min. destruct (Qle_bool a b) eqn:E.
  - left. split; [by apply Qle_bool_iff | done].
  - right. split; [|done]. apply Qnot_le_lt. intros H.
    apply Qle_bool_iff in H. congruence.
Qed.

(** ** createGameRoom *)

(** C9, as the design document states it, fails: for bigBlind = 5 the room's
    smallBlind is 5/2, which is not the truncated quotient 2. *)
Lemma createGameRoom_smallBlind_not_truncated :
  ~ (Room.smallBlind (createGameRoom "r" (inject_Z 5))
     == inject_Z (truncated_half 5)).
Proof. vm_compute. discriminate. Qed.

(** C9 (amended): createGameRoom initialises the room in phase waiting with
    smallBlind exactly bigBlind / 2, without truncation: k for an even
    bigBlind 2k, and the half-integer k + 1/2 for an odd bigBlind 2k + 1. *)
Theorem createGameRoom_smallBlind (roomId : string) (bigBlind : Q) :
  Room.phase (createGameRoom roomId bigBlind) = waiting /\
  Room.smallBlind (createGameRoom roomId bigBlind) == bigBlind / 2 /\
  (forall k : Z, bigBlind == inject_Z (2 * k) ->
     Room.smallBlind (createGameRoom roomId bigBlind) == inject_Z k) /\
  (forall k : Z, bigBlind == inject_Z (2 * k + 1) ->
     Room.smallBlind (createGameRoom roomId bigBlind) == inject_Z k + (1 # 2)).
Proof.
  simpl. split; [reflexivity|]. split; [reflexivity|]. split.
  - intros k Hk. rewrite Hk, inject_Z_mult. field.
  - intros k Hk. rewrite Hk, inject_Z_plus, inject_Z_mult. field.
Qed.

(** ** Arrays *)

Lemma at_index_nat {A : Type} (l : list A) (i : nat) :
  at_index l (Z.of_nat i) = l !! i.
Proof.
  unfold at_index. destruct (Z.ltb_spec (Z.of_nat i) 0); [lia|].
  by rewrite Nat2Z.id.
Qed.

Lemma at_index_Some {A : Type} (l : list A) (i : Z) (x : A) :
  at_index l i = Some x <-> (0 <= i)%Z /\ l !! Z.to_nat i = Some x.
Proof.
  unfold at_index. destruct (Z.ltb_spec i 0).
  - split; [discriminate|]. intros [? _]. lia.
  - split; [by split|]. by intros [_ ?].
Qed.

Lemma at_index_in_range {A : Type} (l : list A) (i : Z) :
  (0 <= i < Z.of_nat (length l))%Z -> is_Some (at_index l i).
Proof.
  intros Hi. unfold at_index. destruct (Z.ltb_spec i 0); [lia|].
  apply lookup_lt_is_Some. lia.
Qed.

Lemma findIndex_from_spec {A : Type} (f : A -> bool) (l : list A) (i0 : Z) :
  (0 <= i0)%Z ->
  (findIndex_from f l i0 = -1)%Z /\ Forall (fun x => f x = false) l
  \/ exists x, (i0 <= findIndex_from f l i0)%Z /\
       l !! Z.to_nat (findIndex_from f l i0 - i0) = Some x /\ f x = true.
Proof.
  revert i0. induction l as [|y l IH]; intros i0 Hi0; simpl.
  - left. by split.
  - destruct (f y) eqn:Hy.
    + right. exists y. rewrite Z.sub_diag. split; [lia|]. by split.
    + destruct (IH (i0 + 1)%Z) as [(H1 & H2)|(x & H1 & H2 & H3)]; [lia| |].
      * left. split; [done|]. by constructor.
      * right. exists x. split; [lia|]. split; [|done].
        replace (Z.to_nat (findIndex_from f l (i0 + 1) - i0))
          with (S (Z.to_nat (findIndex_from f l (i0 + 1) - (i0 + 1)))) by lia.
        done.
Qed.

Lemma findIndex_spec {A : Type} (f : A -> bool) (l : list A) :
  (findIndex f l = -1)%Z /\ Forall (fun x => f x = false) l
  \/ exists x, at_index l (findIndex f l) = Some x /\ f x = true.
Proof.
  unfold findIndex.
  destruct (findIndex_from_spec f l 0) as [H|(x & H1 & H2 & H3)]; [lia|by left|].
  right. exists x. split; [|done]. apply at_index_Some. split; [done|].
  by rewrite Z.sub_0_r in H2.
Qed.

Lemma length_delete_le {A : Type} (l : list A) (i : nat) :
  (length (delete i l) <= length l)%nat.
Proof.
  revert i. induction l as [|x l IH]; intros [|i]; try (cbn; lia).
  change (S (length (delete i l)) <= S (length l))%nat.
  specialize (IH i). lia.
Qed.

(** ** The turn advance *)

Section TurnAdvance.
Variable random : nat -> Q.

(** The while loop of nextPlayer visits the seats idx, idx+1, ... modulo N
    and stops at the first eligible one. *)
Lemma scan_loop_find (ps : list Player.t) (remaining : nat) (idx : Z) :
  (0 <= idx < Z.of_nat (length ps))%Z ->
  scan_loop ps remaining idx =
    match List.find (eligible_at ps)
            (List.map (fun k => ((idx + Z.of_nat k) mod Z.of_nat (length ps))%Z)
               (seq 0 remaining)) with
    | Some i => Found i
    | None => NoneEligible
    end.
Proof.
  revert idx. induction remaining as [|remaining IH]; intros idx Hidx; [done|].
  cbn [scan_loop seq List.map List.find].
  rewrite Z.add_0_r, Z.mod_small by lia.
  unfold eligible_at at 1.
  destruct (at_index_in_range ps idx Hidx) as [player ->].
  destruct (eligible player); [done|].
  rewrite Z.rem_mod_nonneg by lia.
  rewrite IH by (apply Z.mod_pos_bound; lia).
  rewrite <- seq_shift, List.map_map.
  erewrite List.map_ext; [reflexivity|].
  intros k. cbn beta. rewrite Zplus_mod_idemp_l. f_equal. lia.
Qed.

Lemma scan_first_eligible (r : Room.t) :
  (0 < length (Room.players r))%nat ->
  (-1 <= Room.currentPlayerIndex r)%Z ->
  scan r = match first_eligible r with
           | Some i => Found i
           | None => NoneEligible
           end.
Proof.
  intros HN Hcpi. unfold scan, first_eligible, scan_order, players_count.
  rewrite Z.rem_mod_nonneg by lia.
  rewrite scan_loop_find by (apply Z.mod_pos_bound; lia).
  erewrite List.map_ext; [reflexivity|].
  intros k. cbn beta. rewrite Zplus_mod_idemp_l. f_equal.
Qed.

(** C2: in a room with seated players and a current player index (or -1),
    nextPlayer makes the first eligible seat of the scan order, which starts
    at (currentPlayerIndex + 1) mod N and holds each of the N seats once,
    the current player, and calls nextPhase when no seat is eligible; with
    players A (folded), B (all-in), C (eligible) and A the current player
    it lands on C. *)
Theorem nextPlayer_first_eligible (fuel : nat) (s : Table.t) :
  (0 < length (Room.players (Table.room s)))%nat ->
  (-1 <= Room.currentPlayerIndex (Table.room s))%Z ->
  length (scan_order (Table.room s)) = length (Room.players (Table.room s)) /\
  nextPlayer random (S fuel) s =
    match first_eligible (Table.room s) with
    | Some i =>
        Ok (Table.set_room (Room.set_currentPlayerIndex i (Table.room s)) s)
    | None => nextPhase random fuel s
    end /\
  (forall A B C : Player.t,
     Room.players (Table.room s) = [A; B; C] ->
     Room.currentPlayerIndex (Table.room s) = 0%Z ->
     Player.folded A = true -> Player.allIn B = true -> eligible C = true ->
     nextPlayer random (S fuel) s =
       Ok (Table.set_room (Room.set_currentPlayerIndex 2 (Table.room s)) s)).
Proof.
  intros HN Hcpi.
  assert (nextPlayer random (S fuel) s =
    match first_eligible (Table.room s) with
    | Some i =>
        Ok (Table.set_room (Room.set_currentPlayerIndex i (Table.room s)) s)
    | None => nextPhase random fuel s
    end) as Hnext.
  { cbn [nextPlayer]. rewrite scan_first_eligible by done.
    by destruct (first_eligible (Table.room s)). }
  split; [|split; [exact Hnext|]].
  - unfold scan_order. by rewrite length_map, length_seq.
  - intros A B C Hps H0 HA HB HC. rewrite Hnext.
    assert (scan_order (Table.room s) = [1; 2; 0]%Z) as Hso.
    { unfold scan_order, players_count. rewrite Hps, H0. reflexivity. }
    unfold first_eligible. rewrite Hso, Hps. cbn [List.find].
    unfold eligible_at.
    change (at_index [A; B; C] 1) with (Some B).
    change (at_index [A; B; C] 2) with (Some C).
    unfold eligible at 1. rewrite HB, HC. cbn. by rewrite andb_false_r.
Qed.
End TurnAdvance.

(** ** The guard of the player-action handler *)

Section Guard.
Variable random : nat -> Q.

Lemma has_socket_true (socket : Socket.t) (p : Player.t) :
  has_socket socket p = true <-> Player.socketId p = Socket.id socket.
Proof. unfold has_socket. apply String.eqb_eq. Qed.

(** The handler only goes past its guard for the player in turn. *)
Lemma player_action_passes_guard (fuel : nat) (w : World.t)
    (socket : Socket.t) (action : string) (amount : option Z) :
  player_action random fuel w socket action amount = Ok w \/
  exists roomId room player,
    Socket.currentRoom socket = Some roomId /\
    World.gameRooms w !! roomId = Some room /\
    at_index (Room.players room) (Room.currentPlayerIndex room) = Some player /\
    Player.socketId player = Socket.id socket /\
    player_action random fuel w socket action amount =
      match act random fuel (Socket.userId socket) action amount
              (Z.to_nat (Room.currentPlayerIndex room)) player (focus w room) with
      | Ok s => Ok (unfocus roomId w s)
      | TypeError => TypeError
      | OutOfFuel => OutOfFuel
      end.
Proof.
  unfold player_action.
  destruct (Socket.currentRoom socket) as [roomId|]; [|by left].
  destruct (String.eqb roomId ""); [by left|].
  destruct (World.gameRooms w !! roomId) as [room|] eqn:Hroom; [|by left].
  destruct (findIndex_spec (has_socket socket) (Room.players room))
    as [[-> _]|(p & Hp & Hsock)]; [by left|].
  destruct (Z.eqb_spec (findIndex (has_socket socket) (Room.players room)) (-1));
    [by left|].
  destruct (Z.eqb_spec (findIndex (has_socket socket) (Room.players room))
              (Room.currentPlayerIndex room)) as [Heq|]; [|by left].
  cbn [orb negb]. rewrite Hp. right. exists roomId, room, p.
  rewrite <- Heq. repeat split; try done. by apply has_socket_true.
Qed.

(** C5: a player-action request is a no-op, leaving the users, every room
    with its players, and the rest of the server state as they were, when
    the sender's room does not exist, when no player of that room has the
    sender's socket, and when the player at currentPlayerIndex is not the
    sender. *)
Theorem player_action_out_of_turn (fuel : nat) (w : World.t)
    (socket : Socket.t) (action : string) (amount : option Z) :
  (forall roomId, Socket.currentRoom socket = Some roomId ->
     World.gameRooms w !! roomId = None)
  \/ (exists roomId room,
        Socket.currentRoom socket = Some roomId /\
        World.gameRooms w !! roomId = Some room /\
        Forall (fun p => Player.socketId p <> Socket.id socket) (Room.players room))
  \/ (exists roomId room,
        Socket.currentRoom socket = Some roomId /\
        World.gameRooms w !! roomId = Some room /\
        forall p, at_index (Room.players room) (Room.currentPlayerIndex room) = Some p ->
                  Player.socketId p <> Socket.id socket) ->
  player_action random fuel w socket action amount = Ok w.
Proof.
  intros Hout.
  destruct (player_action_passes_guard fuel w socket action amount)
    as [H|(roomId & room & player & Hcur & Hroom & Hat & Hsock & _)]; [done|].
  exfalso. destruct Hout as [Hno|[(rid & r & Hcur' & Hroom' & Hall)|(rid & r & Hcur' & Hroom' & Hnot)]].
  - specialize (Hno roomId Hcur). congruence.
  - assert (rid = roomId) as -> by congruence.
    assert (r = room) as -> by congruence.
    apply at_index_Some in Hat as [_ Hat].
    rewrite Forall_lookup in Hall. by apply (Hall _ _ Hat).
  - assert (rid = roomId) as -> by congruence.
    assert (r = room) as -> by congruence.
    by apply (Hnot player).
Qed.
End Guard.

(** ** Settlement *)

Lemma sync_user_lookup (uid : string) (v : Q) (us : gmap string User.t) (u : User.t) :
  us !! uid = Some u -> sync_user uid v us !! uid = Some (User.set_chips v u).
Proof. intros H. unfold sync_user. rewrite H. apply lookup_insert_eq. Qed.

Lemma activeSeats_elem (i0 : nat) (ps : list Player.t) (seat : nat) :
  seat ∈ activeSeats i0 ps <->
  exists p, (i0 <= seat)%nat /\ ps !! (seat - i0)%nat = Some p /\ Player.folded p = false.
Proof.
  revert i0. induction ps as [|q ps IH]; intros i0; simpl.
  - split; [by intros ?%elem_of_nil|]. by intros (p & _ & ? & _).
  - destruct (Player.folded q) eqn:Hq.
    + rewrite IH. split.
      * intros (p & Hle & Hp & Hf). exists p. split; [lia|]. split; [|done].
        by replace (seat - i0)%nat with (S (seat - S i0)) by lia.
      * intros (p & Hle & Hp & Hf).
        destruct (decide (seat = i0)) as [->|Hne].
        { rewrite Nat.sub_diag in Hp. simpl in Hp. congruence. }
        exists p. split; [lia|]. split; [|done].
        by replace (seat - i0)%nat with (S (seat - S i0)) in Hp by lia.
    + rewrite elem_of_cons, IH. split.
      * intros [->|(p & Hle & Hp & Hf)].
        { exists q. rewrite Nat.sub_diag. by repeat split. }
        exists p. split; [lia|]. split; [|done].
        by replace (seat - i0)%nat with (S (seat - S i0)) by lia.
      * intros (p & Hle & Hp & Hf).
        destruct (decide (seat = i0)) as [->|Hne]; [by left|].
        right. exists p. split; [lia|]. split; [|done].
        by replace (seat - i0)%nat with (S (seat - S i0)) in Hp by lia.
Qed.

Lemma activeSeats_length (i0 : nat) (ps : list Player.t) :
  length (activeSeats i0 ps) =
  length (List.filter (fun p => negb (Player.folded p)) ps).
Proof.
  revert i0. induction ps as [|q ps IH]; intros i0; simpl; [done|].
  destruct (Player.folded q); simpl; by rewrite IH.
Qed.

Lemma activeSeats_nonempty (ps : list Player.t) :
  Exists (fun p => Player.folded p = false) ps -> activeSeats 0 ps <> [].
Proof.
  intros (p & Hp & Hf)%Exists_exists.
  apply list_elem_of_lookup in Hp as [i Hi].
  assert (i ∈ activeSeats 0 ps) as Hin.
  { apply activeSeats_elem. exists p. rewrite Nat.sub_0_r. split; [lia|done]. }
  intros Hnil. rewrite Hnil in Hin. by apply elem_of_nil in Hin.
Qed.

Lemma random_index_range (random : nat -> Q) (k n : nat) :
  0 <= random k < 1 -> (0 < n)%nat ->
  (0 <= random_index random k n < Z.of_nat n)%Z.
Proof.
  intros [H0 H1] Hn. unfold random_index.
  assert (0 < inject_Z (Z.of_nat n)) as Hpos.
  { change 0 with (inject_Z 0). rewrite <- Zlt_Qlt. lia. }
  split.
  - change 0%Z with (Qfloor 0). apply Qfloor_resp_le. nra.
  - rewrite Zlt_Qlt.
    eapply Qle_lt_trans; [apply Qfloor_le|]. nra.
Qed.

Section Settlement.
Variable random : nat -> Q.

(** The seat endGame picks holds a player who has not folded. *)
Lemma endGame_pick (s : Table.t) :
  Exists (fun p => Player.folded p = false) (Room.players (Table.room s)) ->
  0 <= random (Table.rcalls s) < 1 ->
  let activePlayers := activeSeats 0 (Room.players (Table.room s)) in
  exists seat winner,
    at_index activePlayers
      (if (length activePlayers =? 1)%nat then 0%Z
       else random_index random (Table.rcalls s) (length activePlayers))
    = Some seat /\
    Room.players (Table.room s) !! seat = Some winner /\
    Player.folded winner = false.
Proof.
  intros Hex Hrand activePlayers.
  pose proof (activeSeats_nonempty _ Hex) as Hne. fold activePlayers in Hne.
  assert (exists seat,
    at_index activePlayers
      (if (length activePlayers =? 1)%nat then 0%Z
       else random_index random (Table.rcalls s) (length activePlayers))
    = Some seat) as [seat Hseat].
  { apply at_index_in_range.
    destruct (length activePlayers =? 1)%nat eqn:Hlen.
    - apply Nat.eqb_eq in Hlen. lia.
    - apply random_index_range; [done|].
      destruct activePlayers; [done|simpl; lia]. }
  assert (seat ∈ activePlayers) as Hin.
  { apply at_index_Some in Hseat as [_ Hseat].
    apply list_elem_of_lookup. eauto. }
  apply activeSeats_elem in Hin as (winner & _ & Hw & Hf).
  rewrite Nat.sub_0_r in Hw. by exists seat, winner.
Qed.

(** Settlement of a room in which some player has not folded: endGame
    gives the pot to a player
    who has not folded: that player's chips grow by exactly room.pot and the
    user record of the winner gets the new chip count; the phase becomes
    waiting and dealerIndex becomes (dealerIndex + 1) mod N.  When exactly
    one player has not folded, that player is the winner, whatever
    Math.random() would answer. *)
Theorem endGame_awards_pot (s : Table.t) :
  Exists (fun p => Player.folded p = false) (Room.players (Table.room s)) ->
  0 <= random (Table.rcalls s) < 1 ->
  (0 <= Room.dealerIndex (Table.room s))%Z ->
  exists seat winner s',
    endGame random s = Ok s' /\
    Room.players (Table.room s) !! seat = Some winner /\
    Player.folded winner = false /\
    Room.players (Table.room s') =
      <[seat := Player.set_chips
                  (Player.chips winner + Room.pot (Table.room s)) winner]>
        (Room.players (Table.room s)) /\
    (forall u, Table.users s !! Player.userId winner = Some u ->
       Table.users s' !! Player.userId winner =
         Some (User.set_chips (Player.chips winner + Room.pot (Table.room s)) u)) /\
    Room.phase (Table.room s') = waiting /\
    Room.dealerIndex (Table.room s') =
      ((Room.dealerIndex (Table.room s) + 1) mod players_count (Table.room s))%Z /\
    (length (List.filter (fun p => negb (Player.folded p))
               (Room.players (Table.room s))) = 1%nat ->
     (forall i p, Room.players (Table.room s) !! i = Some p ->
                  Player.folded p = false -> i = seat) /\
     forall random' : nat -> Q, endGame random' s = Ok s').
Proof.
  intros Hex Hrand Hd.
  destruct (endGame_pick s Hex Hrand) as (seat & winner & Hseat & Hw & Hf).
  assert (0 < players_count (Table.room s))%Z as HN.
  { unfold players_count. apply lookup_lt_Some in Hw. lia. }
  destruct (length (activeSeats 0 (Room.players (Table.room s))) =? 1)%nat
    eqn:Hone.
  all: eexists seat, winner, _; split;
    [unfold endGame; rewrite Hone, Hseat, Hw; reflexivity|].
  all: cbn; repeat split; try done.
  all: try (intros u Hu; by apply sync_user_lookup).
  all: try (unfold players_count in *; cbn; rewrite length_insert;
            apply Z.rem_mod_nonneg; lia).
  all: try (intros i p Hi Hp;
    rewrite <- activeSeats_length with (i0 := 0%nat) in H;
    assert (i ∈ activeSeats 0 (Room.players (Table.room s))) as Hi'
      by (apply activeSeats_elem; exists p; rewrite Nat.sub_0_r;
          split; [lia|done]);
    assert (seat ∈ activeSeats 0 (Room.players (Table.room s))) as Hs'
      by (apply activeSeats_elem; exists winner; rewrite Nat.sub_0_r;
          split; [lia|done]);
    destruct (activeSeats 0 (Room.players (Table.room s))) as [|x [|y l]];
    try discriminate;
    apply list_elem_of_singleton in Hi', Hs'; congruence).
  - intros random'. unfold endGame. rewrite Hone, Hseat, Hw. reflexivity.
  - rewrite <- activeSeats_length with (i0 := 0%nat) in H.
    rewrite H in Hone. discriminate.
Qed.
End Settlement.

(** ** Hand start *)


(** Dealing leaves everything but the hole cards as it was. *)
Definition same_stake (p p' : Player.t) : Prop :=
  exists cs, p' = Player.set_cards cs p.

Lemma same_stake_refl (p : Player.t) : same_stake p p.
Proof. exists (Player.cards p). by destruct p. Qed.

Lemma same_stake_trans (p q r : Player.t) :
  same_stake p q -> same_stake q r -> same_stake p r.
Proof. intros [cs ->] [cs' ->]. by exists cs'. Qed.

Lemma same_stake_total_chips (ps ps' : list Player.t) :
  Forall2 same_stake ps ps' -> total_chips ps' = total_chips ps.
Proof.
  induction 1 as [|p p' ps ps' [cs ->] _ IH]; simpl; [done|]. by rewrite IH.
Qed.

Lemma pop_length {A : Type} (l : list A) (x : A) (l' : list A) :
  pop l = Some (x, l') -> length l = S (length l').
Proof.
  unfold pop. destruct (last l) as [y|] eqn:Hlast; [|done].
  intros [= <- <-]. apply last_Some in Hlast as [l'' ->].
  rewrite removelast_last, length_app. simpl. lia.
Qed.

Lemma pop_None {A : Type} (l : list A) : pop l = None -> l = [].
Proof.
  unfold pop. destruct (last l) eqn:Hlast; [done|]. intros _.
  by apply last_None.
Qed.

Lemma deal_round_spec (ps : list Player.t) (deck : list Card.t) :
  Forall2 same_stake ps (deal_round ps deck).1 /\
  (length deck <= length (deal_round ps deck).2 + length ps)%nat.
Proof.
  revert deck. induction ps as [|p ps IH]; intros deck; simpl.
  - split; [constructor|lia].
  - destruct (pop deck) as [[c deck']|] eqn:Hpop.
    + destruct (IH deck') as [IH1 IH2].
      destruct (deal_round ps deck') as [rest' deck'']. simpl in *.
      split; [constructor; [by eexists|done]|].
      apply pop_length in Hpop. lia.
    + destruct (IH deck) as [IH1 IH2].
      destruct (deal_round ps deck) as [rest' deck'']. simpl in *.
      split; [constructor; [apply same_stake_refl|done]|].
      apply pop_None in Hpop. subst. simpl. lia.
Qed.

Lemma swap_length {A : Type} (l : list A) (i : nat) (j : Z) :
  length (swap l i j) = length l.
Proof.
  unfold swap. destruct (l !! i); [|done]. destruct (at_index l j); [|done].
  by rewrite !length_insert.
Qed.

Section HandStart.
Variable random : nat -> Q.

Lemma shuffle_loop_length (i : nat) (shuffled : list Card.t) (k : nat) :
  length (shuffle_loop random i shuffled k).1 = length shuffled.
Proof.
  revert shuffled k. induction i as [|i IH]; intros shuffled k; [done|].
  cbn [shuffle_loop]. by rewrite IH, swap_length.
Qed.

Lemma createDeck_length (k : nat) : length (createDeck random k).1 = 52%nat.
Proof. unfold createDeck, shuffleDeck. by rewrite shuffle_loop_length. Qed.

(** shuffleDeck only swaps positions of the array: the index j drawn for
    position i lies between 0 and i. *)
Lemma shuffle_index_range (i k : nat) :
  0 <= random k < 1 -> (0 <= random_index random k (i + 1) <= Z.of_nat i)%Z.
Proof.
  intros H. pose proof (random_index_range random k (i + 1) H). lia.
Qed.

Lemma reset_and_blind_player (r : Room.t) (index : Z) (p : Player.t)
    (pot pot' : Q) (us us' : gmap string User.t) :
  (reset_and_blind r index p pot us).1.1 = (reset_and_blind r index p pot' us').1.1.
Proof.
  unfold reset_and_blind.
  by repeat match goal with |- context [Z.eqb ?a ?b] => destruct (Z.eqb a b) end.
Qed.

Lemma forEach_blinds_cons (r : Room.t) (i0 : Z) (p : Player.t)
    (ps : list Player.t) (pot : Q) (us : gmap string User.t) :
  forEach_blinds r i0 (p :: ps) pot us =
    let one := reset_and_blind r i0 p pot us in
    let rest := forEach_blinds r (i0 + 1) ps one.1.2 one.2 in
    (one.1.1 :: rest.1.1, rest.1.2, rest.2).
Proof.
  cbn [forEach_blinds].
  destruct (reset_and_blind r i0 p pot us) as [[p' pot'] us']. cbn.
  by destruct (forEach_blinds r (i0 + 1) ps pot' us') as [[rest' pot''] us''].
Qed.

Lemma forEach_blinds_lookup (r : Room.t) (i0 : Z) (ps : list Player.t)
    (pot : Q) (us : gmap string User.t) (k : nat) :
  (forEach_blinds r i0 ps pot us).1.1 !! k =
  (fun p => (reset_and_blind r (i0 + Z.of_nat k) p 0 ∅).1.1) <$> ps !! k.
Proof.
  revert i0 pot us k. induction ps as [|p ps IH]; intros i0 pot us k; [done|].
  rewrite forEach_blinds_cons. cbn [fst snd]. destruct k as [|k].
  - cbn. rewrite Z.add_0_r. f_equal. apply reset_and_blind_player.
  - replace (i0 + Z.of_nat (S k))%Z with (i0 + 1 + Z.of_nat k)%Z by lia.
    apply IH.
Qed.

Lemma forEach_blinds_length (r : Room.t) (i0 : Z) (ps : list Player.t)
    (pot : Q) (us : gmap string User.t) :
  length (forEach_blinds r i0 ps pot us).1.1 = length ps.
Proof.
  revert i0 pot us. induction ps as [|p ps IH]; intros i0 pot us; [done|].
  rewrite forEach_blinds_cons. cbn. by rewrite IH.
Qed.

End HandStart.

Ltac case_Z_tests :=
  repeat match goal with
  | |- context [Z.eqb ?a ?b] => destruct (Z.eqb_spec a b)
  | |- context [Z.leb ?a ?b] => destruct (Z.leb_spec a b)
  | |- context [Z.ltb ?a ?b] => destruct (Z.ltb_spec a b)
  end.

Section Blinds.
Variable random : nat -> Q.

(** What the forEach of startNewGame adds to the pot over the seats
    i0, i0+1, ...: the small blind when the small-blind seat is among them,
    the big blind when the big-blind seat is among them (and is another
    seat). *)
Lemma forEach_blinds_pot (r : Room.t) (i0 : Z) (ps : list Player.t)
    (pot : Q) (us : gmap string User.t) :
  let i1 := Z.rem (Room.dealerIndex r + 1) (players_count r) in
  let i2 := Z.rem (Room.dealerIndex r + 2) (players_count r) in
  (forEach_blinds r i0 ps pot us).1.2 ==
    pot
    + (if (i0 <=? i1)%Z && (i1 <? i0 + Z.of_nat (length ps))%Z
       then Room.smallBlind r else 0)
    + (if (i0 <=? i2)%Z && (i2 <? i0 + Z.of_nat (length ps))%Z && negb (i2 =? i1)%Z
       then Room.bigBlind r else 0).
Proof.
  intros i1 i2. revert i0 pot us.
  induction ps as [|p ps IH]; intros i0 pot us.
  - cbn [forEach_blinds fst snd length]. case_Z_tests; cbn [andb negb]. all: try lra. all: try lia.
  - rewrite forEach_blinds_cons. cbn [fst snd]. rewrite IH.
    cbn [length]. rewrite Nat2Z.inj_succ.
    unfold reset_and_blind. fold i1 i2.
    case_Z_tests; cbn [andb negb fst snd]. all: try lra. all: try lia.
Qed.

(** The forEach reads the room only for the dealer, the number of players
    and the blinds. *)
Lemma forEach_blinds_ext (r r' : Room.t) (i0 : Z) (ps : list Player.t)
    (pot : Q) (us : gmap string User.t) :
  Room.dealerIndex r = Room.dealerIndex r' ->
  Room.players r = Room.players r' ->
  Room.smallBlind r = Room.smallBlind r' ->
  Room.bigBlind r = Room.bigBlind r' ->
  forEach_blinds r i0 ps pot us = forEach_blinds r' i0 ps pot us.
Proof.
  intros Hd Hp Hs Hb. revert i0 pot us.
  induction ps as [|p ps IH]; intros i0 pot us; [done|].
  rewrite !forEach_blinds_cons. cbv zeta.
  assert (reset_and_blind r i0 p pot us = reset_and_blind r' i0 p pot us) as ->.
  { unfold reset_and_blind, players_count. by rewrite Hd, Hp, Hs, Hb. }
  by rewrite IH.
Qed.

(** The room startNewGame leaves, for two players or more. *)
Lemma startNewGame_room (s : Table.t) :
  (2 <= players_count (Table.room s))%Z ->
  let room := Table.room s in
  let posted := forEach_blinds room 0 (Room.players room) 0 (Table.users s) in
  let round1 := deal_round posted.1.1 (createDeck random (Table.rcalls s)).1 in
  let round2 := deal_round round1.1 round1.2 in
  startNewGame random s =
    Table.mk
      (Room.mk (Room.id room) round2.1 round2.2 [] posted.1.2
         (Room.bigBlind room) (Room.bigBlind room) (Room.smallBlind room)
         (Room.dealerIndex room)
         (Z.rem (Room.dealerIndex room + 3) (Z.of_nat (length round2.1)))
         preflop (Room.maxPlayers room))
      posted.2 (createDeck random (Table.rcalls s)).2.
Proof.
  intros HN. cbv zeta. unfold startNewGame.
  destruct (Z.ltb_spec (players_count (Table.room s)) 2); [lia|].
  destruct (createDeck random (Table.rcalls s)) as [deck k]. cbn.
  rewrite (forEach_blinds_ext _ (Table.room s)) by done.
  destruct (forEach_blinds _ _ _ _ _) as [[ps pot] us]. cbn.
  destruct (deal_round ps deck) as [ps1 deck1]. cbn.
  destruct (deal_round ps1 deck1) as [ps2 deck2]. cbn.
  reflexivity.
Qed.
End Blinds.

Section HandStartTheorems.
Variable random : nat -> Q.

Lemma next_seats_distinct (d N : Z) :
  (0 <= d)%Z -> (2 <= N)%Z ->
  (0 <= (d + 1) mod N < N)%Z /\ (0 <= (d + 2) mod N < N)%Z /\
  ((d + 2) mod N <> (d + 1) mod N)%Z.
Proof.
  intros Hd HN.
  pose proof (Z.mod_pos_bound (d + 1) N ltac:(lia)).
  pose proof (Z.mod_pos_bound (d + 2) N ltac:(lia)).
  repeat split; try lia.
  intros Heq.
  pose proof (Z.div_mod (d + 1) N ltac:(lia)) as H1.
  pose proof (Z.div_mod (d + 2) N ltac:(lia)) as H2.
  rewrite Heq in H2.
  assert (N * ((d + 2) / N - (d + 1) / N) = 1)%Z as Hone by lia.
  apply Z.mul_eq_1 in Hone. lia.
Qed.

(** The players after startNewGame: seat by seat the player the forEach of
    startNewGame produced, with the hole cards dealt. *)
Lemma startNewGame_players (s : Table.t) :
  (2 <= players_count (Table.room s))%Z ->
  length (Room.players (Table.room (startNewGame random s)))
    = length (Room.players (Table.room s)) /\
  forall (k : nat) (p : Player.t),
    Room.players (Table.room s) !! k = Some p ->
    exists cs,
      Room.players (Table.room (startNewGame random s)) !! k =
        Some (Player.set_cards cs
                (reset_and_blind (Table.room s) (Z.of_nat k) p 0 ∅).1.1).
Proof.
  intros HN. rewrite (startNewGame_room random s HN). cbn [Table.room Room.players].
  set (posted := forEach_blinds (Table.room s) 0 _ 0 _).
  set (deck := (createDeck random (Table.rcalls s)).1).
  destruct (deal_round_spec posted.1.1 deck) as [H1 _].
  destruct (deal_round_spec (deal_round posted.1.1 deck).1
              (deal_round posted.1.1 deck).2) as [H2 _].
  split.
  - rewrite <- (Forall2_length _ _ _ H2), <- (Forall2_length _ _ _ H1).
    apply forEach_blinds_length.
  - intros k p Hp.
    assert (posted.1.1 !! k =
            Some (reset_and_blind (Table.room s) (Z.of_nat k) p 0 ∅).1.1) as Hk.
    { subst posted. rewrite forEach_blinds_lookup, Hp. reflexivity. }
    destruct (Forall2_lookup_l _ _ _ _ _ H1 Hk) as (p1 & Hp1 & Hs1).
    destruct (Forall2_lookup_l _ _ _ _ _ H2 Hp1) as (p2 & Hp2 & Hs2).
    destruct (same_stake_trans _ _ _ Hs1 Hs2) as [cs ->].
    by exists cs.
Qed.

(** C1: for a room with N >= 2 seated players, startNewGame leaves the
    phase preflop, the player at seat (dealerIndex+1) mod N with the small
    blind as bet and taken from the chips, the player at seat
    (dealerIndex+2) mod N likewise with the big blind, the pot equal to
    smallBlind + bigBlind, currentBet equal to bigBlind and
    currentPlayerIndex equal to (dealerIndex+3) mod N.  With bigBlind 100
    and players A (dealer), B, C: B posts 50, C posts 100, the pot is 150,
    currentBet is 100 and A is first to act. *)
Theorem startNewGame_posts_blinds (s : Table.t) :
  let room := Table.room s in
  let n := players_count room in
  let room' := Table.room (startNewGame random s) in
  (2 <= n)%Z ->
  (0 <= Room.dealerIndex room)%Z ->
  Room.phase room' = preflop /\
  (exists p p',
     at_index (Room.players room) ((Room.dealerIndex room + 1) mod n) = Some p /\
     at_index (Room.players room') ((Room.dealerIndex room + 1) mod n) = Some p' /\
     Player.bet p' = Room.smallBlind room /\
     Player.chips p' = Player.chips p - Room.smallBlind room) /\
  (exists p p',
     at_index (Room.players room) ((Room.dealerIndex room + 2) mod n) = Some p /\
     at_index (Room.players room') ((Room.dealerIndex room + 2) mod n) = Some p' /\
     Player.bet p' = Room.bigBlind room /\
     Player.chips p' = Player.chips p - Room.bigBlind room) /\
  Room.pot room' == Room.smallBlind room + Room.bigBlind room /\
  Room.currentBet room' = Room.bigBlind room /\
  Room.currentPlayerIndex room' = ((Room.dealerIndex room + 3) mod n)%Z /\
  (forall A B C : Player.t,
     Room.players room = [A; B; C] ->
     Room.dealerIndex room = 0%Z ->
     Room.bigBlind room == 100 ->
     Room.smallBlind room == Room.bigBlind room / 2 ->
     exists A' B' C',
       Room.players room' = [A'; B'; C'] /\
       Player.bet B' == 50 /\ Player.chips B' == Player.chips B - 50 /\
       Player.bet C' == 100 /\ Player.chips C' == Player.chips C - 100 /\
       Player.bet A' == 0 /\ Player.chips A' == Player.chips A /\
       Room.pot room' == 150 /\ Room.currentBet room' == 100 /\
       Room.currentPlayerIndex room' = 0%Z).
Proof.
  intros room n room' HN Hd.
  destruct (next_seats_distinct (Room.dealerIndex room) n Hd HN)
    as (Hi1 & Hi2 & Hne).
  destruct (startNewGame_players s HN) as [Hlen Hplayers].
  fold room room' in Hlen, Hplayers.
  assert (Z.rem (Room.dealerIndex room + 1) n
          = (Room.dealerIndex room + 1) mod n)%Z as Hr1
    by (apply Z.rem_mod_nonneg; lia).
  assert (Z.rem (Room.dealerIndex room + 2) n
          = (Room.dealerIndex room + 2) mod n)%Z as Hr2
    by (apply Z.rem_mod_nonneg; lia).
  assert (Room.pot room' == Room.smallBlind room + Room.bigBlind room) as Hpot.
  { subst room'. rewrite (startNewGame_room random s HN). cbn [Table.room Room.pot].
    rewrite forEach_blinds_pot. fold room. fold n. rewrite Hr1, Hr2.
    unfold n at 1 3, players_count.
    case_Z_tests; cbn [andb negb]. all: try lra.
    all: unfold n, players_count in *; lia. }
  assert (Room.currentBet room' = Room.bigBlind room) as Hbet.
  { subst room'. by rewrite (startNewGame_room random s HN). }
  assert (Room.currentPlayerIndex room'
          = ((Room.dealerIndex room + 3) mod n)%Z) as Hcpi.
  { subst room'. pose proof Hlen as Hlen'.
    rewrite (startNewGame_room random s HN) in Hlen' |- *.
    cbn [Table.room Room.players Room.currentPlayerIndex] in *.
    rewrite Hlen'. apply Z.rem_mod_nonneg; unfold n, players_count in *; lia. }
  assert (forall (i : Z) (p : Player.t),
    at_index (Room.players room) i = Some p ->
    exists cs, at_index (Room.players room') i =
      Some (Player.set_cards cs (reset_and_blind room i p 0 ∅).1.1)) as Hat.
  { intros i p [Hi Hp]%at_index_Some.
    destruct (Hplayers _ _ Hp) as [cs Hcs]. exists cs.
    apply at_index_Some. split; [done|]. by rewrite Z2Nat.id in Hcs. }
  split; [|split; [|split; [|split; [done|split; [done|split; [done|]]]]]].
  - subst room'. by rewrite (startNewGame_room random s HN).
  - destruct (at_index_in_range (Room.players room)
                ((Room.dealerIndex room + 1) mod n)) as [p Hp].
    { unfold n, players_count in *. lia. }
    destruct (Hat _ _ Hp) as [cs Hp']. eexists p, _.
    split; [done|]. split; [exact Hp'|].
    unfold reset_and_blind. fold n. rewrite Hr1, Z.eqb_refl. by cbn.
  - destruct (at_index_in_range (Room.players room)
                ((Room.dealerIndex room + 2) mod n)) as [p Hp].
    { unfold n, players_count in *. lia. }
    destruct (Hat _ _ Hp) as [cs Hp']. eexists p, _.
    split; [done|]. split; [exact Hp'|].
    unfold reset_and_blind. fold n. rewrite Hr1, Hr2, Z.eqb_refl.
    destruct (Z.eqb_spec ((Room.dealerIndex room + 2) mod n)
                ((Room.dealerIndex room + 1) mod n)); [done|]. by cbn.
  - intros A B C Hps Hd0 Hbb Hsb.
    destruct (Hplayers 0%nat A) as [csA HA]; [by rewrite Hps|].
    destruct (Hplayers 1%nat B) as [csB HB]; [by rewrite Hps|].
    destruct (Hplayers 2%nat C) as [csC HC]; [by rewrite Hps|].
    rewrite Hps in Hlen. cbn [length] in Hlen.
    destruct (Room.players room') as [|A' [|B' [|C' [|? ?]]]]; try discriminate.
    cbn in HA, HB, HC. injection HA as ->. injection HB as ->. injection HC as ->.
    eexists _, _, _. split; [reflexivity|].
    unfold reset_and_blind, players_count. fold room. rewrite Hps, Hd0.
    repeat match goal with
    | |- context [Z.eqb ?a ?b] =>
        let v := eval vm_compute in (Z.eqb a b) in change (Z.eqb a b) with v
    end.
    cbn -[Qplus Qminus Qdiv].
    rewrite Hcpi, Hbet, Hpot, Hd0. unfold n, players_count. rewrite Hps.
    repeat split; try (rewrite ?Hsb, ?Hbb; reflexivity || field).
Qed.
End HandStartTheorems.

(** ** Actions *)


Lemma deal_community_fields (n : nat) (r : Room.t) :
  Room.players (deal_community n r) = Room.players r /\
  Room.pot (deal_community n r) = Room.pot r /\
  Room.phase (deal_community n r) = Room.phase r /\
  Room.currentBet (deal_community n r) = Room.currentBet r /\
  Room.dealerIndex (deal_community n r) = Room.dealerIndex r /\
  Room.maxPlayers (deal_community n r) = Room.maxPlayers r.
Proof.
  revert r. induction n as [|n IH]; intros r; [done|].
  cbn [deal_community]. destruct (pop (Room.deck r)) as [[c deck']|].
  - destruct (IH (Room.set_deck deck'
                    (Room.set_communityCards (Room.communityCards r ++ [c]) r)))
      as (-> & -> & -> & -> & -> & ->). done.
  - apply IH.
Qed.

Ltac case_action H :=
  unfold action_switch in H;
  repeat match type of H with
  | context [String.eqb ?a ?b] => destruct (String.eqb a b)
  end;
  repeat match type of H with
  | context [assign_user_chips ?u ?v ?us] => destruct (assign_user_chips u v us)
  | context [Qltb ?a ?b] => destruct (Qltb a b) eqn:?
  end;
  try discriminate H; injection H as <-.

Section Actions.
Variable random : nat -> Q.

Lemma action_switch_phase (uid : option string) (action : string)
    (amount : option Z) (i : nat) (player : Player.t) (s s' : Table.t) :
  action_switch uid action amount i player s = Ok s' ->
  Room.phase (Table.room s') = Room.phase (Table.room s).
Proof.
  intros H. case_action H; try reflexivity.
  all: cbn; by destruct (Qltb _ _).
Qed.

End Actions.

(** ** The board by phase *)

Lemma deal_community_cards (n : nat) (r : Room.t) :
  (n <= length (Room.deck r))%nat ->
  length (Room.communityCards (deal_community n r))
    = (length (Room.communityCards r) + n)%nat /\
  (length (Room.deck (deal_community n r)) + n)%nat = length (Room.deck r).
Proof.
  revert r. induction n as [|n IH]; intros r Hn; [cbn; lia|].
  cbn [deal_community].
  destruct (pop (Room.deck r)) as [[c deck']|] eqn:Hpop.
  - apply pop_length in Hpop.
    destruct (IH (Room.set_deck deck'
                    (Room.set_communityCards (Room.communityCards r ++ [c]) r)))
      as [H1 H2]; [cbn; lia|].
    rewrite H1. cbn in *. rewrite length_app. cbn. lia.
  - apply pop_None in Hpop. rewrite Hpop in Hn. cbn in Hn. lia.
Qed.

Section Board.
Variable random : nat -> Q.

Lemma createGameRoom_inv (roomId : string) (bigBlind : Q) :
  room_inv (createGameRoom roomId bigBlind).
Proof.
  unfold room_inv, cards_by_phase. cbn. repeat split; try done; try lia.
  all: by left.
Qed.

Lemma endGame_inv (s s' : Table.t) :
  endGame random s = Ok s' ->
  length (Room.communityCards (Table.room s)) = 5%nat ->
  Room.maxPlayers (Table.room s) = 6%Z ->
  (length (Room.players (Table.room s)) <= 6)%nat ->
  room_inv (Table.room s').
Proof.
  unfold endGame. intros H Hcc Hmax Hlen.
  destruct (_ =? _)%nat; destruct (at_index _ _); try discriminate;
    destruct (_ !! _); try discriminate; injection H as <-.
  all: unfold room_inv, cards_by_phase; cbn; rewrite length_insert.
  all: repeat split; try done; by right.
Qed.

Lemma nextPlayer_inv (fuel : nat) :
  (forall s s', nextPlayer random fuel s = Ok s' ->
     room_inv (Table.room s) -> room_inv (Table.room s')) /\
  (forall s s', nextPhase random fuel s = Ok s' ->
     room_inv (Table.room s) -> room_inv (Table.room s')).
Proof.
  induction fuel as [|fuel [IH1 IH2]]; [by split|]. split.
  - intros s s' H Hinv. cbn [nextPlayer] in H.
    destruct (scan (Table.room s)); try discriminate.
    + by injection H as <-.
    + by apply (IH2 _ _ H).
  - intros s s' H (Hcards & Hdeck & Hmax & Hlen). cbn [nextPhase] in H.
    change (Room.phase (reset_bets (Table.room s)))
      with (Room.phase (Table.room s)) in H.
    unfold cards_by_phase in Hcards.
    destruct (Room.phase (Table.room s)) eqn:Hphase; cbn in Hcards, Hdeck.
    5: { eapply endGame_inv; [exact H|cbn..]; try done.
         by rewrite length_map. }
    all: apply IH1 in H; [exact H|].
    all: unfold room_inv, cards_by_phase.
    all: cbn [Table.room Table.set_room Room.set_currentPlayerIndex
              Room.phase Room.communityCards Room.deck Room.maxPlayers
              Room.players].
    all: try match goal with
      | |- context [deal_community ?n ?r] =>
          destruct (deal_community_fields n r) as (-> & _ & -> & _ & _ & ->);
          destruct (deal_community_cards n r) as [-> Hd];
            [cbn; specialize (Hdeck eq_refl); lia|]
      end.
    all: cbn; rewrite ?length_map, ?Hphase; cbn.
    all: repeat split; try done; try lia.
    all: try (intros _; cbn in Hd; specialize (Hdeck eq_refl); lia).
Qed.
End Board.

Section BoardReachable.
Variable random : nat -> Q.

Lemma action_switch_inv (uid : option string) (action : string)
    (amount : option Z) (i : nat) (player : Player.t) (s s' : Table.t) :
  action_switch uid action amount i player s = Ok s' ->
  room_inv (Table.room s) -> room_inv (Table.room s').
Proof.
  intros H Hinv. case_action H; try done.
  all: unfold room_inv, cards_by_phase in *; cbn.
  all: try destruct (Qltb _ _); cbn; by rewrite length_insert.
Qed.

Lemma startNewGame_inv (s : Table.t) :
  room_inv (Table.room s) -> room_inv (Table.room (startNewGame random s)).
Proof.
  intros (Hcards & Hdeck & Hmax & Hlen).
  destruct (Z.ltb_spec (players_count (Table.room s)) 2) as [Hlt|HN].
  { unfold startNewGame. destruct (Z.ltb_spec (players_count (Table.room s)) 2);
      [done|lia]. }
  destruct (startNewGame_players random s HN) as [Hlen' _].
  pose proof (createDeck_length random (Table.rcalls s)) as H52.
  rewrite (startNewGame_room random s HN) in Hlen' |- *.
  cbn [Table.room Room.players] in Hlen'.
  set (posted := forEach_blinds (Table.room s) 0 _ 0 _) in *.
  set (deck := (createDeck random (Table.rcalls s)).1) in *.
  destruct (deal_round_spec posted.1.1 deck) as [H1 Hd1].
  destruct (deal_round_spec (deal_round posted.1.1 deck).1
              (deal_round posted.1.1 deck).2) as [H2 Hd2].
  apply Forall2_length in H1, H2.
  pose proof (forEach_blinds_length (Table.room s) 0
                (Room.players (Table.room s)) 0 (Table.users s)) as Hposted.
  fold posted in Hposted.
  clearbody posted deck.
  unfold room_inv, cards_by_phase. cbn.
  repeat split; try done; try lia.
Qed.

Lemma act_inv (fuel : nat) (uid : option string) (action : string)
    (amount : option Z) (i : nat) (player : Player.t) (s s' : Table.t) :
  act random fuel uid action amount i player s = Ok s' ->
  room_inv (Table.room s) -> room_inv (Table.room s').
Proof.
  unfold act. intros H Hinv.
  destruct (action_switch _ _ _ _ _ _) as [s1| |] eqn:Hswitch; try discriminate.
  apply (proj1 (nextPlayer_inv random fuel) _ _ H).
  by eapply action_switch_inv.
Qed.

Lemma step_inv (w w' : World.t) :
  step random w w' ->
  map_Forall (fun _ r => room_inv r) (World.gameRooms w) ->
  map_Forall (fun _ r => room_inv r) (World.gameRooms w').
Proof.
  intros Hstep Hinv. destruct Hstep as
    [w socket userId password isRegistration
    |w socket roomId bigBlind
    |w socket
    |w roomId
    |fuel w socket action amount w' Haction].
  - unfold authenticate.
    destruct isRegistration; destruct (World.users w !! userId); try done.
    by destruct (negb _).
  - unfold join_room.
    destruct (Socket.userId socket) as [uid|]; [|done].
    destruct (World.users w !! uid) as [user|]; [|done].
    destruct (Qltb _ _); [done|].
    set (room := match World.gameRooms w !! roomId with
                 | Some room => room
                 | None => createGameRoom roomId bigBlind
                 end).
    assert (room_inv room) as Hroom.
    { subst room. destruct (World.gameRooms w !! roomId) eqn:Hr.
      - by apply (map_Forall_lookup_1 _ _ _ _ Hinv Hr).
      - apply createGameRoom_inv. }
    destruct (existsb _ _); [by apply map_Forall_insert_2|].
    destruct (Z.leb_spec (Room.maxPlayers room) (players_count room));
      [by apply map_Forall_insert_2|].
    cbn. apply map_Forall_insert_2; [|by apply map_Forall_insert_2].
    destruct Hroom as (Hcards & Hdeck & Hmax & Hlen).
    unfold room_inv, cards_by_phase, players_count in *. cbn.
    rewrite length_app. cbn. repeat split; try done. lia.
  - unfold leaveCurrentRoom.
    destruct (Socket.currentRoom socket) as [roomId|]; [|done].
    destruct (String.eqb roomId ""); [done|].
    destruct (World.gameRooms w !! roomId) as [room|] eqn:Hr; [|done].
    cbn. destruct (_ =? -1)%Z; [done|].
    destruct (_ =? 0)%nat; [by apply map_Forall_delete|].
    apply map_Forall_insert_2; [|done].
    destruct (map_Forall_lookup_1 _ _ _ _ Hinv Hr) as (Hcards & Hdeck & Hmax & Hlen).
    unfold room_inv, cards_by_phase in *. cbn. repeat split; try done.
    pose proof (length_delete_le (Room.players room)
                  (Z.to_nat (findIndex (has_socket socket) (Room.players room)))).
    lia.
  - unfold startNewGame_timer.
    destruct (World.gameRooms w !! roomId) as [room|] eqn:Hr; [|done].
    cbn. apply map_Forall_insert_2; [|done].
    apply startNewGame_inv. cbn. by apply (map_Forall_lookup_1 _ _ _ _ Hinv Hr).
  - destruct (player_action_passes_guard random fuel w socket action amount)
      as [H|(roomId & room & player & _ & Hr & _ & _ & H)];
      rewrite H in Haction.
    + by injection Haction as <-.
    + destruct (act _ _ _ _ _ _ _ _) as [s| |] eqn:Hact; try discriminate.
      injection Haction as <-. cbn.
      apply map_Forall_insert_2; [|done].
      eapply act_inv; [exact Hact|].
      cbn. by apply (map_Forall_lookup_1 _ _ _ _ Hinv Hr).
Qed.

Lemma reachable_inv (w : World.t) :
  reachable random w ->
  map_Forall (fun _ r => room_inv r) (World.gameRooms w).
Proof.
  induction 1 as [|w w' _ IH Hstep].
  - apply map_Forall_empty.
  - by eapply step_inv.
Qed.

(** C8 (amended): in every room of every reachable server state the number
    of community cards is 0, 3, 4, 5, 5 in phases preflop, flop, turn,
    river, showdown; in phase waiting it is 0 or 5: startNewGame and
    nextPhase set the board that goes with the phase they set, while
    endGame sets the phase to waiting and leaves the board of the hand it
    settles. *)
Theorem communityCards_by_phase (w : World.t) (roomId : string) (room : Room.t) :
  reachable random w ->
  World.gameRooms w !! roomId = Some room ->
  match Room.phase room with
  | waiting =>
      length (Room.communityCards room) = 0%nat \/
      length (Room.communityCards room) = 5%nat
  | preflop => length (Room.communityCards room) = 0%nat
  | flop => length (Room.communityCards room) = 3%nat
  | turn => length (Room.communityCards room) = 4%nat
  | river => length (Room.communityCards room) = 5%nat
  | showdown => length (Room.communityCards room) = 5%nat
  end.
Proof.
  intros Hreach Hroom.
  destruct (map_Forall_lookup_1 _ _ _ _ (reachable_inv w Hreach) Hroom)
    as [Hcards _].
  unfold cards_by_phase in Hcards. by destruct (Room.phase room).
Qed.
End BoardReachable.

(** ** Termination within a hand and the current bet *)

Section Fuel.
Variable random : nat -> Q.

Lemma endGame_not_OutOfFuel (s : Table.t) : endGame random s <> OutOfFuel.
Proof.
  unfold endGame.
  destruct (_ =? _)%nat; destruct (at_index _ _); try discriminate;
    destruct (_ !! _); discriminate.
Qed.

(** In a running hand the recursion nextPlayer -> nextPhase -> nextPlayer
    ends: two calls per street left are enough. *)
Lemma nextPlayer_returns (fuel : nat) :
  (forall s, in_hand (Room.phase (Table.room s)) = true ->
     (2 * streets_left (Room.phase (Table.room s)) <= fuel)%nat ->
     nextPlayer random fuel s <> OutOfFuel) /\
  (forall s, in_hand (Room.phase (Table.room s)) = true ->
     (2 * streets_left (Room.phase (Table.room s)) <= S fuel)%nat ->
     nextPhase random fuel s <> OutOfFuel).
Proof.
  induction fuel as [|fuel [IH1 IH2]].
  - split; intros s Hin Hfuel; destruct (Room.phase (Table.room s));
      try discriminate; cbn in Hfuel; lia.
  - split.
    + intros s Hin Hfuel. cbn [nextPlayer].
      destruct (scan (Table.room s)); try discriminate. by apply IH2.
    + intros s Hin Hfuel. cbn [nextPhase].
      change (Room.phase (reset_bets (Table.room s)))
        with (Room.phase (Table.room s)).
      destruct (Room.phase (Table.room s)) eqn:Hphase; try discriminate.
      4: apply endGame_not_OutOfFuel.
      all: apply IH1; cbn [Table.room Table.set_room Room.phase
                           Room.set_currentPlayerIndex].
      all: rewrite (proj1 (proj2 (proj2 (deal_community_fields _ _)))).
      all: cbn in *; first [done | lia].
Qed.

Lemma act_returns (fuel : nat) (uid : option string) (action : string)
    (amount : option Z) (i : nat) (player : Player.t) (s : Table.t) :
  in_hand (Room.phase (Table.room s)) = true ->
  act random (8 + fuel) uid action amount i player s <> OutOfFuel.
Proof.
  intros Hin. unfold act.
  destruct (action_switch _ _ _ _ _ _) as [s1| |] eqn:Hswitch; try discriminate.
  - apply action_switch_phase in Hswitch.
    apply (proj1 (nextPlayer_returns (8 + fuel))); rewrite Hswitch; [done|].
    destruct (Room.phase (Table.room s)); cbn; lia.
  - exfalso. revert Hswitch. unfold action_switch.
    repeat match goal with
    | |- context [String.eqb ?a ?b] => destruct (String.eqb a b)
    end;
    repeat match goal with
    | |- context [assign_user_chips ?u ?v ?us] => destruct (assign_user_chips u v us)
    | |- context [Qltb ?a ?b] => destruct (Qltb a b)
    end; discriminate.
Qed.
End Fuel.

Lemma currentBet_covers_insert (r : Room.t) (i : nat) (p : Player.t)
    (cb pot : Q) :
  currentBet_covers r ->
  Room.currentBet r <= cb ->
  Player.bet p <= cb ->
  currentBet_covers
    (Room.set_players (<[i := p]> (Room.players r))
       (Room.set_currentBet cb (Room.set_pot pot r))).
Proof.
  unfold currentBet_covers. cbn. intros Hall Hcb Hp.
  apply Forall_insert; [|done].
  eapply Forall_impl; [exact Hall|]. cbn. intros q Hq. lra.
Qed.

(** Every action but raise keeps currentBet at or above every player's bet:
    call and check never bet past currentBet, and all-in lifts currentBet
    when the bet passes it. *)
Lemma action_switch_covers (uid : option string) (action : string)
    (amount : option Z) (i : nat) (player : Player.t) (s s' : Table.t) :
  Room.players (Table.room s) !! i = Some player ->
  action <> "raise" ->
  action_switch uid action amount i player s = Ok s' ->
  currentBet_covers (Table.room s) ->
  currentBet_covers (Table.room s').
Proof.
  intros Hi Hne H Hall.
  assert (Player.bet player <= Room.currentBet (Table.room s)) as Hbet.
  { unfold currentBet_covers in Hall. rewrite Forall_lookup in Hall.
    apply (Hall _ _ Hi). }
  revert H. unfold action_switch.
  destruct (String.eqb_spec action "raise") as [->|_]; [done|].
  repeat match goal with
  | |- context [String.eqb ?a ?b] => destruct (String.eqb a b)
  end;
  repeat match goal with
  | |- context [assign_user_chips ?u ?v ?us] => destruct (assign_user_chips u v us)
  | |- context [Qltb ?a ?b] => destruct (Qltb a b) eqn:?
  end; try discriminate; intros [= <-]; try done.
  all: cbn [Table.room].
  all: try match goal with
    | |- context [Math_min ?a ?b] => destruct (Math_min_spec a b) as [[? ->]|[? ->]]
    end.
  all: try match goal with
    | H : Qltb _ _ = true |- _ => apply Qltb_lt in H
    | H : Qltb _ _ = false |- _ => apply Qltb_ge in H
    end.
  all: try (apply (currentBet_covers_insert (Table.room s) i _
                     (Room.currentBet (Table.room s))); [done|lra|cbn in *; lra]).
  apply (currentBet_covers_insert (Table.room s) i _
             (Player.bet player + Player.chips player)); [done|cbn in *; lra|cbn; lra].
Qed.

(** A raise keeps it too when the amount is not negative and the player has
    the chips for it. *)
Lemma raise_uncapped_covers (uid : option string) (amount : option Z)
    (i : nat) (player : Player.t) (s s' : Table.t) :
  Room.players (Table.room s) !! i = Some player ->
  0 <= raise_amount amount (Table.room s) ->
  Room.currentBet (Table.room s) + raise_amount amount (Table.room s)
    - Player.bet player <= Player.chips player ->
  action_switch uid "raise" amount i player s = Ok s' ->
  currentBet_covers (Table.room s) ->
  currentBet_covers (Table.room s').
Proof.
  intros Hi Hpos Hcap H Hall. cbn in H.
  destruct (assign_user_chips _ _ _); try discriminate. injection H as <-.
  cbn [Table.room].
  destruct (Math_min_spec
              (Room.currentBet (Table.room s) + raise_amount amount (Table.room s)
               - Player.bet player) (Player.chips player)) as [[_ Hmin]|[Hlt _]];
    [|lra].
  apply (currentBet_covers_insert (Table.room s) i _ _ _ Hall); cbn; rewrite Hmin; lra.
Qed.

(** ** A hand with one player left *)

Lemma find_none_all {A : Type} (f : A -> bool) (l : list A) :
  (forall x, In x l -> f x = false) -> List.find f l = None.
Proof.
  induction l as [|x l IH]; intros H; [done|]. cbn.
  rewrite (H x) by (by left). apply IH. intros y Hy. apply H. by right.
Qed.

Lemma map_lookup {A B : Type} (f : A -> B) (l : list A) (i : nat) :
  List.map f l !! i = f <$> l !! i.
Proof. revert i. induction l as [|x l IH]; intros [|i]; cbn; try done. Qed.

Lemma nobody_eligible_reset (ps : list Player.t) :
  nobody_eligible ps -> nobody_eligible (List.map (Player.set_bet 0) ps).
Proof.
  unfold nobody_eligible. induction 1 as [|p ps Hp _ IH]; cbn; by constructor.
Qed.

Lemma unfolded_reset (ps : list Player.t) :
  List.filter (fun p => negb (Player.folded p)) (List.map (Player.set_bet 0) ps)
  = List.map (Player.set_bet 0) (List.filter (fun p => negb (Player.folded p)) ps).
Proof.
  induction ps as [|p ps IH]; cbn; [done|].
  destruct (Player.folded p); cbn; by rewrite IH.
Qed.

Lemma sole_survivor_reset (ps : list Player.t) (seat : nat) (survivor : Player.t) :
  sole_survivor ps seat survivor ->
  sole_survivor (List.map (Player.set_bet 0) ps) seat (Player.set_bet 0 survivor).
Proof.
  intros (Hseat & Hf & Hone). split; [|split; [done|]].
  - by rewrite map_lookup, Hseat.
  - by rewrite unfolded_reset, length_map.
Qed.

Lemma sole_survivor_activeSeats (ps : list Player.t) (seat : nat)
    (survivor : Player.t) :
  sole_survivor ps seat survivor -> activeSeats 0 ps = [seat].
Proof.
  intros (Hseat & Hf & Hone).
  rewrite <- (activeSeats_length 0) in Hone.
  assert (seat ∈ activeSeats 0 ps) as Hin.
  { apply activeSeats_elem. exists survivor. rewrite Nat.sub_0_r. split; [lia|done]. }
  destruct (activeSeats 0 ps) as [|x [|y l]]; try discriminate.
  apply list_elem_of_singleton in Hin. by subst.
Qed.

Lemma scan_nobody_eligible (r : Room.t) :
  (0 < length (Room.players r))%nat ->
  (-1 <= Room.currentPlayerIndex r)%Z ->
  nobody_eligible (Room.players r) ->
  scan r = NoneEligible.
Proof.
  intros HN Hcpi Hnone. rewrite scan_first_eligible by done.
  unfold first_eligible. rewrite find_none_all; [done|].
  intros i _. unfold eligible_at.
  destruct (at_index (Room.players r) i) as [p|] eqn:Hp; [|done].
  apply at_index_Some in Hp as [_ Hp].
  unfold nobody_eligible in Hnone. rewrite Forall_lookup in Hnone.
  apply (Hnone _ _ Hp).
Qed.

(** endGame with one player who has not folded: no call of Math.random(). *)
Lemma endGame_sole_survivor (random : nat -> Q) (s : Table.t) (seat : nat)
    (survivor : Player.t) :
  sole_survivor (Room.players (Table.room s)) seat survivor ->
  endGame random s =
    Ok (Table.mk
          (Room.set_dealerIndex
             (Z.rem (Room.dealerIndex (Table.room s) + 1)
                (players_count (Table.room s)))
             (Room.set_phase waiting
                (Room.set_players
                   (<[seat := Player.set_chips
                                (Player.chips survivor + Room.pot (Table.room s))
                                survivor]> (Room.players (Table.room s)))
                   (Table.room s))))
          (sync_user (Player.userId survivor)
             (Player.chips survivor + Room.pot (Table.room s)) (Table.users s))
          (Table.rcalls s)).
Proof.
  intros Hsole. unfold endGame.
  rewrite (sole_survivor_activeSeats _ _ _ Hsole).
  destruct Hsole as (Hseat & _ & _).
  change (length [seat] =? 1)%nat with true. cbv iota.
  change (at_index [seat] 0) with (Some seat). cbv iota. rewrite Hseat.
  unfold players_count. cbn. by rewrite length_insert.
Qed.

(** With every player folded, endGame reads [chips] of an undefined winner. *)
Lemma endGame_all_folded_throws (random : nat -> Q) (s : Table.t) :
  Forall (fun p => Player.folded p = true) (Room.players (Table.room s)) ->
  endGame random s = TypeError.
Proof.
  intros Hall. unfold endGame.
  assert (activeSeats 0 (Room.players (Table.room s)) = []) as ->.
  { generalize 0%nat. induction Hall as [|p ps Hp _ IH]; intros i0; cbn; [done|].
    by rewrite Hp, IH. }
  cbn [length Nat.eqb]. unfold random_index, at_index.
  by destruct (Qfloor _ <? 0)%Z.
Qed.

(** With one player left who has not folded and nobody able to act, the
    turn and phase engines run through the streets that remain and endGame
    pays that player, whatever Math.random() would answer. *)
Lemma sole_survivor_chain (fuel : nat) :
  (forall s seat survivor,
     in_hand (Room.phase (Table.room s)) = true ->
     (2 * streets_left (Room.phase (Table.room s)) <= fuel)%nat ->
     (-1 <= Room.currentPlayerIndex (Table.room s))%Z ->
     (0 <= Room.dealerIndex (Table.room s))%Z ->
     sole_survivor (Room.players (Table.room s)) seat survivor ->
     nobody_eligible (Room.players (Table.room s)) ->
     exists s',
       (forall random, nextPlayer random fuel s = Ok s') /\
       Room.phase (Table.room s') = waiting /\
       Room.players (Table.room s') !! seat =
         Some (Player.set_chips (Player.chips survivor + Room.pot (Table.room s))
                 (Player.set_bet 0 survivor)) /\
       Table.rcalls s' = Table.rcalls s /\
       Table.users s' =
         sync_user (Player.userId survivor)
           (Player.chips survivor + Room.pot (Table.room s)) (Table.users s)) /\
  (forall s seat survivor,
     in_hand (Room.phase (Table.room s)) = true ->
     (2 * streets_left (Room.phase (Table.room s)) <= S fuel)%nat ->
     (0 <= Room.dealerIndex (Table.room s))%Z ->
     sole_survivor (Room.players (Table.room s)) seat survivor ->
     nobody_eligible (Room.players (Table.room s)) ->
     exists s',
       (forall random, nextPhase random fuel s = Ok s') /\
       Room.phase (Table.room s') = waiting /\
       Room.players (Table.room s') !! seat =
         Some (Player.set_chips (Player.chips survivor + Room.pot (Table.room s))
                 (Player.set_bet 0 survivor)) /\
       Table.rcalls s' = Table.rcalls s /\
       Table.users s' =
         sync_user (Player.userId survivor)
           (Player.chips survivor + Room.pot (Table.room s)) (Table.users s)).
Proof.
  induction fuel as [|fuel [IH1 IH2]].
  - split; intros s seat survivor Hin Hfuel; exfalso;
      destruct (Room.phase (Table.room s)); try discriminate; cbn in Hfuel; lia.
  - split.
    + intros s seat survivor Hin Hfuel Hcpi Hd Hsole Hnone.
      destruct (IH2 s seat survivor Hin Hfuel Hd Hsole Hnone)
        as (s' & Hrun & Hrest).
      exists s'. split; [|done]. intros random. cbn [nextPlayer].
      rewrite scan_nobody_eligible; try done.
      destruct Hsole as (Hseat & _). apply lookup_lt_Some in Hseat. lia.
    + intros s seat survivor Hin Hfuel Hd Hsole Hnone.
      pose proof (sole_survivor_reset _ _ _ Hsole) as Hsole'.
      pose proof (nobody_eligible_reset _ Hnone) as Hnone'.
      assert (forall n ph,
        in_hand ph = true ->
        (2 * streets_left ph <= fuel)%nat ->
        exists s',
          (forall random,
             nextPlayer random fuel
               (Table.set_room
                  (Room.set_currentPlayerIndex
                     (Room.dealerIndex
                        (deal_community n (Room.set_phase ph (reset_bets (Table.room s)))))
                     (deal_community n (Room.set_phase ph (reset_bets (Table.room s)))))
                  s) = Ok s') /\
          Room.phase (Table.room s') = waiting /\
          Room.players (Table.room s') !! seat =
            Some (Player.set_chips (Player.chips survivor + Room.pot (Table.room s))
                    (Player.set_bet 0 survivor)) /\
          Table.rcalls s' = Table.rcalls s /\
          Table.users s' =
            sync_user (Player.userId survivor)
              (Player.chips survivor + Room.pot (Table.room s)) (Table.users s))
        as Hstreet.
      { intros n ph Hph Hfuel'.
        destruct (deal_community_fields n
                    (Room.set_phase ph (reset_bets (Table.room s))))
          as (Hps & Hpot & Hphase & _ & Hdealer & _).
        destruct (IH1
          (Table.set_room
             (Room.set_currentPlayerIndex
                (Room.dealerIndex
                   (deal_community n (Room.set_phase ph (reset_bets (Table.room s)))))
                (deal_community n (Room.set_phase ph (reset_bets (Table.room s)))))
             s) seat (Player.set_bet 0 survivor))
          as (s' & Hrun & Hw & Hseat & Hr & Hu).
        1-6: cbn [Table.room Table.set_room Room.set_currentPlayerIndex Room.phase
                  Room.currentPlayerIndex Room.dealerIndex Room.players].
        1-6: rewrite ?Hps, ?Hphase, ?Hdealer; cbn; try done; try lia.
        exists s'. split; [exact Hrun|]. split; [exact Hw|].
        cbn in Hseat, Hu, Hr. rewrite Hpot in Hseat, Hu. cbn in Hseat, Hu.
        by repeat split. }
      cbn [nextPhase].
      change (Room.phase (reset_bets (Table.room s)))
        with (Room.phase (Table.room s)).
      destruct (Room.phase (Table.room s)) eqn:Hphase; try discriminate.
      * apply (Hstreet 3%nat flop); [done|cbn in *; lia].
      * apply (Hstreet 1%nat turn); [done|cbn in *; lia].
      * apply (Hstreet 1%nat river); [done|cbn in *; lia].
      * eexists. split.
        { intros random. apply (endGame_sole_survivor random _ seat
                                  (Player.set_bet 0 survivor)). exact Hsole'. }
        cbn. repeat split; try done.
        apply list_lookup_insert_eq. rewrite length_map.
        destruct Hsole as (Hseat & _). by apply lookup_lt_Some in Hseat.
Qed.

(** C3, as the design document states it, fails: heads-up, B folds and A is
    the only player who has not folded, yet the hand is not settled: the
    room is still in phase preflop with A in turn, the pot of 150 in the
    room and A's chips as they were. *)
Lemma fold_to_one_player_continues_hand :
  ~ (forall (fuel : nat) (uid : option string) (action : string)
            (amount : option Z) (i : nat) (player : Player.t)
            (s s1 s' : Table.t) (seat : nat) (survivor : Player.t),
       in_hand (Room.phase (Table.room s)) = true ->
       Room.players (Table.room s) !! i = Some player ->
       Room.currentPlayerIndex (Table.room s) = Z.of_nat i ->
       action_switch uid action amount i player s = Ok s1 ->
       sole_survivor (Room.players (Table.room s1)) seat survivor ->
       act Example.random0 fuel uid action amount i player s = Ok s' ->
       Room.phase (Table.room s') = waiting).
Proof.
  intros H.
  assert (exists s1 s' survivor,
    action_switch None "fold" None 1 Example.heads_up_B Example.heads_up = Ok s1 /\
    sole_survivor (Room.players (Table.room s1)) 0 survivor /\
    act Example.random0 8 None "fold" None 1 Example.heads_up_B Example.heads_up
      = Ok s' /\
    Room.phase (Table.room s') = preflop /\
    Room.currentPlayerIndex (Table.room s') = 0%Z /\
    Example.seats (Some (Table.room s')) =
      [("A", 900, 100, false, false); ("B", 950, 50, true, false)] /\
    Qred (Room.pot (Table.room s')) = 150)
    as (s1 & s' & survivor & Hswitch & Hsole & Hact & Hphase & _).
  { eexists _, _, _. split; [vm_compute; reflexivity|].
    split; [repeat split; vm_compute; reflexivity|].
    split; [vm_compute; reflexivity|]. repeat split; vm_compute; reflexivity. }
  specialize (H 8%nat None "fold" None 1%nat Example.heads_up_B Example.heads_up
                s1 s' 0%nat survivor).
  assert (Room.phase (Table.room s') = waiting) as Hwaiting.
  { apply H;
      [vm_compute; reflexivity | vm_compute; reflexivity | vm_compute; reflexivity
      |exact Hswitch | exact Hsole | exact Hact]. }
  rewrite Hphase in Hwaiting. discriminate Hwaiting.
Qed.

(** C3 (amended): when an applied action of a running hand leaves exactly
    one player who has not folded and no player who can act, the hand is
    settled at that point: the handler returns with the room in phase
    waiting and the whole pot added to that player's chips (and written to
    the player's user record), without a call of Math.random() and with the
    same outcome whatever Math.random() would answer. *)
Theorem sole_survivor_settled_when_nobody_can_act
    (random : nat -> Q) (fuel : nat) (uid : option string) (action : string)
    (amount : option Z) (i : nat) (player : Player.t) (s s1 : Table.t)
    (seat : nat) (survivor : Player.t) :
  in_hand (Room.phase (Table.room s)) = true ->
  action_switch uid action amount i player s = Ok s1 ->
  (-1 <= Room.currentPlayerIndex (Table.room s1))%Z ->
  (0 <= Room.dealerIndex (Table.room s1))%Z ->
  sole_survivor (Room.players (Table.room s1)) seat survivor ->
  nobody_eligible (Room.players (Table.room s1)) ->
  exists s',
    act random (8 + fuel) uid action amount i player s = Ok s' /\
    Room.phase (Table.room s') = waiting /\
    Room.players (Table.room s') !! seat =
      Some (Player.set_chips (Player.chips survivor + Room.pot (Table.room s1))
              (Player.set_bet 0 survivor)) /\
    Table.users s' =
      sync_user (Player.userId survivor)
        (Player.chips survivor + Room.pot (Table.room s1)) (Table.users s1) /\
    Table.rcalls s' = Table.rcalls s1 /\
    forall random' : nat -> Q,
      act random' (8 + fuel) uid action amount i player s = Ok s'.
Proof.
  intros Hin Hswitch Hcpi Hd Hsole Hnone.
  pose proof (action_switch_phase _ _ _ _ _ _ _ Hswitch) as Hphase.
  destruct (proj1 (sole_survivor_chain (8 + fuel)) s1 seat survivor)
    as (s' & Hrun & Hw & Hseat & Hr & Hu); try done.
  { by rewrite Hphase. }
  { rewrite Hphase. destruct (Room.phase (Table.room s)); cbn; lia. }
  exists s'. unfold act. rewrite Hswitch. by repeat split.
Qed.

Lemma fold_against_all_in_settles :
  exists s',
    act Example.random0 8 None "fold" None 1 Example.B_facing_all_in_B
      Example.B_facing_all_in = Ok s' /\
    Room.phase (Table.room s') = waiting.
Proof.
  assert (exists s1 survivor,
    action_switch None "fold" None 1 Example.B_facing_all_in_B
      Example.B_facing_all_in = Ok s1 /\
    (-1 <= Room.currentPlayerIndex (Table.room s1))%Z /\
    (0 <= Room.dealerIndex (Table.room s1))%Z /\
    sole_survivor (Room.players (Table.room s1)) 0 survivor /\
    nobody_eligible (Room.players (Table.room s1)))
    as (s1 & survivor & Hswitch & Hcpi & Hd & Hsole & Hnone).
  { eexists _, _. split; [vm_compute; reflexivity|].
    split; [vm_compute; discriminate|]. split; [vm_compute; discriminate|].
    split; [repeat split; vm_compute; reflexivity|].
    repeat constructor. }
  destruct (sole_survivor_settled_when_nobody_can_act Example.random0 0 None
              "fold" None 1 Example.B_facing_all_in_B Example.B_facing_all_in
              s1 0 survivor)
    as (s' & Hact & Hphase & _);
    [vm_compute; reflexivity | exact Hswitch | exact Hcpi | exact Hd
    |exact Hsole | exact Hnone |].
  exists s'. split; [exact Hact|exact Hphase].
Defined.

(** ** The example runs *)

Module ExampleFacts.
Import Example.

Lemma and_then_Ok (r : result World.t) (f : World.t -> result World.t)
    (w : World.t) :
  and_then r f = Ok w -> exists w0, r = Ok w0 /\ f w0 = Ok w.
Proof. destruct r as [w0| |]; try discriminate. intros H. by exists w0. Qed.

Lemma reachable_registered : reachable random0 registered.
Proof.
  apply (reachable_step _ alice_registers.1.1).
  - apply (reachable_step _ initial); [constructor|apply step_authenticate].
  - apply step_authenticate.
Qed.

Lemma reachable_first_hand (bb : Q) : reachable random0 (first_hand bb).
Proof.
  apply (reachable_step _ (seated bb)); [|apply step_timer].
  apply (reachable_step _ (alice_joins bb).1.1); [|apply step_join].
  apply (reachable_step _ registered); [|apply step_join].
  apply reachable_registered.
Qed.

Lemma reachable_action (r : result World.t) (socket : Socket.t)
    (action : string) (amount : option Z) (w : World.t) :
  (forall w0, r = Ok w0 -> reachable random0 w0) ->
  and_then r (fun w0 => player_action random0 8 w0 socket action amount) = Ok w ->
  reachable random0 w.
Proof.
  intros Hr (w0 & H0 & H)%and_then_Ok.
  apply (reachable_step _ w0); [by apply Hr|]. by eapply step_action.
Qed.

Lemma reachable_bob_folds (w : World.t) :
  bob_folds = Ok w -> reachable random0 w.
Proof.
  intros H. apply (reachable_step _ (first_hand 100)).
  - apply reachable_first_hand.
  - by eapply step_action.
Qed.

Lemma reachable_alice_all_in (w : World.t) :
  alice_all_in = Ok w -> reachable random0 w.
Proof. apply reachable_action, reachable_bob_folds. Qed.

Lemma reachable_second_hand (w : World.t) :
  second_hand = Ok w -> reachable random0 w.
Proof.
  intros (w0 & H0 & [= <-])%and_then_Ok.
  apply (reachable_step _ w0); [by apply reachable_alice_all_in|].
  apply step_timer.
Qed.

Lemma reachable_alice_raises (w : World.t) :
  alice_raises = Ok w -> reachable random0 w.
Proof. apply reachable_action, reachable_second_hand. Qed.

Lemma reachable_bob_raises_capped (w : World.t) :
  bob_raises_capped = Ok w -> reachable random0 w.
Proof. apply reachable_action, reachable_alice_raises. Qed.

Lemma reachable_bob_leaves : reachable random0 bob_leaves.1.
Proof.
  apply (reachable_step _ (first_hand 1000)); [apply reachable_first_hand|].
  apply step_leave.
Qed.
End ExampleFacts.

(** The same at a run of the server: heads-up, bob folds and alice is the
    only player who has not folded.  The hand is not settled: the room stays
    in phase preflop with the pot of 150, alice keeps her 9900 chips and is
    the player in turn; when she then checks, the room is as before and she
    is in turn again. *)
Lemma bob_folds_and_the_hand_goes_on :
  exists w room,
    Example.bob_folds = Ok w /\
    reachable Example.random0 w /\
    World.gameRooms w !! "r" = Some room /\
    Example.seats (Some room) =
      [("alice", 9900, 100, false, false); ("bob", 9950, 50, true, false)] /\
    Room.phase room = preflop /\
    Room.currentPlayerIndex room = 0%Z /\
    Qred (Room.pot room) = 150 /\
    player_action Example.random0 8 w (Example.alice 100) "check" None = Ok w.
Proof.
  eexists _, _. split; [vm_compute; reflexivity|].
  split; [apply ExampleFacts.reachable_bob_folds; vm_compute; reflexivity|].
  split; [vm_compute; reflexivity|].
  repeat split; vm_compute; reflexivity.
Qed.

(** C4 at a run of the server: in the second hand alice has bet 10000 and
    has 50 chips left; bob, with 9850 chips and a bet of 100, raises by 100.
    The raise is capped by his chips, his bet becomes 9950, and currentBet is
    set to it: below the bet of alice, who is in turn. *)
Theorem capped_raise_lowers_currentBet :
  exists w room,
    Example.bob_raises_capped = Ok w /\
    reachable Example.random0 w /\
    World.gameRooms w !! "r" = Some room /\
    Example.seats (Some room) =
      [("alice", 50, 10000, false, false); ("bob", 0, 9950, false, false)] /\
    Room.phase room = preflop /\
    Room.currentPlayerIndex room = 0%Z /\
    Qred (Room.currentBet room) = 9950 /\
    ~ currentBet_covers room.
Proof.
  eexists _, _. split; [vm_compute; reflexivity|].
  split; [apply ExampleFacts.reachable_bob_raises_capped; vm_compute; reflexivity|].
  split; [vm_compute; reflexivity|].
  repeat split; try (vm_compute; reflexivity).
  unfold currentBet_covers. intros H.
  apply Forall_cons_1 in H as [H _]. vm_compute in H. by apply H.
Qed.

(** C8, as the design document states it, fails: after alice's all-in the
    hand is settled, the room is in phase waiting and the five community
    cards of the hand are still on the board. *)
Lemma communityCards_left_after_settlement :
  ~ (forall (w : World.t) (roomId : string) (room : Room.t),
       reachable Example.random0 w ->
       World.gameRooms w !! roomId = Some room ->
       length (Room.communityCards room) = cards_of_phase (Room.phase room)).
Proof.
  intros H.
  assert (exists w room,
    Example.alice_all_in = Ok w /\ World.gameRooms w !! "r" = Some room /\
    Room.phase room = waiting /\ length (Room.communityCards room) = 5%nat)
    as (w & room & Hw & Hroom & Hphase & Hcards).
  { eexists _, _. split; [vm_compute; reflexivity|].
    split; [vm_compute; reflexivity|]. split; vm_compute; reflexivity. }
  specialize (H w "r" room (ExampleFacts.reachable_alice_all_in w Hw) Hroom).
  rewrite Hphase, Hcards in H. discriminate H.
Qed.

(** ** The buy-in check of join-room *)

(** C10: the join-room handler compares the user's chips with ten times the
    bigBlind of the request and never reads the bigBlind of the room: a
    request is rejected as soon as the chips are below 10 x the requested
    bigBlind, and with chips of at least that much a user not yet in the room
    is seated in any existing room that has a free seat.  So bob, who has
    9500 chips, is seated in a room of big blind 1000 by asking with
    bigBlind 1; and with 10000 chips he is rejected from such a room when he
    asks with bigBlind 5000. *)
Theorem join_room_checks_requested_bigBlind :
  (forall (w : World.t) (socket : Socket.t) (roomId : string) (bigBlind : Q)
          (uid : string) (user : User.t),
     Socket.userId socket = Some uid ->
     World.users w !! uid = Some user ->
     (User.chips user < bigBlind * 10 ->
      join_room w socket roomId bigBlind = (w, socket, insufficient_chips)) /\
     (bigBlind * 10 <= User.chips user ->
      forall room : Room.t,
        World.gameRooms w !! roomId = Some room ->
        Forall (fun p => Player.userId p <> uid) (Room.players room) ->
        (players_count room < Room.maxPlayers room)%Z ->
        exists start_scheduled,
          join_room w socket roomId bigBlind =
            (World.mk (World.users w)
               (<[roomId :=
                    Room.set_players
                      (Room.players room ++
                       [Player.mk uid (Socket.id socket) (User.chips user)
                          [] 0 false false]) room]> (World.gameRooms w))
               (World.rcalls w),
             Socket.set_currentRoom (Some roomId) socket,
             joined_room start_scheduled))) /\
  (exists (w : World.t) (socket : Socket.t) (user : User.t) (room : Room.t),
     reachable Example.random0 w /\
     Socket.userId socket = Some "bob" /\
     World.users w !! "bob" = Some user /\
     World.gameRooms w !! "r" = Some room /\
     User.chips user < Room.bigBlind room * 10 /\
     exists w' socket' start_scheduled room',
       join_room w socket "r" 1 = (w', socket', joined_room start_scheduled) /\
       World.gameRooms w' !! "r" = Some room' /\
       Exists (fun p => Player.userId p = "bob") (Room.players room')) /\
  (exists (w : World.t) (socket : Socket.t) (user : User.t) (room : Room.t),
     reachable Example.random0 w /\
     Socket.userId socket = Some "bob" /\
     World.users w !! "bob" = Some user /\
     World.gameRooms w !! "r" = Some room /\
     Room.bigBlind room * 10 <= User.chips user /\
     join_room w socket "r" 5000 = (w, socket, insufficient_chips)).
Proof.
  split; [|split].
  - intros w socket roomId bigBlind uid user Huid Huser. split.
    + intros Hlt. unfold join_room. rewrite Huid, Huser.
      by rewrite (proj2 (Qltb_lt _ _) Hlt).
    + intros Hge room Hroom Hnew Hfree. unfold join_room.
      rewrite Huid, Huser, (proj2 (Qltb_ge _ _) Hge), Hroom.
      assert (existsb (fun p => String.eqb (Player.userId p) uid)
                (Room.players room) = false) as ->.
      { apply not_true_is_false. intros (p & Hp & Heq)%existsb_exists.
        apply String.eqb_eq in Heq. apply list_elem_of_In in Hp.
        rewrite Forall_forall in Hnew. by apply (Hnew p). }
      destruct (Z.leb_spec (Room.maxPlayers room) (players_count room)); [lia|].
      eexists. cbn. by rewrite insert_insert_eq.
  - exists Example.bob_leaves.1, Example.bob_leaves.2.
    eexists _, _. split; [apply ExampleFacts.reachable_bob_leaves|].
    split; [reflexivity|]. split; [vm_compute; reflexivity|].
    split; [vm_compute; reflexivity|]. split; [vm_compute; reflexivity|].
    eexists _, _, _, _. split; [vm_compute; reflexivity|].
    split; [vm_compute; reflexivity|].
    apply Exists_cons_tl, Exists_cons_hd. reflexivity.
  - exists (Example.alice_joins 1000).1.1, Example.bob_registers.1.2.
    eexists _, _. split.
    { apply (reachable_step _ Example.registered);
        [apply ExampleFacts.reachable_registered|apply step_join]. }
    split; [reflexivity|]. split; [vm_compute; reflexivity|].
    split; [vm_compute; reflexivity|]. split; [vm_compute; discriminate|].
    vm_compute. reflexivity.
Qed.

(** ** Instances *)

Lemma createGameRoom_smallBlind_5 :
  inject_Z 5 == inject_Z (2 * 2 + 1) /\
  Room.smallBlind (createGameRoom "r" (inject_Z 5)) == inject_Z 2 + (1 # 2).
Proof.
  split; [reflexivity|].
  apply (proj2 (proj2 (proj2 (createGameRoom_smallBlind "r" (inject_Z 5))))).
  reflexivity.
Defined.

Lemma startNewGame_three_players :
  (2 <= players_count (Table.room Example.three_players))%Z /\
  (0 <= Room.dealerIndex (Table.room Example.three_players))%Z /\
  Room.pot (Table.room (startNewGame Example.random0 Example.three_players)) == 150 /\
  Room.currentPlayerIndex
    (Table.room (startNewGame Example.random0 Example.three_players)) = 0%Z.
Proof.
  assert (2 <= players_count (Table.room Example.three_players))%Z as H2
    by (vm_compute; discriminate).
  assert (0 <= Room.dealerIndex (Table.room Example.three_players))%Z as H0
    by (vm_compute; discriminate).
  split; [exact H2|]. split; [exact H0|].
  destruct (startNewGame_posts_blinds Example.random0 Example.three_players H2 H0)
    as (_ & _ & _ & _ & _ & _ & Hscenario).
  destruct (Hscenario (Example.seat_of "A" 1000) (Example.seat_of "B" 1000)
              (Example.seat_of "C" 1000))
    as (A' & B' & C' & _ & _ & _ & _ & _ & _ & _ & Hpot & _ & Hcpi);
    try reflexivity.
  by split.
Defined.

Lemma nextPlayer_skips_folded_and_all_in :
  (0 < length (Room.players (Table.room Example.A_folded_B_all_in)))%nat /\
  (-1 <= Room.currentPlayerIndex (Table.room Example.A_folded_B_all_in))%Z /\
  nextPlayer Example.random0 1 Example.A_folded_B_all_in =
    Ok (Table.set_room
          (Room.set_currentPlayerIndex 2 (Table.room Example.A_folded_B_all_in))
          Example.A_folded_B_all_in).
Proof.
  assert (0 < length (Room.players (Table.room Example.A_folded_B_all_in)))%nat
    as H1 by (vm_compute; lia).
  assert (-1 <= Room.currentPlayerIndex (Table.room Example.A_folded_B_all_in))%Z
    as H2 by (vm_compute; discriminate).
  split; [exact H1|]. split; [exact H2|].
  destruct (nextPlayer_first_eligible Example.random0 0 Example.A_folded_B_all_in
              H1 H2) as (_ & _ & Hscenario).
  by eapply Hscenario.
Defined.

Lemma alice_acts_out_of_turn :
  player_action Example.random0 8 (Example.first_hand 100) (Example.alice 100)
    "fold" None = Ok (Example.first_hand 100).
Proof.
  apply player_action_out_of_turn. right. right.
  eexists "r", _. split; [reflexivity|]. split; [vm_compute; reflexivity|].
  intros p Hp. vm_compute in Hp. injection Hp as <-. discriminate.
Defined.

Lemma endGame_B_remains :
  exists seat winner s',
    endGame Example.random0 Example.B_remains = Ok s' /\
    Room.players (Table.room Example.B_remains) !! seat = Some winner /\
    Player.userId winner = "B" /\
    Room.phase (Table.room s') = waiting.
Proof.
  destruct (endGame_awards_pot Example.random0 Example.B_remains)
    as (seat & winner & s' & Hend & Hseat & Hf & _ & _ & Hphase & _ & Hone).
  - apply Exists_cons_tl, Exists_cons_hd. reflexivity.
  - split; [vm_compute; discriminate|vm_compute; reflexivity].
  - vm_compute; discriminate.
  - exists seat, winner, s'. split; [exact Hend|]. split; [exact Hseat|].
    split; [|exact Hphase].
    destruct (Hone eq_refl) as [Hunique _].
    rewrite <- (Hunique 1%nat (Example.seat_of "B" 900) eq_refl eq_refl) in Hseat.
    by injection Hseat as <-.
Defined.

Lemma first_hand_board :
  exists room,
    World.gameRooms (Example.first_hand 100) !! "r" = Some room /\
    Room.phase room = preflop /\
    length (Room.communityCards room) = 0%nat.
Proof.
  eexists. split; [vm_compute; reflexivity|]. split; [reflexivity|].
  exact (communityCards_by_phase Example.random0 (Example.first_hand 100) "r" _
           (ExampleFacts.reachable_first_hand 100) eq_refl).
Defined.

Lemma bob_rejected_for_requested_bigBlind :
  join_room (Example.alice_joins 1000).1.1 Example.bob_registers.1.2 "r" 5000
  = ((Example.alice_joins 1000).1.1, Example.bob_registers.1.2, insufficient_chips).
Proof.
  eapply (proj1 join_room_checks_requested_bigBlind
            (Example.alice_joins 1000).1.1 Example.bob_registers.1.2 "r" 5000 "bob").
  - reflexivity.
  - vm_compute. reflexivity.
  - vm_compute. reflexivity.
Defined.

(** * Further properties of the code *)

(** ** createDeck and shuffleDeck *)

Lemma ordered_deck_NoDup : NoDup (face <$> ordered_deck).
Proof. apply (bool_decide_unpack _). vm_compute. exact I. Qed.

Lemma swap_Permutation {A : Type} (l : list A) (i : nat) (j : Z) :
  swap l i j ≡ₚ l.
Proof.
  unfold swap. destruct (l !! i) as [a|] eqn:Hi; [|done].
  destruct (at_index l j) as [b|] eqn:Hj; [|done].
  apply at_index_Some in Hj as [_ Hj].
  by apply Permutation_insert_swap.
Qed.

Section Shuffle.
Variable random : nat -> Q.
Hypothesis random_range : forall n, 0 <= random n < 1.

(** Iteration i of the shuffle exchanges position i with a position j <= i
    of the array: both reads of the destructuring swap are defined. *)
Lemma shuffle_swap_in_range (shuffled : list Card.t) (i k : nat) :
  (i < length shuffled)%nat ->
  exists a b,
    shuffled !! i = Some a /\
    shuffled !! Z.to_nat (random_index random k (i + 1)) = Some b /\
    (Z.to_nat (random_index random k (i + 1)) <= i)%nat /\
    swap shuffled i (random_index random k (i + 1)) =
      <[Z.to_nat (random_index random k (i + 1)) := a]> (<[i := b]> shuffled).
Proof.
  intros Hi.
  pose proof (shuffle_index_range random i k (random_range k)) as Hj.
  destruct (lookup_lt_is_Some_2 shuffled i Hi) as [a Ha].
  destruct (lookup_lt_is_Some_2 shuffled
              (Z.to_nat (random_index random k (i + 1)))) as [b Hb]; [lia|].
  exists a, b. repeat split; try done; [lia|].
  unfold swap, at_index. rewrite Ha.
  destruct (Z.ltb_spec (random_index random k (i + 1)) 0); [lia|].
  by rewrite Hb.
Qed.

Lemma shuffle_loop_spec (i : nat) (shuffled : list Card.t) (k : nat) :
  (shuffle_loop random i shuffled k).1 ≡ₚ shuffled /\
  (shuffle_loop random i shuffled k).2 = (k + i)%nat.
Proof.
  revert shuffled k. induction i as [|i IH]; intros shuffled k.
  - cbn. split; [done|lia].
  - cbn [shuffle_loop]. destruct (IH (swap shuffled (S i)
                                        (random_index random k (S i + 1))) (S k))
      as [Hperm Hk].
    split; [|lia]. by rewrite Hperm, swap_Permutation.
Qed.

(** createDeck: with Math.random() in [0,1), the index drawn for position i
    lies between 0 and i, and the shuffled deck holds the 52 cards of the
    ordered deck, each (value, suit) pair once; Math.random() is asked 51
    times. *)
Theorem createDeck_is_a_full_deck (k : nat) :
  (forall i n : nat, (0 <= random_index random n (i + 1) <= Z.of_nat i)%Z) /\
  (createDeck random k).1 ≡ₚ ordered_deck /\
  length (createDeck random k).1 = 52%nat /\
  NoDup (face <$> (createDeck random k).1) /\
  (forall suit value, suit ∈ suits -> value ∈ values ->
     exists c, c ∈ (createDeck random k).1 /\ face c = (value, suit)) /\
  (createDeck random k).2 = (k + 51)%nat.
Proof.
  unfold createDeck, shuffleDeck.
  destruct (shuffle_loop_spec (length ordered_deck - 1) ordered_deck k)
    as [Hperm Hk].
  split; [intros i n; by apply shuffle_index_range|].
  split; [done|]. split; [by rewrite Hperm|].
  split; [rewrite Hperm; apply ordered_deck_NoDup|]. split; [|exact Hk].
  intros suit value Hs Hv.
  assert (exists c, c ∈ ordered_deck /\ face c = (value, suit)) as (c & Hc & Hf).
  { eexists (Card.mk value suit _). split; [|reflexivity].
    apply list_elem_of_In, in_flat_map. exists suit.
    split; [by apply list_elem_of_In|].
    apply in_map_iff. exists value. split; [reflexivity|by apply list_elem_of_In]. }
  exists c. split; [|done]. by rewrite Hperm.
Qed.
End Shuffle.

(** ** Dealing *)

Lemma pop_snoc {A : Type} (l : list A) (x : A) : pop (l ++ [x])%list = Some (x, l).
Proof. unfold pop. by rewrite last_snoc, removelast_last. Qed.

Lemma pop_Some {A : Type} (l l' : list A) (x : A) :
  pop l = Some (x, l') <-> l = (l' ++ [x])%list.
Proof.
  split; [|intros ->; apply pop_snoc].
  unfold pop. destruct (last l) as [y|] eqn:Hlast; [|done].
  intros [= <- <-]. apply last_Some in Hlast as [l'' ->].
  by rewrite removelast_last.
Qed.

Lemma hole_cards_cons (p : Player.t) (ps : list Player.t) :
  hole_cards (p :: ps) = (Player.cards p ++ hole_cards ps)%list.
Proof. reflexivity. Qed.

(** One pass of dealing moves cards from the deck to the players and
    neither loses nor repeats one. *)
Lemma deal_round_Permutation (ps : list Player.t) (deck : list Card.t) :
  (hole_cards (deal_round ps deck).1 ++ (deal_round ps deck).2)%list
  ≡ₚ (hole_cards ps ++ deck)%list.
Proof.
  revert deck. induction ps as [|p ps IH]; intros deck; [done|].
  cbn [deal_round]. destruct (pop deck) as [[c deck']|] eqn:Hpop.
  - apply pop_Some in Hpop as ->. specialize (IH deck').
    destruct (deal_round ps deck') as [rest' deck'']. cbn [fst snd] in *.
    rewrite !hole_cards_cons. cbn [Player.cards Player.set_cards].
    rewrite <- !app_assoc, IH.
    rewrite (Permutation_app_comm [c] (hole_cards ps ++ deck')%list).
    by rewrite <- !app_assoc.
  - specialize (IH deck).
    destruct (deal_round ps deck) as [rest' deck'']. cbn [fst snd] in *.
    rewrite !hole_cards_cons, <- !app_assoc. by rewrite IH.
Qed.

(** The order of one pass: the player at seat k gets the card k places
    below the top of the deck (the end of the array). *)
Lemma deal_round_order (ps : list Player.t) (deck : list Card.t) :
  (length ps <= length deck)%nat ->
  (deal_round ps deck).2 = take (length deck - length ps) deck /\
  forall (k : nat) (p : Player.t),
    ps !! k = Some p ->
    exists c,
      deck !! (length deck - 1 - k)%nat = Some c /\
      (deal_round ps deck).1 !! k
        = Some (Player.set_cards (Player.cards p ++ [c])%list p).
Proof.
  revert deck. induction ps as [|p ps IH]; intros deck Hlen.
  - cbn. split; [by rewrite Nat.sub_0_r, firstn_all|]. by intros k p' ?.
  - cbn [deal_round]. destruct (pop deck) as [[c deck']|] eqn:Hpop.
    2: { apply pop_None in Hpop. subst. cbn in Hlen. lia. }
    apply pop_Some in Hpop as ->.
    rewrite length_app in *. cbn [length] in *.
    destruct (IH deck') as [Hdeck Hseat]; [lia|].
    destruct (deal_round ps deck') as [rest' deck'']. cbn [fst snd] in *.
    split.
    + rewrite Hdeck. rewrite take_app_le by lia. f_equal. lia.
    + intros [|k] q Hq; cbn in Hq.
      * injection Hq as <-. exists c. split; [|done].
        rewrite lookup_app_r by lia.
        by replace (length deck' + 1 - 1 - 0 - length deck')%nat with 0%nat by lia.
      * destruct (Hseat k q Hq) as (c' & Hc' & Hk). exists c'. split; [|done].
        pose proof (lookup_lt_Some _ _ _ Hq).
        rewrite lookup_app_l by lia.
        by replace (length deck' + 1 - 1 - S k)%nat
          with (length deck' - 1 - k)%nat by lia.
Qed.

Section Deal.
Variable random : nat -> Q.

Lemma reset_and_blind_cards (r : Room.t) (index : Z) (p : Player.t)
    (pot : Q) (us : gmap string User.t) :
  Player.cards (reset_and_blind r index p pot us).1.1 = [] /\
  Player.folded (reset_and_blind r index p pot us).1.1 = false /\
  Player.allIn (reset_and_blind r index p pot us).1.1 = false /\
  Player.userId (reset_and_blind r index p pot us).1.1 = Player.userId p /\
  Player.socketId (reset_and_blind r index p pot us).1.1 = Player.socketId p.
Proof.
  unfold reset_and_blind.
  by repeat match goal with |- context [Z.eqb ?a ?b] => destruct (Z.eqb a b) end.
Qed.

Lemma forEach_blinds_hole_cards (r : Room.t) (i0 : Z) (ps : list Player.t)
    (pot : Q) (us : gmap string User.t) :
  hole_cards (forEach_blinds r i0 ps pot us).1.1 = [].
Proof.
  revert i0 pot us. induction ps as [|p ps IH]; intros i0 pot us; [done|].
  rewrite forEach_blinds_cons. cbn [fst snd]. rewrite hole_cards_cons, IH.
  by rewrite (proj1 (reset_and_blind_cards r i0 p pot us)).
Qed.

(** startNewGame deals round-robin from the end of the shuffled deck (for
    Math.random() in [0,1), where shuffleDeck swaps inside the array): with
    N players (2 <= N <= 26) the player at seat k holds exactly the two
    cards at positions 51 - k and 51 - N - k of the shuffled deck, and the
    room's deck is what is left below them; whatever N, hole cards and deck
    together are the 52 cards, and Math.random() was asked 51 times. *)
Theorem startNewGame_deals_round_robin (s : Table.t) :
  let N := length (Room.players (Table.room s)) in
  let shuffled := (createDeck random (Table.rcalls s)).1 in
  let room' := Table.room (startNewGame random s) in
  (2 <= N)%nat ->
  (forall n, 0 <= random n < 1) ->
  all_cards room' ≡ₚ ordered_deck /\
  Table.rcalls (startNewGame random s) = (Table.rcalls s + 51)%nat /\
  ((N <= 26)%nat ->
   Room.deck room' = take (52 - 2 * N) shuffled /\
   forall (k : nat) (p' : Player.t),
     Room.players room' !! k = Some p' ->
     exists c1 c2,
       shuffled !! (51 - k)%nat = Some c1 /\
       shuffled !! (51 - N - k)%nat = Some c2 /\
       Player.cards p' = [c1; c2]).
Proof.
  intros N shuffled room' HN _.
  assert (2 <= players_count (Table.room s))%Z as HN'
    by (unfold players_count; lia).
  subst room'. rewrite (startNewGame_room random s HN').
  cbn [Table.room Table.rcalls Room.players Room.deck]. fold shuffled.
  set (posted := forEach_blinds (Table.room s) 0 _ 0 _).
  pose proof (createDeck_length random (Table.rcalls s)) as H52. fold shuffled in H52.
  pose proof (forEach_blinds_length (Table.room s) 0
                (Room.players (Table.room s)) 0 (Table.users s)) as Hposted.
  fold posted N in Hposted.
  split; [|split].
  - unfold all_cards. cbn [Room.players Room.communityCards Room.deck app].
    rewrite deal_round_Permutation, deal_round_Permutation.
    subst posted. rewrite forEach_blinds_hole_cards. cbn [app].
    apply (proj1 (shuffle_loop_spec random _ _ _)).
  - apply (proj2 (shuffle_loop_spec random _ _ _)).
  - intros H26.
    destruct (deal_round_order posted.1.1 shuffled) as [Hdeck1 Hseat1]; [lia|].
    destruct (deal_round_spec posted.1.1 shuffled) as [Hsame1 _].
    apply Forall2_length in Hsame1.
    destruct (deal_round_order (deal_round posted.1.1 shuffled).1
                (deal_round posted.1.1 shuffled).2) as [Hdeck2 Hseat2].
    { rewrite Hdeck1, length_take. lia. }
    split.
    + rewrite Hdeck2, Hdeck1, length_take, take_take. f_equal. lia.
    + intros k p' Hp'.
      destruct (deal_round_spec (deal_round posted.1.1 shuffled).1
                  (deal_round posted.1.1 shuffled).2) as [Hsame2 _].
      destruct (Forall2_lookup_r _ _ _ _ _ Hsame2 Hp') as (p1 & Hp1 & _).
      destruct (deal_round_spec posted.1.1 shuffled) as [Hsame1' _].
      destruct (Forall2_lookup_r _ _ _ _ _ Hsame1' Hp1) as (p0 & Hp0 & _).
      destruct (Hseat1 k p0 Hp0) as (c1 & Hc1 & Hk1).
      rewrite Hp1 in Hk1. injection Hk1 as ->.
      destruct (Hseat2 k _ Hp1) as (c2 & Hc2 & Hk2).
      rewrite Hp' in Hk2. injection Hk2 as ->.
      pose proof (lookup_lt_Some _ _ _ Hp0) as Hk.
      exists c1, c2. split; [|split].
      * by replace (51 - k)%nat with (length shuffled - 1 - k)%nat by lia.
      * rewrite Hdeck1, length_take in Hc2.
        apply lookup_take_Some in Hc2 as [Hc2 _].
        by replace (51 - N - k)%nat
          with ((length shuffled - length posted.1.1) `min` length shuffled - 1 - k)%nat
          by lia.
      * cbn. subst posted. rewrite forEach_blinds_lookup in Hp0.
        destruct (Room.players (Table.room s) !! k) as [p|]; [|done].
        injection Hp0 as <-.
        by rewrite (proj1 (reset_and_blind_cards _ _ _ _ _)).
Qed.
End Deal.

(** ** What the engine keeps of the seats and the cards *)

Lemma same_seat_refl (p : Player.t) : same_seat p p.
Proof. by repeat split. Qed.

Lemma same_seat_trans (p q r : Player.t) :
  same_seat p q -> same_seat q r -> same_seat p r.
Proof. intros (? & ? & ?) (? & ? & ?). repeat split; congruence. Qed.

Lemma same_seats_refl (ps : list Player.t) : Forall2 same_seat ps ps.
Proof. induction ps; constructor; [apply same_seat_refl|done]. Qed.

Lemma same_seats_trans (ps qs rs : list Player.t) :
  Forall2 same_seat ps qs -> Forall2 same_seat qs rs -> Forall2 same_seat ps rs.
Proof.
  intros H. revert rs. induction H as [|p q ps qs Hpq _ IH]; intros rs Hqr.
  - by inversion Hqr.
  - inversion Hqr as [|? r ? rs' Hqr1 Hqr2]; subst.
    constructor; [by eapply same_seat_trans|by apply IH].
Qed.

Lemma same_seats_insert (ps : list Player.t) (i : nat) (p p' : Player.t) :
  ps !! i = Some p -> same_seat p p' -> Forall2 same_seat ps (<[i := p']> ps).
Proof.
  revert i. induction ps as [|q ps IH]; intros [|i] Hi Hsame; cbn in *; try done.
  - injection Hi as ->. constructor; [done|apply same_seats_refl].
  - constructor; [apply same_seat_refl|by apply IH].
Qed.

Lemma same_seats_map (f : Player.t -> Player.t) (ps : list Player.t) :
  (forall p, same_seat p (f p)) -> Forall2 same_seat ps (List.map f ps).
Proof. intros Hf. induction ps; constructor; [apply Hf|done]. Qed.

Lemma same_seats_userIds (ps ps' : list Player.t) :
  Forall2 same_seat ps ps' -> Player.userId <$> ps' = Player.userId <$> ps.
Proof.
  induction 1 as [|p p' ps ps' (Hu & _) _ IH]; [done|]. cbn. by rewrite Hu, IH.
Qed.

Lemma same_seats_hole_cards (ps ps' : list Player.t) :
  Forall2 same_seat ps ps' -> hole_cards ps' = hole_cards ps.
Proof.
  induction 1 as [|p p' ps ps' (_ & _ & Hc) _ IH]; [done|].
  rewrite !hole_cards_cons. by rewrite Hc, IH.
Qed.

Lemma deal_community_Permutation (n : nat) (r : Room.t) :
  (Room.communityCards (deal_community n r) ++ Room.deck (deal_community n r))%list
  ≡ₚ (Room.communityCards r ++ Room.deck r)%list.
Proof.
  revert r. induction n as [|n IH]; intros r; [done|].
  cbn [deal_community]. destruct (pop (Room.deck r)) as [[c deck']|] eqn:Hpop.
  - rewrite IH. cbn. apply pop_Some in Hpop. rewrite Hpop, <- app_assoc.
    apply Permutation_app_head, Permutation_app_comm.
  - apply IH.
Qed.

Lemma deal_community_id (n : nat) (r : Room.t) :
  Room.id (deal_community n r) = Room.id r.
Proof.
  revert r. induction n as [|n IH]; intros r; [done|]. cbn [deal_community].
  destruct (pop (Room.deck r)) as [[c deck']|]; by rewrite IH.
Qed.

Section Kept.
Variable random : nat -> Q.

Lemma action_switch_seats (uid : option string) (action : string)
    (amount : option Z) (i : nat) (player : Player.t) (s s' : Table.t) :
  Room.players (Table.room s) !! i = Some player ->
  action_switch uid action amount i player s = Ok s' ->
  Forall2 same_seat (Room.players (Table.room s)) (Room.players (Table.room s')) /\
  Room.communityCards (Table.room s') = Room.communityCards (Table.room s) /\
  Room.deck (Table.room s') = Room.deck (Table.room s) /\
  Room.id (Table.room s') = Room.id (Table.room s) /\
  Room.maxPlayers (Table.room s') = Room.maxPlayers (Table.room s) /\
  Room.currentPlayerIndex (Table.room s') = Room.currentPlayerIndex (Table.room s) /\
  Room.dealerIndex (Table.room s') = Room.dealerIndex (Table.room s).
Proof.
  intros Hi H. case_action H.
  all: try (split; [apply same_seats_refl|done]).
  all: cbn [Table.room Table.set_room]; try destruct (Qltb _ _); cbn.
  all: split; [eapply same_seats_insert; [exact Hi|by repeat split]|done].
Qed.

Lemma endGame_seats (s s' : Table.t) :
  endGame random s = Ok s' ->
  Forall2 same_seat (Room.players (Table.room s)) (Room.players (Table.room s')) /\
  Room.communityCards (Table.room s') = Room.communityCards (Table.room s) /\
  Room.deck (Table.room s') = Room.deck (Table.room s) /\
  Room.id (Table.room s') = Room.id (Table.room s) /\
  Room.maxPlayers (Table.room s') = Room.maxPlayers (Table.room s) /\
  (0 <= Room.dealerIndex (Table.room s) ->
   0 <= Room.dealerIndex (Table.room s'))%Z /\
  Room.currentPlayerIndex (Table.room s') = Room.currentPlayerIndex (Table.room s).
Proof.
  unfold endGame. intros H.
  destruct (_ =? _)%nat; destruct (at_index _ _); try discriminate;
    destruct (_ !! _) as [winner|] eqn:Hw; try discriminate; injection H as <-.
  all: cbn; split; [eapply same_seats_insert; [exact Hw|by repeat split]|].
  all: repeat split; try done.
  all: intros Hd; apply Z.rem_nonneg; unfold players_count; cbn;
    [apply lookup_lt_Some in Hw; rewrite length_insert; lia|lia].
Qed.

(** nextPlayer and nextPhase keep every seat with its participant and hole
    cards, move cards only from the deck to the board, and keep the seat
    indices at or above their initial values. *)
Lemma nextPlayer_seats (fuel : nat) :
  (forall s s', nextPlayer random fuel s = Ok s' ->
     (-1 <= Room.currentPlayerIndex (Table.room s))%Z ->
     (0 <= Room.dealerIndex (Table.room s))%Z ->
     Forall2 same_seat (Room.players (Table.room s)) (Room.players (Table.room s')) /\
     (Room.communityCards (Table.room s') ++ Room.deck (Table.room s'))%list
       ≡ₚ (Room.communityCards (Table.room s) ++ Room.deck (Table.room s))%list /\
     Room.id (Table.room s') = Room.id (Table.room s) /\
     Room.maxPlayers (Table.room s') = Room.maxPlayers (Table.room s) /\
     (-1 <= Room.currentPlayerIndex (Table.room s'))%Z /\
     (0 <= Room.dealerIndex (Table.room s'))%Z) /\
  (forall s s', nextPhase random fuel s = Ok s' ->
     (-1 <= Room.currentPlayerIndex (Table.room s))%Z ->
     (0 <= Room.dealerIndex (Table.room s))%Z ->
     Forall2 same_seat (Room.players (Table.room s)) (Room.players (Table.room s')) /\
     (Room.communityCards (Table.room s') ++ Room.deck (Table.room s'))%list
       ≡ₚ (Room.communityCards (Table.room s) ++ Room.deck (Table.room s))%list /\
     Room.id (Table.room s') = Room.id (Table.room s) /\
     Room.maxPlayers (Table.room s') = Room.maxPlayers (Table.room s) /\
     (-1 <= Room.currentPlayerIndex (Table.room s'))%Z /\
     (0 <= Room.dealerIndex (Table.room s'))%Z).
Proof.
  induction fuel as [|fuel [IH1 IH2]]; [by split|]. split.
  - intros s s' H Hcpi Hd. cbn [nextPlayer] in H.
    destruct (scan (Table.room s)) as [nextIndex| |] eqn:Hscan; try discriminate.
    + injection H as <-. cbn. split; [apply same_seats_refl|].
      repeat split; try done.
      unfold scan in Hscan.
      assert (forall ps remaining idx i,
        scan_loop ps remaining idx = Found i -> is_Some (at_index ps i)) as Hfound.
      { intros ps remaining. induction remaining as [|remaining IH];
          intros idx i Hloop; cbn in Hloop; [done|].
        destruct (at_index ps idx) as [player|] eqn:Hat; [|done].
        destruct (eligible player); [|by eapply IH].
        injection Hloop as <-. by rewrite Hat. }
      destruct (Hfound _ _ _ _ Hscan) as [p Hp].
      apply at_index_Some in Hp. lia.
    + by apply IH2.
  - intros s s' H Hcpi Hd. cbn [nextPhase] in H.
    assert (Forall2 same_seat (Room.players (Table.room s))
              (List.map (Player.set_bet 0) (Room.players (Table.room s)))) as Hreset.
    { apply same_seats_map. intros p. by repeat split. }
    assert (forall room0,
      Forall2 same_seat (Room.players (Table.room s)) (Room.players room0) ->
      (Room.communityCards room0 ++ Room.deck room0)%list
        ≡ₚ (Room.communityCards (Table.room s) ++ Room.deck (Table.room s))%list ->
      Room.id room0 = Room.id (Table.room s) ->
      Room.maxPlayers room0 = Room.maxPlayers (Table.room s) ->
      Room.dealerIndex room0 = Room.dealerIndex (Table.room s) ->
      nextPlayer random fuel
        (Table.set_room
           (Room.set_currentPlayerIndex (Room.dealerIndex room0) room0) s) = Ok s' ->
      Forall2 same_seat (Room.players (Table.room s)) (Room.players (Table.room s')) /\
      (Room.communityCards (Table.room s') ++ Room.deck (Table.room s'))%list
        ≡ₚ (Room.communityCards (Table.room s) ++ Room.deck (Table.room s))%list /\
      Room.id (Table.room s') = Room.id (Table.room s) /\
      Room.maxPlayers (Table.room s') = Room.maxPlayers (Table.room s) /\
      (-1 <= Room.currentPlayerIndex (Table.room s'))%Z /\
      (0 <= Room.dealerIndex (Table.room s'))%Z) as Hcont.
    { intros room0 Hps Hcards Hid Hmax Hdealer H0.
      destruct (IH1 _ _ H0) as (Hps' & Hcards' & Hid' & Hmax' & Hcpi' & Hd');
        cbn; try lia.
      cbn in Hps', Hcards', Hid', Hmax'.
      split; [by eapply same_seats_trans|]. split; [by rewrite Hcards'|].
      repeat split; congruence || done. }
    assert (forall n ph,
      nextPlayer random fuel
        (Table.set_room
           (Room.set_currentPlayerIndex
              (Room.dealerIndex
                 (deal_community n (Room.set_phase ph (reset_bets (Table.room s)))))
              (deal_community n (Room.set_phase ph (reset_bets (Table.room s)))))
           s) = Ok s' ->
      Forall2 same_seat (Room.players (Table.room s)) (Room.players (Table.room s')) /\
      (Room.communityCards (Table.room s') ++ Room.deck (Table.room s'))%list
        ≡ₚ (Room.communityCards (Table.room s) ++ Room.deck (Table.room s))%list /\
      Room.id (Table.room s') = Room.id (Table.room s) /\
      Room.maxPlayers (Table.room s') = Room.maxPlayers (Table.room s) /\
      (-1 <= Room.currentPlayerIndex (Table.room s'))%Z /\
      (0 <= Room.dealerIndex (Table.room s'))%Z) as Hstreet.
    { intros n ph H0.
      destruct (deal_community_fields n
                  (Room.set_phase ph (reset_bets (Table.room s))))
        as (Hps & _ & _ & _ & Hdealer & Hmax).
      apply Hcont in H0; [done|by rewrite Hps| |
        |by rewrite Hmax|by rewrite Hdealer].
      - by rewrite deal_community_Permutation.
      - by rewrite deal_community_id. }
    change (Room.phase (reset_bets (Table.room s)))
      with (Room.phase (Table.room s)) in H.
    destruct (Room.phase (Table.room s)).
    + by apply Hcont in H.
    + by apply Hstreet in H.
    + by apply Hstreet in H.
    + by apply Hstreet in H.
    + apply endGame_seats in H as (Hps & Hcc & Hdeck & Hid & Hmax & Hd' & Hcpi').
      cbn in *. split; [by eapply same_seats_trans|].
      split; [by rewrite Hcc, Hdeck|]. repeat split; try done.
      * by rewrite Hcpi'.
      * by apply Hd'.
    + by apply Hcont in H.
Qed.
End Kept.

(** ** Invariants of the rooms of the server *)

Section StepRooms.
Variable random : nat -> Q.
Variable P : string -> Room.t -> Prop.

Hypothesis P_join :
  forall roomId bigBlind room uid socketId chips,
    P roomId room \/ room = createGameRoom roomId bigBlind ->
    existsb (fun p => String.eqb (Player.userId p) uid) (Room.players room) = false ->
    (players_count room < Room.maxPlayers room)%Z ->
    P roomId
      (Room.set_players
         (Room.players room ++ [Player.mk uid socketId chips [] 0 false false]) room).
Hypothesis P_leave :
  forall roomId room i p,
    P roomId room ->
    Room.players room !! i = Some p ->
    delete i (Room.players room) <> [] ->
    P roomId (Room.set_players (delete i (Room.players room)) room).
Hypothesis P_start :
  forall roomId s,
    P roomId (Table.room s) ->
    (2 <= players_count (Table.room s))%Z ->
    P roomId (Table.room (startNewGame random s)).
Hypothesis P_act :
  forall roomId fuel uid action amount player s s',
    P roomId (Table.room s) ->
    at_index (Room.players (Table.room s))
      (Room.currentPlayerIndex (Table.room s)) = Some player ->
    act random fuel uid action amount
      (Z.to_nat (Room.currentPlayerIndex (Table.room s))) player s = Ok s' ->
    P roomId (Table.room s').

(** A property of rooms that joining, leaving, starting a hand and acting
    keep is kept by every event of the server. *)
Lemma step_rooms (w w' : World.t) :
  step random w w' ->
  map_Forall P (World.gameRooms w) -> map_Forall P (World.gameRooms w').
Proof.
  intros Hstep Hinv. destruct Hstep as
    [w socket userId password isRegistration
    |w socket roomId bigBlind
    |w socket
    |w roomId
    |fuel w socket action amount w' Haction].
  - unfold authenticate.
    destruct isRegistration; destruct (World.users w !! userId); try done.
    by destruct (negb _).
  - unfold join_room.
    destruct (Socket.userId socket) as [uid|]; [|done].
    destruct (World.users w !! uid) as [user|]; [|done].
    destruct (Qltb _ _); [done|].
    destruct (World.gameRooms w !! roomId) as [room|] eqn:Hr.
    + pose proof (map_Forall_lookup_1 _ _ _ _ Hinv Hr) as Hroom.
      destruct (existsb _ _) eqn:Hex; [by apply map_Forall_insert_2|].
      destruct (Z.leb_spec (Room.maxPlayers room) (players_count room));
        [by apply map_Forall_insert_2|].
      cbn. apply map_Forall_insert_2; [|by apply map_Forall_insert_2].
      apply (P_join roomId bigBlind); [by left|done|done].
    + cbn. rewrite insert_insert_eq. apply map_Forall_insert_2; [|done].
      apply (P_join roomId bigBlind (createGameRoom roomId bigBlind));
        [by right|done|done].
  - unfold leaveCurrentRoom.
    destruct (Socket.currentRoom socket) as [roomId|]; [|done].
    destruct (String.eqb roomId ""); [done|].
    destruct (World.gameRooms w !! roomId) as [room|] eqn:Hr; [|done].
    cbn.
    destruct (findIndex_spec (has_socket socket) (Room.players room))
      as [[-> _]|(p & Hp & _)]; [done|].
    apply at_index_Some in Hp as [Hge Hp].
    destruct (Z.eqb_spec (findIndex (has_socket socket) (Room.players room)) (-1));
      [lia|].
    destruct (length _ =? 0)%nat eqn:Hempty; [by apply map_Forall_delete|].
    apply map_Forall_insert_2; [|done].
    apply (P_leave roomId room _ p);
      [by apply (map_Forall_lookup_1 _ _ _ _ Hinv Hr)|done|].
    intros Hnil. rewrite Hnil in Hempty. discriminate.
  - unfold startNewGame_timer.
    destruct (World.gameRooms w !! roomId) as [room|] eqn:Hr; [|done].
    cbn. apply map_Forall_insert_2; [|done].
    pose proof (map_Forall_lookup_1 _ _ _ _ Hinv Hr) as Hroom.
    destruct (Z.ltb_spec (players_count room) 2) as [Hlt|Hge].
    + unfold startNewGame. cbn [focus Table.room].
      by destruct (Z.ltb_spec (players_count room) 2); [|lia].
    + by apply P_start.
  - destruct (player_action_passes_guard random fuel w socket action amount)
      as [H|(roomId & room & player & _ & Hr & Hat & _ & H)];
      rewrite H in Haction.
    + by injection Haction as <-.
    + destruct (act _ _ _ _ _ _ _ _) as [s| |] eqn:Hact; try discriminate.
      injection Haction as <-. cbn.
      apply map_Forall_insert_2; [|done].
      apply (P_act roomId fuel (Socket.userId socket) action amount player
               (focus w room) s);
        [exact (map_Forall_lookup_1 _ _ _ _ Hinv Hr)|exact Hat|exact Hact].
Qed.

Lemma reachable_rooms (w : World.t) :
  reachable random w -> map_Forall P (World.gameRooms w).
Proof.
  induction 1 as [|w w' _ IH Hstep]; [apply map_Forall_empty|].
  by eapply step_rooms.
Qed.
End StepRooms.

Lemma hole_cards_app (ps qs : list Player.t) :
  hole_cards (ps ++ qs) = (hole_cards ps ++ hole_cards qs)%list.
Proof.
  induction ps as [|p ps IH]; [done|]. cbn [app].
  by rewrite !hole_cards_cons, IH, app_assoc.
Qed.

Lemma hole_cards_delete (ps : list Player.t) (i : nat) :
  hole_cards (delete i ps) `sublist_of` hole_cards ps.
Proof.
  revert i. induction ps as [|p ps IH]; intros [|i]; try done.
  - change (delete 0%nat (p :: ps)) with ps. rewrite hole_cards_cons.
    by apply sublist_inserts_l.
  - change (delete (S i) (p :: ps)) with (p :: delete i ps).
    rewrite !hole_cards_cons. by apply sublist_app.
Qed.

Lemma existsb_userId_false (ps : list Player.t) (uid : string) :
  existsb (fun p => String.eqb (Player.userId p) uid) ps = false ->
  uid ∉ Player.userId <$> ps.
Proof.
  intros Hex (p & -> & Hp)%list_elem_of_fmap.
  assert (existsb (fun q => String.eqb (Player.userId q) (Player.userId p)) ps
          = true) as Htrue.
  { apply existsb_exists. exists p. split; [by apply list_elem_of_In|].
    apply String.eqb_refl. }
  congruence.
Qed.

Section Invariants.
Variable random : nat -> Q.

Lemma startNewGame_userIds (s : Table.t) :
  (2 <= players_count (Table.room s))%Z ->
  Player.userId <$> Room.players (Table.room (startNewGame random s))
  = Player.userId <$> Room.players (Table.room s).
Proof.
  intros HN. destruct (startNewGame_players random s HN) as [Hlen Hplayers].
  apply list_eq. intros k. rewrite !list_lookup_fmap.
  destruct (Room.players (Table.room s) !! k) as [p|] eqn:Hp.
  - destruct (Hplayers k p Hp) as [cs ->]. cbn.
    by rewrite (proj1 (proj2 (proj2 (proj2 (reset_and_blind_cards _ _ _ _ _))))).
  - apply lookup_ge_None in Hp. rewrite <- Hlen in Hp.
    apply lookup_ge_None in Hp. by rewrite Hp.
Qed.

Lemma startNewGame_fields (s : Table.t) :
  (2 <= players_count (Table.room s))%Z ->
  let room := Table.room s in
  let room' := Table.room (startNewGame random s) in
  Room.id room' = Room.id room /\
  Room.maxPlayers room' = Room.maxPlayers room /\
  Room.dealerIndex room' = Room.dealerIndex room /\
  Room.currentPlayerIndex room'
    = Z.rem (Room.dealerIndex room + 3) (players_count room) /\
  Room.phase room' = preflop /\
  Room.communityCards room' = [] /\
  Room.currentBet room' = Room.bigBlind room /\
  Room.bigBlind room' = Room.bigBlind room /\
  Room.smallBlind room' = Room.smallBlind room.
Proof.
  intros HN. cbv zeta.
  destruct (startNewGame_players random s HN) as [Hlen _].
  rewrite (startNewGame_room random s HN) in Hlen |- *.
  cbn [Table.room Room.id Room.maxPlayers Room.dealerIndex Room.currentPlayerIndex
       Room.phase Room.communityCards Room.currentBet Room.bigBlind
       Room.smallBlind Room.players] in Hlen |- *.
  rewrite Hlen. by repeat split.
Qed.

Lemma act_seats (fuel : nat) (uid : option string) (action : string)
    (amount : option Z) (player : Player.t) (s s' : Table.t) :
  at_index (Room.players (Table.room s))
    (Room.currentPlayerIndex (Table.room s)) = Some player ->
  (0 <= Room.dealerIndex (Table.room s))%Z ->
  act random fuel uid action amount
    (Z.to_nat (Room.currentPlayerIndex (Table.room s))) player s = Ok s' ->
  Forall2 same_seat (Room.players (Table.room s)) (Room.players (Table.room s')) /\
  (Room.communityCards (Table.room s') ++ Room.deck (Table.room s'))%list
    ≡ₚ (Room.communityCards (Table.room s) ++ Room.deck (Table.room s))%list /\
  Room.id (Table.room s') = Room.id (Table.room s) /\
  Room.maxPlayers (Table.room s') = Room.maxPlayers (Table.room s) /\
  (-1 <= Room.currentPlayerIndex (Table.room s'))%Z /\
  (0 <= Room.dealerIndex (Table.room s'))%Z.
Proof.
  intros [Hcpi Hat]%at_index_Some Hd. unfold act.
  destruct (action_switch _ _ _ _ _ _) as [s1| |] eqn:Hswitch; try discriminate.
  intros Hnext.
  destruct (action_switch_seats _ _ _ _ _ _ _ Hat Hswitch)
    as (Hps & Hcc & Hdeck & Hid & Hmax & Hcpi1 & Hd1).
  destruct (proj1 (nextPlayer_seats random fuel) _ _ Hnext)
    as (Hps' & Hcards' & Hid' & Hmax' & Hcpi' & Hd'); [lia|lia|].
  split; [by eapply same_seats_trans|].
  split; [by rewrite Hcards', Hcc, Hdeck|].
  repeat split; congruence || done.
Qed.

Lemma room_wf_join (roomId : string) (bigBlind : Q) (room : Room.t)
    (uid socketId : string) (chips : Q) :
  room_wf roomId room \/ room = createGameRoom roomId bigBlind ->
  existsb (fun p => String.eqb (Player.userId p) uid) (Room.players room) = false ->
  (players_count room < Room.maxPlayers room)%Z ->
  room_wf roomId
    (Room.set_players
       (Room.players room ++ [Player.mk uid socketId chips [] 0 false false]) room).
Proof.
  intros Hr Hex Hfree.
  assert (Room.id room = roomId /\ (length (Room.players room) <= 6)%nat /\
          Room.maxPlayers room = 6%Z /\
          NoDup (Player.userId <$> Room.players room) /\
          (-1 <= Room.currentPlayerIndex room)%Z /\ (0 <= Room.dealerIndex room)%Z)
    as (Hid & Hlen & Hmax & Hnd & Hcpi & Hd).
  { destruct Hr as [(? & [? ?] & ? & ? & ? & ?)| ->]; [done|].
    cbn. repeat split; try done; try lia. constructor. }
  unfold room_wf, players_count in *. cbn. rewrite length_app, fmap_app. cbn.
  repeat split; try done; try lia.
  apply NoDup_app. split; [done|]. split; [|apply NoDup_singleton].
  intros x Hx ->%list_elem_of_singleton. by apply existsb_userId_false in Hex.
Qed.

Lemma room_wf_leave (roomId : string) (room : Room.t) (i : nat) (p : Player.t) :
  room_wf roomId room ->
  Room.players room !! i = Some p ->
  delete i (Room.players room) <> [] ->
  room_wf roomId (Room.set_players (delete i (Room.players room)) room).
Proof.
  intros (Hid & [Hlen1 Hlen6] & Hmax & Hnd & Hcpi & Hd) Hp Hne.
  unfold room_wf. cbn. repeat split; try done.
  - destruct (delete i (Room.players room)); [done|cbn; lia].
  - pose proof (length_delete_le (Room.players room) i). lia.
  - eapply sublist_NoDup; [exact Hnd|]. apply fmap_sublist, sublist_delete.
Qed.

Lemma room_wf_start (roomId : string) (s : Table.t) :
  room_wf roomId (Table.room s) ->
  (2 <= players_count (Table.room s))%Z ->
  room_wf roomId (Table.room (startNewGame random s)).
Proof.
  intros (Hid & [Hlen1 Hlen6] & Hmax & Hnd & Hcpi & Hd) HN.
  pose proof (startNewGame_userIds s HN) as Hids.
  destruct (startNewGame_players random s HN) as [Hlen _].
  destruct (startNewGame_fields s HN) as (Hid' & Hmax' & Hd' & Hcpi' & _).
  unfold room_wf. rewrite Hids, Hlen, Hid', Hmax', Hd', Hcpi'.
  repeat split; try done.
  apply Z.le_trans with 0%Z; [done|]. apply Z.rem_nonneg; lia.
Qed.

Lemma room_wf_act (roomId : string) (fuel : nat) (uid : option string)
    (action : string) (amount : option Z) (player : Player.t) (s s' : Table.t) :
  room_wf roomId (Table.room s) ->
  at_index (Room.players (Table.room s))
    (Room.currentPlayerIndex (Table.room s)) = Some player ->
  act random fuel uid action amount
    (Z.to_nat (Room.currentPlayerIndex (Table.room s))) player s = Ok s' ->
  room_wf roomId (Table.room s').
Proof.
  intros (Hid & [Hlen1 Hlen6] & Hmax & Hnd & Hcpi & Hd) Hat Hact.
  destruct (act_seats _ _ _ _ _ _ _ Hat Hd Hact)
    as (Hps & _ & Hid' & Hmax' & Hcpi' & Hd').
  unfold room_wf.
  rewrite (same_seats_userIds _ _ Hps), <- (Forall2_length _ _ _ Hps).
  repeat split; congruence || done.
Qed.

Lemma reachable_wf_cards (w : World.t) :
  reachable random w ->
  map_Forall (fun roomId r => room_wf roomId r /\ cards_distinct r)
    (World.gameRooms w).
Proof.
  apply (reachable_rooms random).
  - intros rid bb r uid sid chips Hr Hex Hfree. split.
    + apply (room_wf_join rid bb); [|done|done].
      destruct Hr as [[Hr _]|Hr]; [by left|by right].
    + unfold cards_distinct, all_cards.
      cbn [Room.players Room.set_players Room.communityCards Room.deck].
      rewrite hole_cards_app.
      change (hole_cards [Player.mk uid sid chips [] 0 false false])
        with (@nil Card.t).
      rewrite app_nil_r.
      destruct Hr as [[_ Hr]| ->]; [done|]. cbn. constructor.
  - intros rid r i p [Hwf Hcards] Hp Hne. split; [by eapply room_wf_leave|].
    unfold cards_distinct, all_cards in *.
    cbn [Room.players Room.set_players Room.communityCards Room.deck].
    eapply sublist_NoDup; [exact Hcards|].
    apply fmap_sublist, sublist_app; [apply hole_cards_delete|done].

  - intros rid s [Hwf Hcards] HN. split; [by apply room_wf_start|].
    unfold cards_distinct.
    assert (all_cards (Table.room (startNewGame random s)) ≡ₚ ordered_deck)
      as ->; [|apply ordered_deck_NoDup].
    rewrite (startNewGame_room random s HN). unfold all_cards.
    cbn [Table.room Room.players Room.communityCards Room.deck app].
    rewrite deal_round_Permutation, deal_round_Permutation.
    rewrite forEach_blinds_hole_cards. cbn [app].
    apply (proj1 (shuffle_loop_spec random _ _ _)).
  - intros rid fuel uid action amount player s s' [Hwf Hcards] Hat Hact.
    split; [by eapply room_wf_act|].
    destruct Hwf as (_ & _ & _ & _ & _ & Hd).
    destruct (act_seats _ _ _ _ _ _ _ Hat Hd Hact) as (Hps & Hperm & _).
    unfold cards_distinct, all_cards in *.
    by rewrite (same_seats_hole_cards _ _ Hps), Hperm.
Qed.

(** In every reachable state of the server each room of gameRooms is stored
    under its own id and has between one and six players, no two of them
    with the same userId; maxPlayers is 6, currentPlayerIndex is at least -1
    and dealerIndex at least 0. *)
Theorem reachable_rooms_well_formed (w : World.t) (roomId : string)
    (room : Room.t) :
  reachable random w ->
  World.gameRooms w !! roomId = Some room ->
  Room.id room = roomId /\
  (1 <= length (Room.players room) <= 6)%nat /\
  Room.maxPlayers room = 6%Z /\
  NoDup (Player.userId <$> Room.players room) /\
  (-1 <= Room.currentPlayerIndex room)%Z /\
  (0 <= Room.dealerIndex room)%Z.
Proof.
  intros Hreach Hroom.
  apply (map_Forall_lookup_1 _ _ _ _ (reachable_wf_cards w Hreach) Hroom).
Qed.

(** In every reachable state (for Math.random() in [0,1)) no room holds a
    card twice: the (value, suit) pairs of the hole cards, the community
    cards and the deck are pairwise different. *)
Theorem reachable_cards_distinct (w : World.t) (roomId : string)
    (room : Room.t) :
  (forall n, 0 <= random n < 1) ->
  reachable random w ->
  World.gameRooms w !! roomId = Some room ->
  NoDup (face <$> all_cards room).
Proof.
  intros _ Hreach Hroom.
  apply (map_Forall_lookup_1 _ _ _ _ (reachable_wf_cards w Hreach) Hroom).
Qed.
End Invariants.

(** ** The handlers: accounts, seats, leaving *)

Lemma World_eta (w : World.t) :
  World.mk (World.users w) (World.gameRooms w) (World.rcalls w) = w.
Proof. by destruct w. Qed.

(** A join-room request that is answered with an error leaves the server
    and the socket as they were; and the four errors come in the order of
    the handler: no user for the socket, chips below ten times the requested
    bigBlind, the user already in the room, the room full. *)
Theorem join_room_rejections (w : World.t) (socket : Socket.t)
    (roomId : string) (bigBlind : Q) :
  ((forall scheduled,
      (join_room w socket roomId bigBlind).2 <> joined_room scheduled) ->
   (join_room w socket roomId bigBlind).1 = (w, socket)) /\
  (forall uid user room,
     Socket.userId socket = Some uid ->
     World.users w !! uid = Some user ->
     bigBlind * 10 <= User.chips user ->
     World.gameRooms w !! roomId = Some room ->
     (Exists (fun p => Player.userId p = uid) (Room.players room) ->
      (join_room w socket roomId bigBlind).2 = already_joined) /\
     (Forall (fun p => Player.userId p <> uid) (Room.players room) ->
      (Room.maxPlayers room <= players_count room)%Z ->
      (join_room w socket roomId bigBlind).2 = room_full)).
Proof.
  split.
  - unfold join_room.
    destruct (Socket.userId socket) as [uid|]; [|done].
    destruct (World.users w !! uid) as [user|]; [|done].
    destruct (Qltb _ _); [done|].
    destruct (World.gameRooms w !! roomId) as [room|] eqn:Hr.
    + destruct (existsb _ _).
      { intros _. cbn. by rewrite (insert_id _ _ _ Hr), World_eta. }
      destruct (_ <=? _)%Z.
      { intros _. cbn. by rewrite (insert_id _ _ _ Hr), World_eta. }
      cbn. intros H. exfalso. by eapply H.
    + cbn. intros H. exfalso. by eapply H.
  - intros uid user room Huid Huser Hchips Hr. unfold join_room.
    rewrite Huid, Huser, (proj2 (Qltb_ge _ _) Hchips), Hr. split.
    + intros (p & Hp & Hu)%Exists_exists.
      assert (existsb (fun p => String.eqb (Player.userId p) uid)
                (Room.players room) = true) as ->; [|done].
      apply existsb_exists. exists p. split; [by apply list_elem_of_In|].
      by apply String.eqb_eq.
    + intros Hnew Hfull.
      assert (existsb (fun p => String.eqb (Player.userId p) uid)
                (Room.players room) = false) as ->.
      { apply not_true_is_false. intros (p & Hp & Heq)%existsb_exists.
        apply String.eqb_eq in Heq. apply list_elem_of_In in Hp.
        rewrite Forall_forall in Hnew. by apply (Hnew p). }
      by destruct (Z.leb_spec (Room.maxPlayers room) (players_count room)); [|lia].
Qed.

(** authenticate never touches a room and never changes the chips, the
    password or the id of an account that exists; a failed request changes
    nothing at all; a registration of a free id creates the account with
    10000 chips, and logging in to it afterwards succeeds exactly with the
    password it was registered with. *)
Theorem authenticate_accounts (w : World.t) (socket : Socket.t)
    (userId password : string) (isRegistration : bool) :
  let w' := (authenticate w socket userId password isRegistration).1.1 in
  World.gameRooms w' = World.gameRooms w /\
  World.rcalls w' = World.rcalls w /\
  (forall uid u, World.users w !! uid = Some u ->
     exists u', World.users w' !! uid = Some u' /\
       User.chips u' = User.chips u /\ User.password u' = User.password u /\
       User.id u' = User.id u) /\
  ((authenticate w socket userId password isRegistration).2 = auth_error ->
   (authenticate w socket userId password isRegistration).1 = (w, socket)) /\
  (isRegistration = true -> World.users w !! userId = None ->
   authenticate w socket userId password true
     = (World.mk
          (<[userId := User.mk userId password 10000 (Some (Socket.id socket))]>
             (World.users w))
          (World.gameRooms w) (World.rcalls w),
        Socket.set_userId (Some userId) socket, auth_success userId 10000) /\
   forall socket2 password2,
     (authenticate w' socket2 userId password2 false).2 =
       if String.eqb password password2 then auth_success userId 10000
       else auth_error).
Proof.
  cbv zeta.
  destruct isRegistration.
  - unfold authenticate.
    destruct (World.users w !! userId) as [u0|] eqn:Hu0.
    + repeat split; try done. intros uid u Hu. by exists u.
    + cbn. repeat split; try done.
      * intros uid u Hu. exists u. split; [|done].
        rewrite lookup_insert_ne; [done|]. intros ->. congruence.
      * intros socket2 password2. rewrite lookup_insert_eq. cbn.
        rewrite String.eqb_sym. by destruct (String.eqb password2 password).
  - unfold authenticate.
    destruct (World.users w !! userId) as [u0|] eqn:Hu0.
    + destruct (negb _) eqn:Hpw; cbn.
      * repeat split; try done. intros uid u Hu. by exists u.
      * repeat split; try done.
        intros uid u Hu. destruct (decide (uid = userId)) as [->|Hne].
        -- rewrite lookup_insert_eq. eexists. split; [done|].
           cbn. by assert (u = u0) as -> by congruence.
        -- rewrite lookup_insert_ne by done. by exists u.
    + repeat split; try done. intros uid u Hu. by exists u.
Qed.

Lemma findIndex_from_app {A : Type} (f : A -> bool) (l : list A) (x : A) (i0 : Z) :
  Forall (fun y => f y = false) l -> f x = true ->
  findIndex_from f (l ++ [x])%list i0 = (i0 + Z.of_nat (length l))%Z.
Proof.
  intros Hl Hx. revert i0. induction Hl as [|y l Hy _ IH]; intros i0; cbn.
  - rewrite Hx. lia.
  - rewrite Hy, IH. lia.
Qed.

Lemma Room_set_players_eta (r : Room.t) : Room.set_players (Room.players r) r = r.
Proof. by destruct r. Qed.

Lemma delete_last_snoc {A : Type} (l : list A) (x : A) :
  delete (length l) (l ++ [x])%list = l.
Proof.
  induction l as [|y l IH]; [done|].
  change (y :: delete (length l) (l ++ [x])%list = y :: l). by rewrite IH.
Qed.

(** Joining a room and leaving it again gives back the users and rooms the
    server had: the seat taken last is removed, and a room that was created
    by the join is deleted.  (The room must not already seat a player on the
    same socket: leaveCurrentRoom removes the first seat with the socket's
    id.) *)
Theorem join_then_leave (w : World.t) (socket : Socket.t) (roomId : string)
    (bigBlind : Q) (w1 : World.t) (socket1 : Socket.t) (scheduled : bool) :
  join_room w socket roomId bigBlind = (w1, socket1, joined_room scheduled) ->
  roomId <> "" ->
  (forall room, World.gameRooms w !! roomId = Some room ->
     Room.players room <> [] /\
     Forall (fun p => Player.socketId p <> Socket.id socket) (Room.players room)) ->
  leaveCurrentRoom w1 socket1 = (w, Socket.set_currentRoom None socket1).
Proof.
  unfold join_room. intros Hjoin Hid Hroom.
  destruct (Socket.userId socket) as [uid|]; [|done].
  destruct (World.users w !! uid) as [user|]; [|done].
  destruct (Qltb _ _); [done|].
  set (room := match World.gameRooms w !! roomId with
               | Some room => room
               | None => createGameRoom roomId bigBlind
               end) in *.
  destruct (existsb _ _); [done|]. destruct (_ <=? _)%Z; [done|].
  injection Hjoin as <- <- _.
  unfold leaveCurrentRoom. cbn [Socket.currentRoom Socket.set_currentRoom].
  rewrite (proj2 (String.eqb_neq _ _) Hid).
  cbn [World.gameRooms World.users World.rcalls]. rewrite lookup_insert_eq.
  cbn [Room.players Room.set_players].
  assert (Forall (fun p => has_socket
                    (Socket.mk (Socket.id socket) (Socket.userId socket) (Some roomId))
                    p = false) (Room.players room)) as Hothers.
  { subst room. destruct (World.gameRooms w !! roomId) as [r|] eqn:Hr; [|constructor].
    destruct (Hroom r eq_refl) as [_ Hall].
    eapply Forall_impl; [exact Hall|]. intros p Hp.
    apply not_true_is_false. by intros ?%has_socket_true. }
  unfold findIndex. rewrite findIndex_from_app;
    [|exact Hothers|apply String.eqb_refl].
  rewrite Z.add_0_l.
  destruct (Z.eqb_spec (Z.of_nat (length (Room.players room))) (-1)); [lia|].
  rewrite Nat2Z.id, delete_last_snoc. f_equal.
  assert (Room.set_players (Room.players room)
            (Room.set_players
               (Room.players room ++
                [Player.mk uid (Socket.id socket) (User.chips user) [] 0 false false])
               room) = room) as -> by (by destruct room).
  destruct w as [us rooms rc].
  cbn [World.users World.gameRooms World.rcalls] in *. f_equal.
  subst room. destruct (rooms !! roomId) as [r|] eqn:Hr.
  - destruct (Hroom r eq_refl) as [Hne _].
    destruct (Room.players r) as [|p ps] eqn:Hps; [done|].
    cbn [length Nat.eqb]. rewrite !insert_insert_eq. by apply insert_id.
  - cbn [createGameRoom Room.players length Nat.eqb].
    rewrite !delete_insert_eq. by apply delete_id.
Qed.

(** Disconnecting changes the rooms as leaveCurrentRoom does, and no
    account loses or gains chips or changes its password by it. *)
Theorem disconnect_keeps_accounts (w : World.t) (socket : Socket.t) :
  World.gameRooms (disconnect w socket).1
    = World.gameRooms (leaveCurrentRoom w socket).1 /\
  (disconnect w socket).2 = (leaveCurrentRoom w socket).2 /\
  forall uid u, World.users w !! uid = Some u ->
    exists u', World.users (disconnect w socket).1 !! uid = Some u' /\
      User.chips u' = User.chips u /\ User.password u' = User.password u.
Proof.
  unfold disconnect.
  assert (World.users (leaveCurrentRoom w socket).1 = World.users w) as Husers.
  { unfold leaveCurrentRoom.
    destruct (Socket.currentRoom socket) as [roomId|]; [|done].
    destruct (String.eqb roomId ""); [done|].
    by destruct (World.gameRooms w !! roomId). }
  destruct (leaveCurrentRoom w socket) as [w1 socket1]. cbn [fst snd] in *.
  destruct (Socket.userId socket1) as [uid0|].
  2: { cbn [fst snd]. repeat split; try done. intros uid u Hu. exists u.
    by rewrite Husers. }
  destruct (String.eqb uid0 "").
  { cbn [fst snd]. repeat split; try done. intros uid u Hu. exists u.
    by rewrite Husers. }
  destruct (World.users w1 !! uid0) as [user|] eqn:Huser.
  2: { cbn [fst snd]. repeat split; try done. intros uid u Hu. exists u.
    by rewrite Husers. }
  destruct (match User.socketId user with Some k => _ | None => _ end).
  2: { cbn [fst snd]. repeat split; try done. intros uid u Hu. exists u.
    by rewrite Husers. }
  cbn. repeat split; try done. intros uid u Hu. rewrite <- Husers in Hu.
  destruct (decide (uid = uid0)) as [->|Hne].
  - rewrite lookup_insert_eq. eexists. split; [done|].
    assert (u = user) as -> by congruence. done.
  - rewrite lookup_insert_ne by done. by exists u.
Qed.

(** ** What the clients are sent *)

Lemma userId_seat (ps : list Player.t) (j k : nat) (q p : Player.t) :
  NoDup (Player.userId <$> ps) ->
  ps !! j = Some q -> ps !! k = Some p ->
  Player.userId q = Player.userId p -> j = k.
Proof.
  intros Hnd Hq Hp Heq.
  apply (NoDup_lookup _ j k (Player.userId p) Hnd).
  - by rewrite list_lookup_fmap, Hq, <- Heq.
  - by rewrite list_lookup_fmap, Hp.
Qed.

Lemma findIndex_userId (ps : list Player.t) (k : nat) (p : Player.t) :
  NoDup (Player.userId <$> ps) ->
  ps !! k = Some p ->
  findIndex (fun q => String.eqb (Player.userId q) (Player.userId p)) ps
  = Z.of_nat k.
Proof.
  intros Hnd Hp.
  destruct (findIndex_spec
              (fun q => String.eqb (Player.userId q) (Player.userId p)) ps)
    as [[_ Hall]|(q & Hq & Heq)].
  - rewrite Forall_lookup in Hall. specialize (Hall k p Hp). cbn in Hall.
    by rewrite String.eqb_refl in Hall.
  - apply at_index_Some in Hq as [Hge Hq]. apply String.eqb_eq in Heq.
    pose proof (userId_seat ps _ k q p Hnd Hq Hp Heq). lia.
Qed.

(** The room as the player at seat [k] is shown it. *)
Lemma sanitizeRoomForClient_seat (room : Room.t) (k j : nat) (p : Player.t) :
  NoDup (Player.userId <$> Room.players room) ->
  Room.players room !! k = Some p ->
  ClientRoom.players (sanitizeRoomForClient room (Player.userId p)) !! j
  = (fun q =>
       client_player
         (if bool_decide (j = k) then List.map shown (Player.cards q)
          else List.map (fun _ => hidden) (Player.cards q)) q)
    <$> Room.players room !! j.
Proof.
  intros Hnd Hp. unfold sanitizeRoomForClient. cbn [ClientRoom.players client_room].
  rewrite map_lookup. destruct (Room.players room !! j) as [q|] eqn:Hq; [|done].
  cbn. f_equal. f_equal.
  destruct (String.eqb_spec (Player.userId q) (Player.userId p)) as [Heq|Hne].
  - rewrite (userId_seat _ _ _ _ _ Hnd Hq Hp Heq). by rewrite bool_decide_eq_true_2.
  - rewrite bool_decide_eq_false_2; [done|]. intros ->. congruence.
Qed.

(** updateGameState, in a room whose players have different userIds (as in
    every reachable state): every message goes to the socket of a seated
    player whose socket is connected, and every such player gets one; the
    message says isYourTurn exactly to the player at currentPlayerIndex; the
    room in it shows the recipient's own hole cards and, for every other
    seat, as many hidden markers as that player holds cards. *)
Theorem updateGameState_messages (connected : string -> bool) (room : Room.t) :
  NoDup (Player.userId <$> Room.players room) ->
  (forall m, In m (updateGameState connected room) ->
     exists (k : nat) (p : Player.t),
       Room.players room !! k = Some p /\
       connected (Player.socketId p) = true /\
       recipient m = Player.socketId p /\
       isYourTurn m = (Room.currentPlayerIndex room =? Z.of_nat k)%Z /\
       forall j,
         ClientRoom.players (update_room m) !! j
         = (fun q =>
              client_player
                (if bool_decide (j = k) then List.map shown (Player.cards q)
                 else List.map (fun _ => hidden) (Player.cards q)) q)
           <$> Room.players room !! j) /\
  (forall (k : nat) (p : Player.t),
     Room.players room !! k = Some p ->
     connected (Player.socketId p) = true ->
     exists m, In m (updateGameState connected room) /\
       recipient m = Player.socketId p /\
       isYourTurn m = (Room.currentPlayerIndex room =? Z.of_nat k)%Z).
Proof.
  intros Hnd. split.
  - intros m (p & Hp & Hm)%in_flat_map.
    apply list_elem_of_In, list_elem_of_lookup in Hp as [k Hk].
    destruct (connected (Player.socketId p)) eqn:Hc; [|done].
    destruct Hm as [<-|[]]. exists k, p. cbn.
    rewrite (findIndex_userId _ _ _ Hnd Hk).
    repeat split; try done.
    intros j. by apply sanitizeRoomForClient_seat.
  - intros k p Hk Hc. eexists. split.
    + apply in_flat_map. exists p. split.
      * apply list_elem_of_In, list_elem_of_lookup. by exists k.
      * rewrite Hc. by left.
    + cbn. by rewrite (findIndex_userId _ _ _ Hnd Hk).
Qed.

(** ** The turn and phase engines *)

Lemma scan_loop_Found (ps : list Player.t) (remaining : nat) (idx i : Z) :
  scan_loop ps remaining idx = Found i ->
  exists p, at_index ps i = Some p /\ eligible p = true.
Proof.
  revert idx. induction remaining as [|remaining IH]; intros idx H; cbn in H;
    [done|].
  destruct (at_index ps idx) as [player|] eqn:Hat; [|done].
  destruct (eligible player) eqn:He; [|by eapply IH].
  injection H as <-. by exists player.
Qed.

Lemma eligible_set_bet (v : Q) (p : Player.t) :
  eligible (Player.set_bet v p) = eligible p.
Proof. reflexivity. Qed.

Section Engine.
Variable random : nat -> Q.

(** After the turn advance, while the hand goes on, the player in turn can
    act: has not folded, is not all-in and has chips. *)
Lemma nextPlayer_current_eligible (fuel : nat) :
  (forall s s', nextPlayer random fuel s = Ok s' ->
     Room.phase (Table.room s') <> waiting ->
     exists p,
       at_index (Room.players (Table.room s'))
         (Room.currentPlayerIndex (Table.room s')) = Some p /\
       eligible p = true) /\
  (forall s s', nextPhase random fuel s = Ok s' ->
     Room.phase (Table.room s') <> waiting ->
     exists p,
       at_index (Room.players (Table.room s'))
         (Room.currentPlayerIndex (Table.room s')) = Some p /\
       eligible p = true).
Proof.
  induction fuel as [|fuel [IH1 IH2]]; [by split|]. split.
  - intros s s' H Hph. cbn [nextPlayer] in H.
    destruct (scan (Table.room s)) as [i| |] eqn:Hscan; try discriminate.
    + injection H as <-. cbn. by apply scan_loop_Found in Hscan.
    + by apply (IH2 _ _ H).
  - intros s s' H Hph. cbn [nextPhase] in H.
    change (Room.phase (reset_bets (Table.room s)))
      with (Room.phase (Table.room s)) in H.
    destruct (Room.phase (Table.room s)); try by apply (IH1 _ _ H).
    exfalso. apply Hph. unfold endGame in H.
    destruct (_ =? _)%nat; destruct (at_index _ _); try discriminate;
      destruct (_ !! _); try discriminate; by injection H as <-.
Qed.

(** The turn advance in a running hand either only moves the turn, or moves
    the hand forward (to a later street or to its settlement) with every bet
    and currentBet cleared; the phase never goes back. *)
Lemma nextPlayer_moves_forward (fuel : nat) :
  (forall s s', nextPlayer random fuel s = Ok s' ->
     in_hand (Room.phase (Table.room s)) = true ->
     (exists i, Table.room s' = Room.set_currentPlayerIndex i (Table.room s)) \/
     ((streets_left (Room.phase (Table.room s'))
       < streets_left (Room.phase (Table.room s)))%nat /\
      Forall (fun p => Player.bet p = 0) (Room.players (Table.room s')) /\
      Room.currentBet (Table.room s') = 0)) /\
  (forall s s', nextPhase random fuel s = Ok s' ->
     in_hand (Room.phase (Table.room s)) = true ->
     (streets_left (Room.phase (Table.room s'))
      < streets_left (Room.phase (Table.room s)))%nat /\
     Forall (fun p => Player.bet p = 0) (Room.players (Table.room s')) /\
     Room.currentBet (Table.room s') = 0).
Proof.
  assert (forall ps, Forall (fun p => Player.bet p = 0)
                       (List.map (Player.set_bet 0) ps)) as Hzero.
  { induction ps; constructor; done. }
  induction fuel as [|fuel [IH1 IH2]]; [by split|]. split.
  - intros s s' H Hin. cbn [nextPlayer] in H.
    destruct (scan (Table.room s)) as [i| |]; try discriminate.
    + injection H as <-. left. by exists i.
    + right. by apply (IH2 _ _ H).
  - intros s s' H Hin. cbn [nextPhase] in H.
    change (Room.phase (reset_bets (Table.room s)))
      with (Room.phase (Table.room s)) in H.
    assert (forall n ph,
      in_hand ph = true ->
      (streets_left ph < streets_left (Room.phase (Table.room s)))%nat ->
      nextPlayer random fuel
        (Table.set_room
           (Room.set_currentPlayerIndex
              (Room.dealerIndex
                 (deal_community n (Room.set_phase ph (reset_bets (Table.room s)))))
              (deal_community n (Room.set_phase ph (reset_bets (Table.room s)))))
           s) = Ok s' ->
      (streets_left (Room.phase (Table.room s'))
       < streets_left (Room.phase (Table.room s)))%nat /\
      Forall (fun p => Player.bet p = 0) (Room.players (Table.room s')) /\
      Room.currentBet (Table.room s') = 0) as Hstreet.
    { intros n ph Hph Hlt H0.
      destruct (deal_community_fields n
                  (Room.set_phase ph (reset_bets (Table.room s))))
        as (Hps & _ & Hphase & Hcb & _).
      assert (in_hand (Room.phase (Table.room
                (Table.set_room
                   (Room.set_currentPlayerIndex
                      (Room.dealerIndex
                         (deal_community n
                            (Room.set_phase ph (reset_bets (Table.room s)))))
                      (deal_community n
                         (Room.set_phase ph (reset_bets (Table.room s)))))
                   s))) = true) as Hin'.
      { cbn. by rewrite Hphase. }
      destruct (IH1 _ _ H0 Hin') as [[i ->]|(Hlt' & Hbets & Hcb')].
      - change (streets_left ph < streets_left (Room.phase (Table.room s)))%nat
          with (streets_left ph < streets_left (Room.phase (Table.room s)))%nat in Hlt.
        cbn [Table.room Table.set_room Room.set_currentPlayerIndex Room.phase
             Room.players Room.currentBet].
        rewrite Hps, Hphase, Hcb. cbn. by repeat split.
      - cbn in Hlt'. rewrite Hphase in Hlt'. cbn in Hlt'.
        split; [lia|done]. }
    destruct (Room.phase (Table.room s)) eqn:Hphase; try discriminate.
    + apply (Hstreet 3%nat flop); [done|cbn; lia|done].
    + apply (Hstreet 1%nat turn); [done|cbn; lia|done].
    + apply (Hstreet 1%nat river); [done|cbn; lia|done].
    + unfold endGame in H.
      destruct (_ =? _)%nat; destruct (at_index _ _); try discriminate;
        destruct (_ !! _) as [winner|] eqn:Hw; try discriminate;
        injection H as <-; cbn.
      all: split; [lia|]. all: split; [|done].
      all: apply Forall_insert; [apply Hzero|].
      all: apply list_elem_of_lookup_2 in Hw; cbn in Hw.
      all: pose proof (Hzero (Room.players (Table.room s))) as Hz.
      all: rewrite Forall_forall in Hz; change (Player.bet winner = 0); by apply Hz.
Qed.
End Engine.

(** ** When nobody can act *)

Lemma reset_bets_twice (ps : list Player.t) :
  List.map (Player.set_bet 0) (List.map (Player.set_bet 0) ps)
  = List.map (Player.set_bet 0) ps.
Proof. induction ps as [|p ps IH]; cbn; [done|]. by rewrite IH. Qed.

(** With nobody eligible in a running hand the remaining streets are dealt
    without a stop and endGame is called on the room in phase showdown, the
    bets cleared, the pot and the dealer as they were. *)
Lemma nobody_eligible_runs_out (fuel : nat) :
  (forall s,
     in_hand (Room.phase (Table.room s)) = true ->
     (2 * streets_left (Room.phase (Table.room s)) <= fuel)%nat ->
     (-1 <= Room.currentPlayerIndex (Table.room s))%Z ->
     (0 <= Room.dealerIndex (Table.room s))%Z ->
     (0 < length (Room.players (Table.room s)))%nat ->
     nobody_eligible (Room.players (Table.room s)) ->
     exists room_end,
       (forall random,
          nextPlayer random fuel s = endGame random (Table.set_room room_end s)) /\
       Room.players room_end
         = List.map (Player.set_bet 0) (Room.players (Table.room s)) /\
       Room.pot room_end = Room.pot (Table.room s) /\
       Room.phase room_end = showdown /\
       Room.dealerIndex room_end = Room.dealerIndex (Table.room s)) /\
  (forall s,
     in_hand (Room.phase (Table.room s)) = true ->
     (2 * streets_left (Room.phase (Table.room s)) <= S fuel)%nat ->
     (0 <= Room.dealerIndex (Table.room s))%Z ->
     (0 < length (Room.players (Table.room s)))%nat ->
     nobody_eligible (Room.players (Table.room s)) ->
     exists room_end,
       (forall random,
          nextPhase random fuel s = endGame random (Table.set_room room_end s)) /\
       Room.players room_end
         = List.map (Player.set_bet 0) (Room.players (Table.room s)) /\
       Room.pot room_end = Room.pot (Table.room s) /\
       Room.phase room_end = showdown /\
       Room.dealerIndex room_end = Room.dealerIndex (Table.room s)).
Proof.
  induction fuel as [|fuel [IH1 IH2]].
  - split; intros s Hin Hfuel; exfalso;
      destruct (Room.phase (Table.room s)); try discriminate; cbn in Hfuel; lia.
  - split.
    + intros s Hin Hfuel Hcpi Hd HN Hnone.
      destruct (IH2 s Hin Hfuel Hd HN Hnone) as (room_end & Hrun & Hrest).
      exists room_end. split; [|done]. intros random. cbn [nextPlayer].
      by rewrite scan_nobody_eligible.
    + intros s Hin Hfuel Hd HN Hnone.
      pose proof (nobody_eligible_reset _ Hnone) as Hnone'.
      assert (forall n ph,
        in_hand ph = true ->
        (2 * streets_left ph <= fuel)%nat ->
        exists room_end,
          (forall random,
             nextPlayer random fuel
               (Table.set_room
                  (Room.set_currentPlayerIndex
                     (Room.dealerIndex
                        (deal_community n (Room.set_phase ph (reset_bets (Table.room s)))))
                     (deal_community n (Room.set_phase ph (reset_bets (Table.room s)))))
                  s) = endGame random (Table.set_room room_end s)) /\
          Room.players room_end
            = List.map (Player.set_bet 0) (Room.players (Table.room s)) /\
          Room.pot room_end = Room.pot (Table.room s) /\
          Room.phase room_end = showdown /\
          Room.dealerIndex room_end = Room.dealerIndex (Table.room s))
        as Hstreet.
      { intros n ph Hph Hfuel'.
        destruct (deal_community_fields n
                    (Room.set_phase ph (reset_bets (Table.room s))))
          as (Hps & Hpot & Hphase & _ & Hdealer & _).
        destruct (IH1
          (Table.set_room
             (Room.set_currentPlayerIndex
                (Room.dealerIndex
                   (deal_community n (Room.set_phase ph (reset_bets (Table.room s)))))
                (deal_community n (Room.set_phase ph (reset_bets (Table.room s)))))
             s))
          as (room_end & Hrun & Hpl & Hp & Hsh & Hdl).
        1-6: cbn [Table.room Table.set_room Room.set_currentPlayerIndex Room.phase
                  Room.currentPlayerIndex Room.dealerIndex Room.players].
        1-6: rewrite ?Hps, ?Hphase, ?Hdealer; cbn; rewrite ?length_map;
          try done; try lia.
        exists room_end. split; [exact Hrun|].
        cbn [Table.room Table.set_room Room.set_currentPlayerIndex Room.phase
             Room.currentPlayerIndex Room.dealerIndex Room.players Room.pot]
          in Hpl, Hp, Hdl.
        rewrite Hps in Hpl. rewrite Hpot in Hp. rewrite Hdealer in Hdl.
        cbn in Hpl, Hp, Hdl. rewrite reset_bets_twice in Hpl. done. }
      cbn [nextPhase].
      change (Room.phase (reset_bets (Table.room s)))
        with (Room.phase (Table.room s)).
      destruct (Room.phase (Table.room s)) eqn:Hphase; try discriminate.
      * apply (Hstreet 3%nat flop); [done|cbn in *; lia].
      * apply (Hstreet 1%nat turn); [done|cbn in *; lia].
      * apply (Hstreet 1%nat river); [done|cbn in *; lia].
      * exists (Room.set_phase showdown (reset_bets (Table.room s))).
        split; [done|]. done.
Qed.

(** Outside a hand (phase waiting or showdown) with nobody eligible,
    nextPlayer and nextPhase call each other without an end. *)
Lemma between_hands_loop (random : nat -> Q) (fuel : nat) :
  (forall s,
     in_hand (Room.phase (Table.room s)) = false ->
     (0 < length (Room.players (Table.room s)))%nat ->
     (-1 <= Room.currentPlayerIndex (Table.room s))%Z ->
     (0 <= Room.dealerIndex (Table.room s))%Z ->
     nobody_eligible (Room.players (Table.room s)) ->
     nextPlayer random fuel s = OutOfFuel) /\
  (forall s,
     in_hand (Room.phase (Table.room s)) = false ->
     (0 < length (Room.players (Table.room s)))%nat ->
     (0 <= Room.dealerIndex (Table.room s))%Z ->
     nobody_eligible (Room.players (Table.room s)) ->
     nextPhase random fuel s = OutOfFuel).
Proof.
  induction fuel as [|fuel [IH1 IH2]]; [by split|]. split.
  - intros s Hin HN Hcpi Hd Hnone. cbn [nextPlayer].
    rewrite scan_nobody_eligible by done. by apply IH2.
  - intros s Hin HN Hd Hnone. cbn [nextPhase].
    change (Room.phase (reset_bets (Table.room s)))
      with (Room.phase (Table.room s)).
    pose proof (nobody_eligible_reset _ Hnone) as Hnone'.
    destruct (Room.phase (Table.room s)) eqn:Hphase; try discriminate.
    all: apply IH1; cbn; rewrite ?length_map, ?Hphase; try done; lia.
Qed.

Lemma nobody_eligible_insert (ps : list Player.t) (i : nat) (p : Player.t) :
  eligible p = false -> nobody_eligible ps -> nobody_eligible (<[i := p]> ps).
Proof. intros Hp Hps. by apply Forall_insert. Qed.

Lemma folded_not_eligible (p : Player.t) :
  Player.folded p = true -> eligible p = false.
Proof. unfold eligible. by intros ->. Qed.

Section NobodyCanAct.
Variable random : nat -> Q.

(** When the player in turn folds and every other seated player has folded
    already, the handler throws: the streets left are dealt, endGame finds
    no player who has not folded and reads the userId of undefined. *)
Theorem last_fold_throws (fuel : nat) (uid : option string)
    (amount : option Z) (i : nat) (player : Player.t) (s : Table.t) :
  in_hand (Room.phase (Table.room s)) = true ->
  (-1 <= Room.currentPlayerIndex (Table.room s))%Z ->
  (0 <= Room.dealerIndex (Table.room s))%Z ->
  Room.players (Table.room s) !! i = Some player ->
  (forall j q, j <> i -> Room.players (Table.room s) !! j = Some q ->
     Player.folded q = true) ->
  act random (8 + fuel) uid "fold" amount i player s = TypeError.
Proof.
  intros Hin Hcpi Hd Hi Hothers. unfold act, action_switch.
  change (String.eqb "fold" "fold") with true. cbv iota.
  assert (Forall (fun p => Player.folded p = true)
            (<[i := Player.set_folded true player]> (Room.players (Table.room s))))
    as Hall.
  { apply Forall_lookup. intros j q Hq.
    destruct (decide (j = i)) as [->|Hne].
    - rewrite list_lookup_insert_eq in Hq by (by eapply lookup_lt_Some).
      by injection Hq as <-.
    - rewrite list_lookup_insert_ne in Hq by done. by eapply Hothers. }
  destruct (proj1 (nobody_eligible_runs_out (8 + fuel))
              (Table.set_room
                 (Room.set_players
                    (<[i := Player.set_folded true player]>
                       (Room.players (Table.room s)))
                    (Table.room s)) s))
    as (room_end & Hrun & Hps & _).
  - done.
  - cbn. destruct (Room.phase (Table.room s)); cbn; lia.
  - done.
  - done.
  - cbn. rewrite length_insert. apply lookup_lt_Some in Hi. lia.
  - cbn. eapply Forall_impl; [exact Hall|]. intros q. apply folded_not_eligible.
  - rewrite Hrun. apply endGame_all_folded_throws. cbn. rewrite Hps. cbn.
    apply Forall_forall. intros q (q0 & -> & Hq0)%list_elem_of_fmap.
    rewrite Forall_forall in Hall. by apply (Hall q0).
Qed.

(** Outside a hand (phase waiting or showdown), in a room where no seated
    player is eligible, nextPlayer never returns, whatever the depth of
    calls allowed; so the fold of the current player, which the handler
    accepts in any phase, never returns either. *)
Theorem between_hands_never_returns (s : Table.t) :
  in_hand (Room.phase (Table.room s)) = false ->
  (-1 <= Room.currentPlayerIndex (Table.room s))%Z ->
  (0 <= Room.dealerIndex (Table.room s))%Z ->
  nobody_eligible (Room.players (Table.room s)) ->
  (0 < length (Room.players (Table.room s)))%nat ->
  (forall fuel, nextPlayer random fuel s = OutOfFuel) /\
  (forall fuel uid amount i player,
     act random fuel uid "fold" amount i player s = OutOfFuel).
Proof.
  intros Hin Hcpi Hd Hnone HN. split.
  - intros fuel. by apply (proj1 (between_hands_loop random fuel)).
  - intros fuel uid amount i player. unfold act, action_switch.
    change (String.eqb "fold" "fold") with true. cbv iota.
    apply (proj1 (between_hands_loop random fuel)); cbn;
      rewrite ?length_insert; try done.
    by apply nobody_eligible_insert.
Qed.

(** In a room whose hand is running the player-action handler returns or
    throws: eight nested calls of nextPlayer and nextPhase are enough. *)
Theorem player_action_returns_in_hand (fuel : nat) (w : World.t)
    (socket : Socket.t) (action : string) (amount : option Z) :
  (forall roomId room,
     Socket.currentRoom socket = Some roomId ->
     World.gameRooms w !! roomId = Some room ->
     in_hand (Room.phase room) = true) ->
  player_action random (8 + fuel) w socket action amount <> OutOfFuel.
Proof.
  intros Hin.
  destruct (player_action_passes_guard random (8 + fuel) w socket action amount)
    as [->|(roomId & room & player & Hroom & Hlook & _ & _ & ->)]; [done|].
  pose proof (act_returns random fuel (Socket.userId socket) action amount
                (Z.to_nat (Room.currentPlayerIndex room)) player (focus w room)
                (Hin _ _ Hroom Hlook)) as Hret.
  by destruct (act random (8 + fuel) _ _ _ _ _ _).
Qed.

(** After an action that the handler completes, unless the hand was
    settled (phase waiting), the current player is a seated player who has
    not folded, is not all-in and has chips. *)
Theorem act_leaves_turn_with_player_who_can_act (fuel : nat)
    (uid : option string) (action : string) (amount : option Z) (i : nat)
    (player : Player.t) (s s' : Table.t) :
  act random fuel uid action amount i player s = Ok s' ->
  Room.phase (Table.room s') <> waiting ->
  exists p,
    at_index (Room.players (Table.room s'))
      (Room.currentPlayerIndex (Table.room s')) = Some p /\
    Player.folded p = false /\ Player.allIn p = false /\ 0 < Player.chips p.
Proof.
  unfold act. intros H Hph.
  destruct (action_switch _ _ _ _ _ _) as [s1| |]; try discriminate.
  destruct (proj1 (nextPlayer_current_eligible random fuel) _ _ H Hph)
    as (p & Hp & He).
  exists p. split; [done|]. unfold eligible in He.
  destruct (Player.folded p); [done|]. destruct (Player.allIn p); [done|].
  cbn in He. by apply Qltb_lt in He.
Qed.

(** An action in a running hand never takes the room back: the phase stays
    as it is, or it moves to a later street or to the settlement, and then
    every bet and currentBet are 0. *)
Theorem act_moves_forward (fuel : nat) (uid : option string)
    (action : string) (amount : option Z) (i : nat) (player : Player.t)
    (s s' : Table.t) :
  act random fuel uid action amount i player s = Ok s' ->
  in_hand (Room.phase (Table.room s)) = true ->
  Room.phase (Table.room s') = Room.phase (Table.room s) \/
  ((streets_left (Room.phase (Table.room s'))
    < streets_left (Room.phase (Table.room s)))%nat /\
   Forall (fun p => Player.bet p = 0) (Room.players (Table.room s')) /\
   Room.currentBet (Table.room s') = 0).
Proof.
  unfold act. intros H Hin.
  destruct (action_switch _ _ _ _ _ _) as [s1| |] eqn:Hswitch; try discriminate.
  apply action_switch_phase in Hswitch.
  destruct (proj1 (nextPlayer_moves_forward random fuel) _ _ H)
    as [[k ->]|Hnext].
  - by rewrite Hswitch.
  - left. cbn. done.
  - right. by rewrite <- Hswitch.
Qed.
End NobodyCanAct.

(** ** Sums of bets *)

Lemma same_stake_total_bets (ps ps' : list Player.t) :
  Forall2 same_stake ps ps' -> total_bets ps' = total_bets ps.
Proof.
  induction 1 as [|p p' ps ps' [cs ->] _ IH]; [done|].
  unfold total_bets in *. cbn. by rewrite IH.
Qed.

(** ** What clients are sent of the deck *)

Lemma deal_community_order (n : nat) (r : Room.t) :
  Room.communityCards (deal_community n r)
    = (Room.communityCards r
       ++ rev (drop (length (Room.deck r) - n) (Room.deck r)))%list /\
  Room.deck (deal_community n r) = take (length (Room.deck r) - n) (Room.deck r).
Proof.
  revert r. induction n as [|n IH]; intros r.
  - cbn. rewrite Nat.sub_0_r, drop_all, take_ge by lia. cbn.
    by rewrite app_nil_r.
  - cbn [deal_community]. destruct (pop (Room.deck r)) as [[c deck']|] eqn:Hpop.
    + apply pop_Some in Hpop. destruct (IH (Room.set_deck deck'
                 (Room.set_communityCards (Room.communityCards r ++ [c]) r)))
        as [-> ->].
      cbn [Room.deck Room.communityCards Room.set_deck Room.set_communityCards].
      rewrite Hpop, length_app. cbn [length].
      replace (length deck' + 1 - S n)%nat with (length deck' - n)%nat by lia.
      rewrite drop_app_le, take_app_le by lia.
      rewrite rev_app_distr. cbn. by rewrite <- app_assoc.
    + apply pop_None in Hpop. destruct (IH r) as [-> ->]. rewrite Hpop.
      cbn. by destruct n.
Qed.

(** The room a client is sent holds the deck as the server has it, in the
    copy made for one recipient and in the copy broadcast to the room
    (game-started, game-ended) alike; and the community cards dealt next
    are the last cards of that deck, last card first. *)
Theorem client_room_holds_the_deck (room : Room.t) (userId : string) (n : nat) :
  ClientRoom.deck (sanitizeRoomForClient room userId) = Room.deck room /\
  ClientRoom.deck (sanitizeRoomForClients room) = Room.deck room /\
  Room.communityCards (deal_community n room)
    = (Room.communityCards room
       ++ rev (drop (length (Room.deck room) - n)
                 (ClientRoom.deck (sanitizeRoomForClient room userId))))%list.
Proof.
  split; [done|]. split; [done|]. apply deal_community_order.
Qed.

(** ** Leaving in the middle of a hand *)

Section LeaveInTurn.
Variable random : nat -> Q.

(** leaveCurrentRoom removes the seat and leaves currentPlayerIndex as it
    is.  So when the player in turn sits at the last seat and leaves, with
    others still seated, the index points past the last seat, and from then
    on every player-action sent in the room is ignored: nobody is in turn. *)
Theorem leave_in_turn_at_last_seat (w : World.t) (socket : Socket.t)
    (roomId : string) (room : Room.t) (others : list Player.t)
    (leaver : Player.t) :
  Socket.currentRoom socket = Some roomId ->
  roomId <> "" ->
  World.gameRooms w !! roomId = Some room ->
  Room.players room = (others ++ [leaver])%list ->
  others <> [] ->
  Forall (fun p => Player.socketId p <> Socket.id socket) others ->
  Player.socketId leaver = Socket.id socket ->
  Room.currentPlayerIndex room = Z.of_nat (length others) ->
  let w' := (leaveCurrentRoom w socket).1 in
  World.gameRooms w' !! roomId = Some (Room.set_players others room) /\
  forall fuel socket2 action amount,
    Socket.currentRoom socket2 = Some roomId ->
    player_action random fuel w' socket2 action amount = Ok w'.
Proof.
  intros Hcur Hid Hroom Hps Hne Hothers Hleaver Hcpi. cbv zeta.
  assert (World.gameRooms (leaveCurrentRoom w socket).1 !! roomId
          = Some (Room.set_players others room)) as Hlook.
  { unfold leaveCurrentRoom.
    rewrite Hcur, (proj2 (String.eqb_neq _ _) Hid), Hroom, Hps.
    unfold findIndex. rewrite findIndex_from_app.
    - rewrite Z.add_0_l.
      destruct (Z.eqb_spec (Z.of_nat (length others)) (-1)); [lia|].
      rewrite Nat2Z.id, delete_last_snoc.
      cbn [Room.players Room.set_players fst World.gameRooms].
      destruct others as [|p ps]; [done|]. cbn [length Nat.eqb].
      by rewrite lookup_insert_eq.
    - eapply Forall_impl; [exact Hothers|]. intros p Hp.
      apply not_true_is_false. by intros ?%has_socket_true.
    - by apply has_socket_true. }
  split; [exact Hlook|].
  intros fuel socket2 action amount Hcur2.
  destruct (player_action_passes_guard random fuel
              (leaveCurrentRoom w socket).1 socket2 action amount)
    as [->|(roomId0 & room0 & player & Hr0 & Hl0 & Hat & _)]; [done|].
  exfalso. rewrite Hcur2 in Hr0. injection Hr0 as <-.
  rewrite Hlook in Hl0. injection Hl0 as <-.
  cbn [Room.players Room.currentPlayerIndex Room.set_players] in Hat.
  rewrite Hcpi, at_index_nat in Hat.
  apply lookup_lt_Some in Hat. lia.
Qed.
End LeaveInTurn.

(** ** Binary64 on integers *)

Lemma round_half_even_proper (q q' : Q) :
  q == q' -> Binary64.round_half_even q = Binary64.round_half_even q'.
Proof.
  intros H. unfold Binary64.round_half_even.
  rewrite (Qfloor_comp _ _ H).
  assert (q - inject_Z (Qfloor q') == q' - inject_Z (Qfloor q')) as H1
    by (rewrite H; reflexivity).
  by rewrite (Qcompare_comp _ _ H1 _ _ (Qeq_refl (1 # 2))).
Qed.

Lemma round_half_even_integer (z : Z) :
  Binary64.round_half_even (inject_Z z) = z.
Proof.
  unfold Binary64.round_half_even. rewrite Qfloor_Z.
  assert (inject_Z z - inject_Z z < 1 # 2) as H by lra.
  by rewrite (proj1 (Qlt_alt _ _) H).
Qed.

Lemma ilog2_proper (q q' : Q) : q == q' -> Binary64.ilog2 q = Binary64.ilog2 q'.
Proof.
  intros H. unfold Binary64.ilog2. by rewrite (Qred_complete _ _ H).
Qed.

Lemma round_proper (q q' : Q) : q == q' -> Binary64.round q = Binary64.round q'.
Proof.
  intros H. unfold Binary64.round, Binary64.ulp.
  assert (Qabs q == Qabs q') as Habs by (by rewrite H).
  rewrite (ilog2_proper _ _ Habs).
  assert (Qeq_bool q 0 = Qeq_bool q' 0) as ->.
  { destruct (Qeq_bool q 0) eqn:E1, (Qeq_bool q' 0) eqn:E2; try done.
    - apply Qeq_bool_iff in E1. apply Qeq_bool_neq in E2. rewrite H in E1. done.
    - apply Qeq_bool_iff in E2. apply Qeq_bool_neq in E1. rewrite H in E1. done. }
  destruct (Qeq_bool q' 0); [done|].
  set (u := 2 ^ _).
  assert (q / u == q' / u) as Hdiv by (by rewrite H).
  by rewrite (round_half_even_proper _ _ Hdiv).
Qed.

Lemma Qred_integer (z : Z) : Qred (inject_Z z) = inject_Z z.
Proof.
  pose proof (Qred_correct (inject_Z z)) as Heq.
  pose proof (gcd_Qred (inject_Z z)) as Hgcd.
  destruct (Qred (inject_Z z)) as [n d]. unfold Qeq, inject_Z in *. cbn in *.
  assert (Z.pos d = 1)%Z as Hd.
  { rewrite <- Hgcd. symmetry. apply Z.gcd_unique; [lia| |apply Z.divide_refl|].
    - exists z. lia.
    - intros q _ Hq. exact Hq. }
  assert (d = 1%positive) as -> by lia. f_equal. lia.
Qed.

Lemma ilog2_integer (z : Z) :
  (0 < z)%Z -> Binary64.ilog2 (inject_Z z) = Z.log2 z.
Proof.
  intros Hz. unfold Binary64.ilog2. rewrite Qred_integer.
  cbn [Qnum Qden inject_Z]. change (Z.log2 1) with 0%Z. rewrite Z.sub_0_r.
  assert (Qle_bool (2 ^ Z.log2 z) (inject_Z z) = true) as ->; [|done].
  apply Qle_bool_iff.
  pose proof (Z.log2_nonneg z) as Hnn.
  change 2 with (inject_Z 2).
  rewrite <- (Zpower_Qpower 2 (Z.log2 z) Hnn), <- Zle_Qle.
  apply Z.log2_spec. done.
Qed.

(** Rounding leaves alone the integers below 2^53 in magnitude. *)
Lemma round_integer (z : Z) :
  (Z.abs z < 2 ^ 53)%Z -> Binary64.round (inject_Z z) == inject_Z z.
Proof.
  intros Hz. unfold Binary64.round.
  destruct (Qeq_bool (inject_Z z) 0) eqn:E.
  { apply Qeq_bool_iff in E. by rewrite E. }
  apply Qeq_bool_neq in E. rewrite Qred_correct.
  assert (z <> 0%Z) as Hz0 by (intros ->; by apply E).
  unfold Binary64.ulp.
  assert (Qabs (inject_Z z) = inject_Z (Z.abs z)) as -> by (by destruct z).
  rewrite ilog2_integer by lia.
  set (e := Z.log2 (Z.abs z)).
  assert (0 <= e < 53)%Z as He.
  { subst e. split; [apply Z.log2_nonneg|]. apply Z.log2_lt_pow2; lia. }
  rewrite Z.max_l by lia.
  assert (inject_Z z / 2 ^ (e - 52) == inject_Z (z * 2 ^ (52 - e))) as Hm.
  { rewrite inject_Z_mult, Zpower_Qpower by lia.
    replace (e - 52)%Z with (- (52 - e))%Z by lia.
    rewrite Qpower_opp. change (inject_Z 2) with 2.
    unfold Qdiv. by rewrite Qinv_involutive. }
  rewrite (round_half_even_proper _ _ Hm), round_half_even_integer.
  rewrite inject_Z_mult, Zpower_Qpower by lia. change (inject_Z 2) with 2.
  rewrite <- Qmult_assoc, <- Qpower_plus by done.
  replace (52 - e + (e - 52))%Z with 0%Z by lia. cbn. lra.
Qed.

Lemma add_integers (x y : Q) (a b : Z) :
  x == inject_Z a -> y == inject_Z b -> (Z.abs (a + b) < 2 ^ 53)%Z ->
  Binary64.add x y == inject_Z (a + b).
Proof.
  intros Hx Hy Hab. unfold Binary64.add.
  assert (x + y == inject_Z (a + b)) as H by (rewrite inject_Z_plus, Hx, Hy; reflexivity).
  rewrite (round_proper _ _ H). by apply round_integer.
Qed.

Lemma sub_integers (x y : Q) (a b : Z) :
  x == inject_Z a -> y == inject_Z b -> (Z.abs (a - b) < 2 ^ 53)%Z ->
  Binary64.sub x y == inject_Z (a - b).
Proof.
  intros Hx Hy Hab. unfold Binary64.sub.
  assert (x - y == inject_Z (a - b)) as H.
  { unfold Z.sub. rewrite inject_Z_plus, inject_Z_opp, Hx, Hy. reflexivity. }
  rewrite (round_proper _ _ H). by apply round_integer.
Qed.

Lemma small_integer (q : Q) :
  small q = true -> exists z, q == inject_Z z /\ (Z.abs z <= 2 ^ 50)%Z.
Proof.
  unfold small. intros [Hd Hn]%andb_prop.
  apply Z.eqb_eq in Hd. apply Z.leb_le in Hn.
  exists (Qnum (Qred q)). split; [|done].
  rewrite <- (Qred_correct q) at 1.
  destruct (Qred q) as [n d]. cbn in *. unfold Qeq. cbn. lia.
Qed.

Lemma integer_small (z : Z) : (Z.abs z <= 2 ^ 50)%Z -> small (inject_Z z) = true.
Proof.
  intros Hz. unfold small. rewrite Qred_integer. cbn.
  by apply Z.leb_le.
Qed.

(** Math.min of two integers. *)
Lemma Math_min_integers (x y : Q) (a b : Z) :
  x == inject_Z a -> y == inject_Z b -> Math_min x y == inject_Z (Z.min a b).
Proof.
  intros Hx Hy. destruct (Math_min_spec x y) as [[Hle ->]|[Hlt ->]].
  - rewrite Hx, Hy in Hle. rewrite <- Zle_Qle in Hle. by rewrite Z.min_l.
  - rewrite Hx, Hy in Hlt. rewrite <- Zlt_Qlt in Hlt. rewrite Z.min_r by lia. done.
Qed.

(** The rounding at work: 2^53 + 1 is a tie and goes to the even 2^53,
    the odd 9007199254750891 goes to its even neighbour above, and
    0.1 + 0.2, each rounded first, is 0.1000000000000000055511151231257827
    + 0.2000000000000000111022302462515654 rounded, which is
    0.3000000000000000444089209850062616. *)
Lemma binary64_examples :
  Binary64.round (inject_Z (2 ^ 53 + 1)) == inject_Z (2 ^ 53) /\
  Binary64.round 9007199254750891 == 9007199254750892 /\
  Binary64.sub 9007199254750890 5 == 9007199254750884 /\
  Binary64.round (1 # 10) == 3602879701896397 # 36028797018963968 /\
  Binary64.add (Binary64.round (1 # 10)) (Binary64.round (2 # 10))
  == 5404319552844596 # 18014398509481984.
Proof. repeat split; vm_compute; reflexivity. Qed.

(** ** The start of a hand in the arithmetic of the program *)

Lemma js_forEach_blinds_cons (r : Room.t) (i0 : Z) (p : Player.t)
    (ps : list Player.t) (pot : Q) (us : gmap string User.t) :
  Js.forEach_blinds r i0 (p :: ps) pot us =
    let one := Js.reset_and_blind r i0 p pot us in
    let rest := Js.forEach_blinds r (i0 + 1) ps one.1.2 one.2 in
    (one.1.1 :: rest.1.1, rest.1.2, rest.2).
Proof.
  cbn [Js.forEach_blinds].
  destruct (Js.reset_and_blind r i0 p pot us) as [[p' pot'] us']. cbn.
  by destruct (Js.forEach_blinds r (i0 + 1) ps pot' us') as [[rest' pot''] us''].
Qed.

Lemma js_reset_and_blind_player (r : Room.t) (index : Z) (p : Player.t)
    (pot pot' : Q) (us us' : gmap string User.t) :
  (Js.reset_and_blind r index p pot us).1.1
  = (Js.reset_and_blind r index p pot' us').1.1.
Proof.
  unfold Js.reset_and_blind.
  by repeat match goal with |- context [Z.eqb ?a ?b] => destruct (Z.eqb a b) end.
Qed.

Lemma js_forEach_blinds_lookup (r : Room.t) (i0 : Z) (ps : list Player.t)
    (pot : Q) (us : gmap string User.t) (k : nat) :
  (Js.forEach_blinds r i0 ps pot us).1.1 !! k =
  (fun p => (Js.reset_and_blind r (i0 + Z.of_nat k) p 0 ∅).1.1) <$> ps !! k.
Proof.
  revert i0 pot us k. induction ps as [|p ps IH]; intros i0 pot us k; [done|].
  rewrite js_forEach_blinds_cons. cbn [fst snd]. destruct k as [|k].
  - cbn. rewrite Z.add_0_r. f_equal. apply js_reset_and_blind_player.
  - replace (i0 + Z.of_nat (S k))%Z with (i0 + 1 + Z.of_nat k)%Z by lia.
    apply IH.
Qed.

Lemma js_forEach_blinds_length (r : Room.t) (i0 : Z) (ps : list Player.t)
    (pot : Q) (us : gmap string User.t) :
  length (Js.forEach_blinds r i0 ps pot us).1.1 = length ps.
Proof.
  revert i0 pot us. induction ps as [|p ps IH]; intros i0 pot us; [done|].
  rewrite js_forEach_blinds_cons. cbn. by rewrite IH.
Qed.

Lemma js_forEach_blinds_ext (r r' : Room.t) (i0 : Z) (ps : list Player.t)
    (pot : Q) (us : gmap string User.t) :
  Room.dealerIndex r = Room.dealerIndex r' ->
  Room.players r = Room.players r' ->
  Room.smallBlind r = Room.smallBlind r' ->
  Room.bigBlind r = Room.bigBlind r' ->
  Js.forEach_blinds r i0 ps pot us = Js.forEach_blinds r' i0 ps pot us.
Proof.
  intros Hd Hp Hs Hb. revert i0 pot us.
  induction ps as [|p ps IH]; intros i0 pot us; [done|].
  cbn [Js.forEach_blinds].
  assert (Js.reset_and_blind r i0 p pot us = Js.reset_and_blind r' i0 p pot us)
    as ->.
  { unfold Js.reset_and_blind, players_count. by rewrite Hd, Hp, Hs, Hb. }
  destruct (Js.reset_and_blind r' i0 p pot us) as [[p' pot'] us'].
  by rewrite IH.
Qed.

(** One seat of the forEach, for small blinds and small chips: the chips
    the player gives are the bet, and they are what the pot gets. *)
Lemma js_reset_and_blind_exact (r : Room.t) (index : Z) (p : Player.t)
    (pot : Q) (us : gmap string User.t) (zp : Z) :
  small (Room.smallBlind r) = true ->
  small (Room.bigBlind r) = true ->
  small (Player.chips p) = true ->
  pot == inject_Z zp -> (Z.abs zp <= 2 * 2 ^ 50)%Z ->
  let one := Js.reset_and_blind r index p pot us in
  Player.chips one.1.1 + Player.bet one.1.1 == Player.chips p /\
  one.1.2 == pot + Player.bet one.1.1 /\
  exists zb, Player.bet one.1.1 == inject_Z zb /\ (Z.abs zb <= 2 ^ 50)%Z /\
    (Player.bet one.1.1 == 0 \/
     (index = Z.rem (Room.dealerIndex r + 1) (players_count r))%Z \/
     (index = Z.rem (Room.dealerIndex r + 2) (players_count r))%Z /\
     (index <> Z.rem (Room.dealerIndex r + 1) (players_count r))%Z).
Proof.
  intros (zs & Hs & Hzs)%small_integer (zb & Hb & Hzb)%small_integer
    (zc & Hc & Hzc)%small_integer Hpot Hzp.
  assert (2 ^ 50 = 1125899906842624)%Z as E50 by reflexivity.
  assert (2 ^ 53 = 9007199254740992)%Z as E53 by reflexivity.
  cbv zeta. unfold Js.reset_and_blind.
  destruct (Z.eqb_spec index (Z.rem (Room.dealerIndex r + 1) (players_count r)));
    [|destruct (Z.eqb_spec index (Z.rem (Room.dealerIndex r + 2) (players_count r)))].
  - cbn. rewrite (sub_integers _ _ zc zs), (add_integers _ _ zp zs) by (done || lia).
    rewrite inject_Z_plus. unfold Z.sub. rewrite inject_Z_plus, inject_Z_opp.
    split; [lra|]. split; [lra|]. exists zs. split; [done|]. split; [done|].
    right. by left.
  - cbn. rewrite (sub_integers _ _ zc zb), (add_integers _ _ zp zb) by (done || lia).
    rewrite inject_Z_plus. unfold Z.sub. rewrite inject_Z_plus, inject_Z_opp.
    split; [lra|]. split; [lra|]. exists zb. split; [done|]. split; [done|].
    right. by right.
  - cbn. split; [lra|]. split; [lra|]. exists 0%Z. split; [done|].
    split; [lia|]. by left.
Qed.

(** The forEach over the seats i0, i0+1, ...: while the pot and the blinds
    still to be posted stay within 2 * 2^50, the pot grows by what the
    players' chips lose, and by the bets. *)
Lemma js_forEach_blinds_exact (r : Room.t) (ps : list Player.t) :
  small (Room.smallBlind r) = true ->
  small (Room.bigBlind r) = true ->
  forall (i0 : Z) (pot : Q) (us : gmap string User.t) (zp : Z),
  Forall (fun p => small (Player.chips p) = true) ps ->
  pot == inject_Z zp ->
  (Z.abs zp
   + ((if (i0 <=? Z.rem (Room.dealerIndex r + 1) (players_count r))%Z
          && (Z.rem (Room.dealerIndex r + 1) (players_count r)
              <? i0 + Z.of_nat (length ps))%Z
       then 1 else 0)
      + (if (i0 <=? Z.rem (Room.dealerIndex r + 2) (players_count r))%Z
            && (Z.rem (Room.dealerIndex r + 2) (players_count r)
                <? i0 + Z.of_nat (length ps))%Z
            && negb (Z.rem (Room.dealerIndex r + 2) (players_count r)
                     =? Z.rem (Room.dealerIndex r + 1) (players_count r))%Z
         then 1 else 0)) * 2 ^ 50
   <= 2 * 2 ^ 50)%Z ->
  (Js.forEach_blinds r i0 ps pot us).1.2
    + total_chips (Js.forEach_blinds r i0 ps pot us).1.1
  == pot + total_chips ps /\
  (Js.forEach_blinds r i0 ps pot us).1.2
  == pot + total_bets (Js.forEach_blinds r i0 ps pot us).1.1.
Proof.
  intros Hsb Hbb.
  set (i1 := Z.rem (Room.dealerIndex r + 1) (players_count r)).
  set (i2 := Z.rem (Room.dealerIndex r + 2) (players_count r)).
  assert (2 ^ 50 = 1125899906842624)%Z as E50 by reflexivity.
  induction ps as [|p ps IH]; intros i0 pot us zp Hsmall Hpot Hbound.
  - cbn. split; lra.
  - apply Forall_cons in Hsmall as [Hp Hps].
    rewrite js_forEach_blinds_cons. cbn [fst snd total_chips total_bets foldr].
    assert (Z.abs zp <= 2 * 2 ^ 50)%Z as Hzp.
    { revert Hbound. case_Z_tests; cbn [andb negb]; lia. }
    destruct (js_reset_and_blind_exact r i0 p pot us zp Hsb Hbb Hp Hpot Hzp)
      as (Hstake & Hpot1 & zb & Hbet & Hzb & Hcase).
    fold i1 i2 in Hcase.
    set (one := Js.reset_and_blind r i0 p pot us) in *.
    assert (one.1.2 == inject_Z (zp + zb)) as Hpot1'.
    { rewrite Hpot1, Hpot, Hbet, inject_Z_plus. reflexivity. }
    destruct (IH (i0 + 1)%Z one.1.2 one.2 (zp + zb)%Z Hps Hpot1') as [IHc IHb].
    { revert Hbound. cbn [length]. rewrite Nat2Z.inj_succ.
      destruct Hcase as [H0|[H1|[H2 H1]]].
      - assert (zb = 0%Z) as ->.
        { rewrite Hbet in H0. unfold Qeq in H0. cbn in H0. lia. }
        case_Z_tests; cbn [andb negb]; lia.
      - case_Z_tests; cbn [andb negb]; lia.
      - case_Z_tests; cbn [andb negb]; lia. }
    unfold total_chips, total_bets in *. split; lra.
Qed.

Section JsHandStart.
Variable random : nat -> Q.

(** The room Js.startNewGame leaves, for two players or more. *)
Lemma js_startNewGame_room (s : Table.t) :
  (2 <= players_count (Table.room s))%Z ->
  let room := Table.room s in
  let posted := Js.forEach_blinds room 0 (Room.players room) 0 (Table.users s) in
  let round1 := deal_round posted.1.1 (createDeck random (Table.rcalls s)).1 in
  let round2 := deal_round round1.1 round1.2 in
  Js.startNewGame random s =
    Table.mk
      (Room.mk (Room.id room) round2.1 round2.2 [] posted.1.2
         (Room.bigBlind room) (Room.bigBlind room) (Room.smallBlind room)
         (Room.dealerIndex room)
         (Z.rem (Room.dealerIndex room + 3) (Z.of_nat (length round2.1)))
         preflop (Room.maxPlayers room))
      posted.2 (createDeck random (Table.rcalls s)).2.
Proof.
  intros HN. cbv zeta. unfold Js.startNewGame.
  destruct (Z.ltb_spec (players_count (Table.room s)) 2); [lia|].
  destruct (createDeck random (Table.rcalls s)) as [deck k]. cbn.
  rewrite (js_forEach_blinds_ext _ (Table.room s)) by done.
  destruct (Js.forEach_blinds _ _ _ _ _) as [[ps pot] us]. cbn.
  destruct (deal_round ps deck) as [ps1 deck1]. cbn.
  destruct (deal_round ps1 deck1) as [ps2 deck2]. cbn.
  reflexivity.
Qed.

Lemma js_startNewGame_players (s : Table.t) :
  (2 <= players_count (Table.room s))%Z ->
  length (Room.players (Table.room (Js.startNewGame random s)))
    = length (Room.players (Table.room s)) /\
  forall (k : nat) (p : Player.t),
    Room.players (Table.room s) !! k = Some p ->
    exists cs,
      Room.players (Table.room (Js.startNewGame random s)) !! k =
        Some (Player.set_cards cs
                (Js.reset_and_blind (Table.room s) (Z.of_nat k) p 0 ∅).1.1).
Proof.
  intros HN. rewrite (js_startNewGame_room s HN). cbn [Table.room Room.players].
  set (posted := Js.forEach_blinds (Table.room s) 0 _ 0 _).
  set (deck := (createDeck random (Table.rcalls s)).1).
  destruct (deal_round_spec posted.1.1 deck) as [H1 _].
  destruct (deal_round_spec (deal_round posted.1.1 deck).1
              (deal_round posted.1.1 deck).2) as [H2 _].
  split.
  - rewrite <- (Forall2_length _ _ _ H2), <- (Forall2_length _ _ _ H1).
    apply js_forEach_blinds_length.
  - intros k p Hp.
    assert (posted.1.1 !! k =
            Some (Js.reset_and_blind (Table.room s) (Z.of_nat k) p 0 ∅).1.1) as Hk.
    { subst posted. rewrite js_forEach_blinds_lookup, Hp. reflexivity. }
    destruct (Forall2_lookup_l _ _ _ _ _ H1 Hk) as (p1 & Hp1 & Hs1).
    destruct (Forall2_lookup_l _ _ _ _ _ H2 Hp1) as (p2 & Hp2 & Hs2).
    destruct (same_stake_trans _ _ _ Hs1 Hs2) as [cs ->].
    by exists cs.
Qed.

(** Posting the blinds conserves the chips when the blinds and the chips
    of the players are small: pot + sum of chips after Js.startNewGame is
    the sum of the chips before, and the pot is the sum of the bets. *)
Lemma js_startNewGame_conserves (s : Table.t) :
  (2 <= players_count (Table.room s))%Z ->
  small (Room.smallBlind (Table.room s)) = true ->
  small (Room.bigBlind (Table.room s)) = true ->
  Forall (fun p => small (Player.chips p) = true) (Room.players (Table.room s)) ->
  chips_in_play (Table.room (Js.startNewGame random s))
    == total_chips (Room.players (Table.room s)) /\
  Room.pot (Table.room (Js.startNewGame random s))
    == total_bets (Room.players (Table.room (Js.startNewGame random s))).
Proof.
  intros HN Hsb Hbb Hsmall. rewrite (js_startNewGame_room s HN).
  unfold chips_in_play. cbn [Table.room Room.pot Room.players].
  destruct (js_forEach_blinds_exact (Table.room s) (Room.players (Table.room s))
              Hsb Hbb 0%Z 0 (Table.users s) 0%Z Hsmall) as [Hc Hb].
  { reflexivity. }
  { assert (2 ^ 50 = 1125899906842624)%Z as E50 by reflexivity.
    case_Z_tests; cbn [andb negb]; lia. }
  set (posted := Js.forEach_blinds (Table.room s) 0 _ 0 _) in *.
  set (deck := (createDeck random (Table.rcalls s)).1).
  destruct (deal_round_spec posted.1.1 deck) as [H1 _].
  destruct (deal_round_spec (deal_round posted.1.1 deck).1
              (deal_round posted.1.1 deck).2) as [H2 _].
  rewrite (same_stake_total_chips _ _ H2), (same_stake_total_chips _ _ H1).
  rewrite (same_stake_total_bets _ _ H2), (same_stake_total_bets _ _ H1).
  split; lra.
Qed.

(** startNewGame returns at once in a room of fewer than two players.  With
    two or more it leaves every seat with its player, not folded and not
    all-in, and no community card.  When the blinds and the chips of the
    players are integers of magnitude at most 2^50, the bet of every player
    is taken from the chips the player had (chips + bet is what the chips
    were) and the pot is the sum of the bets. *)
Theorem startNewGame_starts_afresh (s : Table.t) :
  let room := Table.room s in
  let room' := Table.room (Js.startNewGame random s) in
  ((players_count room < 2)%Z -> Js.startNewGame random s = s) /\
  ((2 <= players_count room)%Z ->
   Forall2 (fun p p' =>
              Player.userId p' = Player.userId p /\
              Player.folded p' = false /\ Player.allIn p' = false)
     (Room.players room) (Room.players room') /\
   Room.communityCards room' = [] /\
   (small (Room.smallBlind room) = true ->
    small (Room.bigBlind room) = true ->
    Forall (fun p => small (Player.chips p) = true) (Room.players room) ->
    Forall2 (fun p p' => Player.chips p' + Player.bet p' == Player.chips p)
      (Room.players room) (Room.players room') /\
    Room.pot room' == total_bets (Room.players room'))).
Proof.
  cbv zeta. split.
  - intros HN. unfold Js.startNewGame.
    by destruct (Z.ltb_spec (players_count (Table.room s)) 2); [|lia].
  - intros HN. destruct (js_startNewGame_players s HN) as [Hlen Hplayers].
    split; [|split].
    + apply Forall2_same_length_lookup. split; [done|].
      intros k p p' Hp Hp'. destruct (Hplayers k p Hp) as [cs Hk].
      rewrite Hk in Hp'. injection Hp' as <-.
      unfold Js.reset_and_blind.
      by repeat match goal with |- context [Z.eqb ?a ?b] => destruct (Z.eqb a b) end.
    + by rewrite (js_startNewGame_room s HN).
    + intros Hsb Hbb Hsmall. split; [|by apply js_startNewGame_conserves].
      apply Forall2_same_length_lookup. split; [done|].
      intros k p p' Hp Hp'. destruct (Hplayers k p Hp) as [cs Hk].
      rewrite Hk in Hp'. injection Hp' as <-.
      rewrite Forall_lookup in Hsmall.
      destruct (js_reset_and_blind_exact (Table.room s) (Z.of_nat k) p 0 ∅ 0%Z
                  Hsb Hbb (Hsmall k p Hp)) as [Hstake _]; [reflexivity|lia|].
      exact Hstake.
Qed.
End JsHandStart.

(** ** The actions in the arithmetic of the program *)

Lemma small_player_integers (p : Player.t) :
  small_player p = true ->
  exists zc zb,
    Player.chips p == inject_Z zc /\ (Z.abs zc <= 2 ^ 50)%Z /\
    Player.bet p == inject_Z zb /\ (Z.abs zb <= 2 ^ 50)%Z.
Proof.
  unfold small_player.
  intros [(zc & Hc & Hzc)%small_integer (zb & Hb & Hzb)%small_integer]%andb_prop.
  by exists zc, zb.
Qed.

(** [player.bet += x; player.chips -= x; room.pot += x] for an integer x
    of magnitude at most 3 * 2^50 and small bet, chips and pot: exact. *)
Lemma js_pay_exact (x pot : Q) (player : Player.t) (a : Z) :
  x == inject_Z a -> (Z.abs a <= 3 * 2 ^ 50)%Z ->
  small_player player = true -> small pot = true ->
  Player.bet (Js.bet_more x player) == Player.bet player + x /\
  Player.chips (Js.bet_more x player) == Player.chips player - x /\
  Binary64.add pot x == pot + x.
Proof.
  intros Hx Ha (zc & zb & Hc & Hzc & Hb & Hzb)%small_player_integers
    (zp & Hp & Hzp)%small_integer.
  assert (2 ^ 50 = 1125899906842624)%Z as E50 by reflexivity.
  assert (2 ^ 53 = 9007199254740992)%Z as E53 by reflexivity.
  unfold Js.bet_more. cbn.
  rewrite (add_integers _ _ zb a), (sub_integers _ _ zc a),
    (add_integers _ _ zp a) by (done || lia).
  rewrite Hx, Hc, Hb, Hp. unfold Z.sub.
  rewrite !inject_Z_plus, inject_Z_opp. repeat split; lra.
Qed.

(** The amount a call pays, for small amounts. *)
Lemma js_call_amount (r : Room.t) (player : Player.t) :
  small (Room.currentBet r) = true -> small_player player = true ->
  exists a,
    Math_min (Binary64.sub (Room.currentBet r) (Player.bet player))
      (Player.chips player) == inject_Z a /\
    (Z.abs a <= 3 * 2 ^ 50)%Z /\
    Math_min (Binary64.sub (Room.currentBet r) (Player.bet player))
      (Player.chips player)
    == Math_min (Room.currentBet r - Player.bet player) (Player.chips player).
Proof.
  intros (zcb & Hcb & Hzcb)%small_integer
    (zc & zb & Hc & Hzc & Hb & Hzb)%small_player_integers.
  assert (2 ^ 50 = 1125899906842624)%Z as E50 by reflexivity.
  assert (2 ^ 53 = 9007199254740992)%Z as E53 by reflexivity.
  assert (Binary64.sub (Room.currentBet r) (Player.bet player)
          == inject_Z (zcb - zb)) as Hsub by (apply sub_integers; (done || lia)).
  assert (Room.currentBet r - Player.bet player == inject_Z (zcb - zb)) as Hex.
  { rewrite Hcb, Hb. unfold Z.sub. rewrite inject_Z_plus, inject_Z_opp. lra. }
  exists (Z.min (zcb - zb) zc). split; [by apply Math_min_integers|].
  split; [lia|].
  rewrite (Math_min_integers _ _ _ _ Hsub Hc), (Math_min_integers _ _ _ _ Hex Hc).
  reflexivity.
Qed.

(** The amount a raise pays, for small amounts. *)
Lemma js_raise_amount (amount : option Z) (r : Room.t) (player : Player.t) :
  small (Room.currentBet r) = true -> small (Room.bigBlind r) = true ->
  small_player player = true -> small_amount amount = true ->
  exists a,
    Math_min
      (Binary64.sub (Binary64.add (Room.currentBet r) (Js.raise_amount amount r))
         (Player.bet player))
      (Player.chips player) == inject_Z a /\
    (Z.abs a <= 3 * 2 ^ 50)%Z /\
    Math_min
      (Binary64.sub (Binary64.add (Room.currentBet r) (Js.raise_amount amount r))
         (Player.bet player))
      (Player.chips player)
    == Math_min (Room.currentBet r + raise_amount amount r - Player.bet player)
         (Player.chips player).
Proof.
  intros (zcb & Hcb & Hzcb)%small_integer (zbb & Hbb & Hzbb)%small_integer
    (zc & zb & Hc & Hzc & Hb & Hzb)%small_player_integers Hn.
  assert (2 ^ 50 = 1125899906842624)%Z as E50 by reflexivity.
  assert (2 ^ 53 = 9007199254740992)%Z as E53 by reflexivity.
  assert (exists zr, Js.raise_amount amount r == inject_Z zr /\
                     raise_amount amount r == inject_Z zr /\
                     (Z.abs zr <= 2 ^ 50)%Z) as (zr & Hjs & Hex & Hzr).
  { unfold Js.raise_amount, raise_amount. destruct amount as [n|]; [|by exists zbb].
    destruct (n =? 0)%Z; [by exists zbb|]. cbn in Hn. apply Z.leb_le in Hn.
    exists n. split; [apply round_integer; lia|]. by split. }
  assert (Binary64.add (Room.currentBet r) (Js.raise_amount amount r)
          == inject_Z (zcb + zr)) as Hadd by (apply add_integers; (done || lia)).
  assert (Binary64.sub (Binary64.add (Room.currentBet r) (Js.raise_amount amount r))
            (Player.bet player) == inject_Z (zcb + zr - zb)) as Hsub
    by (apply sub_integers; (done || lia)).
  assert (Room.currentBet r + raise_amount amount r - Player.bet player
          == inject_Z (zcb + zr - zb)) as Hexact.
  { rewrite Hcb, Hex, Hb. unfold Z.sub. rewrite !inject_Z_plus, inject_Z_opp. lra. }
  exists (Z.min (zcb + zr - zb) zc). split; [by apply Math_min_integers|].
  split; [lia|].
  rewrite (Math_min_integers _ _ _ _ Hsub Hc), (Math_min_integers _ _ _ _ Hexact Hc).
  reflexivity.
Qed.




(** A call by the player in turn whose account exists: the player pays
    min(currentBet - bet, chips) from the chips into the bet and the pot,
    and the account is given the player's chips; a check by a player whose
    bet is below currentBet is that call, otherwise it changes nothing;
    without an account for the socket's userId the call throws.  The flags
    of the player are left as they were, also by a call that takes the last
    chips.  For small amounts (integers of magnitude at most 2^50) the sums
    are exact: the bet reaches currentBet when the chips suffice, and
    otherwise the chips are 0 and the bet has grown by them. *)
Theorem call_pays_the_difference (k : string) (amount : option Z) (i : nat)
    (player : Player.t) (s : Table.t) :
  let room := Table.room s in
  let callAmount := Binary64.sub (Room.currentBet room) (Player.bet player) in
  let actualCallAmount := Math_min callAmount (Player.chips player) in
  let player' := Js.bet_more actualCallAmount player in
  let called (u : User.t) :=
    Table.mk
      (Room.set_players (<[i := player']> (Room.players room))
         (Room.set_pot (Binary64.add (Room.pot room) actualCallAmount) room))
      (<[k := User.set_chips (Player.chips player') u]> (Table.users s))
      (Table.rcalls s) in
  (forall u, Table.users s !! k = Some u ->
     Js.action_switch (Some k) "call" amount i player s = Ok (called u) /\
     Js.action_switch (Some k) "check" amount i player s
       = (if Qltb (Player.bet player) (Room.currentBet room)
          then Ok (called u) else Ok s)) /\
  (Table.users s !! k = None ->
   Js.action_switch (Some k) "call" amount i player s = TypeError) /\
  Player.allIn player' = Player.allIn player /\
  Player.folded player' = Player.folded player /\
  (small (Room.pot room) = true -> small (Room.currentBet room) = true ->
   small_player player = true ->
   let paid := Math_min (Room.currentBet room - Player.bet player)
                 (Player.chips player) in
   Player.chips player' == Player.chips player - paid /\
   Player.bet player' == Player.bet player + paid /\
   Binary64.add (Room.pot room) actualCallAmount == Room.pot room + paid /\
   (Room.currentBet room - Player.bet player <= Player.chips player ->
    Player.bet player' == Room.currentBet room) /\
   (Player.chips player < Room.currentBet room - Player.bet player ->
    Player.chips player' == 0 /\
    Player.bet player' == Player.bet player + Player.chips player)).
Proof.
  cbv zeta. split; [|split; [|split; [|split]]].
  - intros u Hu. split.
    + unfold Js.action_switch. change (String.eqb "call" "fold") with false.
      change (String.eqb "call" "call") with true. cbv iota.
      unfold assign_user_chips. by rewrite Hu.
    + unfold Js.action_switch. change (String.eqb "check" "fold") with false.
      change (String.eqb "check" "call") with false.
      change (String.eqb "check" "raise") with false.
      change (String.eqb "check" "check") with true. cbv iota.
      destruct (Qltb _ _); [|done].
      unfold assign_user_chips. by rewrite Hu.
  - intros Hnone. unfold Js.action_switch.
    change (String.eqb "call" "fold") with false.
    change (String.eqb "call" "call") with true. cbv iota.
    unfold assign_user_chips. by rewrite Hnone.
  - done.
  - done.
  - intros Hpot Hcb Hplayer.
    destruct (js_call_amount (Table.room s) player Hcb Hplayer)
      as (a & Ha & Hza & Hexact).
    destruct (js_pay_exact _ (Room.pot (Table.room s)) player a Ha Hza Hplayer Hpot)
      as (Hb & Hc & Hp).
    rewrite Hb, Hc, Hp, Hexact.
    destruct (Math_min_spec (Room.currentBet (Table.room s) - Player.bet player)
                (Player.chips player)) as [[Hle Hm]|[Hlt Hm]];
      rewrite Hm; repeat split; try lra.
Qed.

(** The amount of a raise is not checked: a raise by a negative amount n
    that the chips cover sets the player's bet and currentBet to
    currentBet + n, and what the player's chips gain the pot loses; for a
    player whose bet had matched currentBet, -n chips go from the pot to
    the player.  (Stated for small amounts, integers of magnitude at most
    2^50, on which the program's additions are exact.) *)
Theorem raise_amount_is_not_checked (k : string) (n : Z) (i : nat)
    (player : Player.t) (s : Table.t) (u : User.t) :
  let room := Table.room s in
  (n < 0)%Z ->
  small_amount (Some n) = true ->
  small (Room.pot room) = true -> small (Room.currentBet room) = true ->
  small (Room.bigBlind room) = true -> small_player player = true ->
  Table.users s !! k = Some u ->
  Room.currentBet room + inject_Z n - Player.bet player <= Player.chips player ->
  exists s' player',
    Js.action_switch (Some k) "raise" (Some n) i player s = Ok s' /\
    Room.players (Table.room s') = <[i := player']> (Room.players room) /\
    Player.bet player' == Room.currentBet room + inject_Z n /\
    Room.currentBet (Table.room s') == Room.currentBet room + inject_Z n /\
    Player.chips player' - Player.chips player
      == Room.pot room - Room.pot (Table.room s') /\
    Table.users s' !! k = Some (User.set_chips (Player.chips player') u) /\
    (Player.bet player == Room.currentBet room ->
     Player.chips player' == Player.chips player - inject_Z n /\
     Room.pot (Table.room s') == Room.pot room + inject_Z n).
Proof.
  cbv zeta. intros Hn Hsmall Hpot Hcb Hbb Hplayer Hu Hcover.
  destruct (js_raise_amount (Some n) (Table.room s) player Hcb Hbb Hplayer Hsmall)
    as (a & Ha & Hza & Hexact).
  destruct (js_pay_exact _ (Room.pot (Table.room s)) player a Ha Hza Hplayer Hpot)
    as (Hb & Hc & Hp).
  unfold raise_amount in Hexact.
  destruct (Z.eqb_spec n 0) as [->|_]; [lia|].
  destruct (Math_min_spec
              (Room.currentBet (Table.room s) + inject_Z n - Player.bet player)
              (Player.chips player)) as [[_ Hm]|[Hlt _]]; [|lra].
  rewrite Hm in Hexact.
  unfold Js.action_switch. change (String.eqb "raise" "fold") with false.
  change (String.eqb "raise" "call") with false.
  change (String.eqb "raise" "raise") with true. cbv iota zeta.
  unfold assign_user_chips. rewrite Hu.
  eexists _, _. split; [reflexivity|]. split; [reflexivity|].
  cbn [Table.room Table.users Room.players Room.set_players Room.set_pot
       Room.set_currentBet Room.currentBet Room.pot].
  split; [rewrite Hb, Hexact; lra|]. split; [rewrite Hb, Hexact; lra|].
  split; [rewrite Hc, Hp, Hexact; lra|].
  split; [by rewrite lookup_insert_eq|].
  intros Hbet. rewrite Hc, Hp, Hexact. split; lra.
Qed.

(** ** Conservation of chips within a hand *)

Section JsConservation.
Variable random : nat -> Q.





End JsConservation.


(** ** Settlement with every player folded *)

(** C7 fails on a run of the server.  Heads-up with big blind 100: bob
    folds, which leaves the hand running with alice, who has not folded, in
    turn (the room is in phase preflop with the pot of 150).  Alice folds as
    well: nobody is eligible, the streets are dealt and endGame is called
    with no player who has not folded.  It has no pot recipient: the winner
    it picks is undefined and the handler throws before the phase and the
    dealer are changed. *)
Lemma settlement_with_every_player_folded_throws :
  exists w1 room alice_seat bob_seat,
    Example.bob_folds = Ok w1 /\
    reachable Example.random0 w1 /\
    World.gameRooms w1 !! "r" = Some room /\
    Room.phase room = preflop /\
    Room.players room = [alice_seat; bob_seat] /\
    Player.folded alice_seat = false /\ Player.folded bob_seat = true /\
    Room.currentPlayerIndex room = 0%Z /\
    Player.socketId alice_seat = Socket.id (Example.alice 100) /\
    player_action Example.random0 8 w1 (Example.alice 100) "fold" None
      = TypeError /\
    endGame Example.random0
      (Table.mk
         (Room.set_phase showdown
            (Room.set_players
               [Player.set_folded true alice_seat; bob_seat] room))
         (World.users w1) (World.rcalls w1))
      = TypeError.
Proof.
  assert (exists w1, Example.bob_folds = Ok w1) as [w1 Hw1]
    by (eexists; vm_compute; reflexivity).
  pose proof (ExampleFacts.reachable_bob_folds w1 Hw1) as Hreach.
  exists w1. revert Hreach. revert Hw1.
  assert (exists w, Example.bob_folds = Ok w /\
            exists room alice_seat bob_seat,
              World.gameRooms w !! "r" = Some room /\
              Room.phase room = preflop /\
              Room.players room = [alice_seat; bob_seat] /\
              Player.folded alice_seat = false /\ Player.folded bob_seat = true /\
              Room.currentPlayerIndex room = 0%Z /\
              Player.socketId alice_seat = Socket.id (Example.alice 100) /\
              player_action Example.random0 8 w (Example.alice 100) "fold" None
                = TypeError /\
              endGame Example.random0
                (Table.mk
                   (Room.set_phase showdown
                      (Room.set_players
                         [Player.set_folded true alice_seat; bob_seat] room))
                   (World.users w) (World.rcalls w))
                = TypeError) as (w & Hw & Hrest).
  { eexists. split; [vm_compute; reflexivity|].
    eexists _, _, _. split; [vm_compute; reflexivity|].
    split; [reflexivity|]. split; [reflexivity|].
    split; [reflexivity|]. split; [reflexivity|]. split; [reflexivity|].
    split; [vm_compute; reflexivity|].
    split; vm_compute; reflexivity. }
  intros Hw1 Hreach. rewrite Hw in Hw1. injection Hw1 as <-.
  destruct Hrest as (room & alice_seat & bob_seat & H).
  exists room, alice_seat, bob_seat. split; [exact Hw|]. split; [exact Hreach|].
  exact H.
Qed.

(** ** The properties above on runs of the server *)

Lemma random0_range (n : nat) : 0 <= Example.random0 n < 1.
Proof. unfold Example.random0. split; [apply Qle_refl|reflexivity]. Qed.

Lemma createDeck_random0 :
  length (createDeck Example.random0 0).1 = 52%nat /\
  NoDup (face <$> (createDeck Example.random0 0).1).
Proof.
  destruct (createDeck_is_a_full_deck Example.random0 random0_range 0)
    as (_ & _ & Hlen & Hnd & _).
  split; [exact Hlen|exact Hnd].
Defined.

Lemma three_players_are_dealt_six_cards :
  Room.deck (Table.room (startNewGame Example.random0 Example.three_players))
  = take 46 (createDeck Example.random0 0).1.
Proof.
  assert (2 <= length (Room.players (Table.room Example.three_players)))%nat
    as H2 by (vm_compute; lia).
  assert (length (Room.players (Table.room Example.three_players)) <= 26)%nat
    as H26 by (vm_compute; lia).
  destruct (startNewGame_deals_round_robin Example.random0 Example.three_players
              H2 random0_range) as (_ & _ & Hdeal).
  exact (proj1 (Hdeal H26)).
Defined.

Lemma first_hand_room_well_formed :
  exists room,
    World.gameRooms (Example.first_hand 100) !! "r" = Some room /\
    Room.id room = "r" /\
    NoDup (Player.userId <$> Room.players room).
Proof.
  eexists. split; [vm_compute; reflexivity|].
  destruct (reachable_rooms_well_formed Example.random0 (Example.first_hand 100)
              "r" _ (ExampleFacts.reachable_first_hand 100) eq_refl)
    as (Hid & _ & _ & Hnd & _).
  split; [exact Hid|exact Hnd].
Defined.

Lemma first_hand_cards_distinct :
  exists room,
    World.gameRooms (Example.first_hand 100) !! "r" = Some room /\
    NoDup (face <$> all_cards room).
Proof.
  eexists. split; [vm_compute; reflexivity|].
  exact (reachable_cards_distinct Example.random0 (Example.first_hand 100)
           "r" _ random0_range (ExampleFacts.reachable_first_hand 100) eq_refl).
Defined.

Lemma bob_rejected_and_nothing_changes :
  (join_room (Example.alice_joins 1000).1.1 Example.bob_registers.1.2 "r" 5000).1
  = ((Example.alice_joins 1000).1.1, Example.bob_registers.1.2).
Proof.
  apply (proj1 (join_room_rejections (Example.alice_joins 1000).1.1
                  Example.bob_registers.1.2 "r" 5000)).
  intros scheduled H. vm_compute in H. discriminate H.
Defined.

Lemma alice_registers_and_logs_in :
  (authenticate Example.alice_registers.1.1 (Socket.mk "socket-c" None None)
     "alice" "pw" false).2 = auth_success "alice" 10000 /\
  (authenticate Example.alice_registers.1.1 (Socket.mk "socket-c" None None)
     "alice" "other" false).2 = auth_error.
Proof.
  destruct (authenticate_accounts initial (Socket.mk "socket-a" None None)
              "alice" "pw" true) as (_ & _ & _ & _ & Hreg).
  destruct (Hreg eq_refl eq_refl) as [_ Hlogin].
  split.
  - exact (Hlogin (Socket.mk "socket-c" None None) "pw").
  - exact (Hlogin (Socket.mk "socket-c" None None) "other").
Defined.

Lemma bob_joins_and_leaves :
  leaveCurrentRoom (Example.seated 100) (Example.bob 100)
  = ((Example.alice_joins 100).1.1,
     Socket.set_currentRoom None (Example.bob 100)).
Proof.
  apply (join_then_leave (Example.alice_joins 100).1.1 Example.bob_registers.1.2
           "r" 100 (Example.seated 100) (Example.bob 100) true).
  - vm_compute. reflexivity.
  - discriminate.
  - intros room H. vm_compute in H. injection H as <-. split; [discriminate|].
    constructor; [|constructor]. cbn. discriminate.
Defined.

Lemma bob_disconnects_with_his_chips :
  exists u',
    World.users (disconnect (Example.first_hand 1000) (Example.bob 1000)).1 !! "bob"
      = Some u' /\
    User.chips u' == 9500.
Proof.
  destruct (proj2 (proj2 (disconnect_keeps_accounts (Example.first_hand 1000)
                            (Example.bob 1000)))
              "bob" (User.mk "bob" "pw" (19000 # 2) (Some "socket-b")))
    as (u' & Hu' & Hchips & _).
  - vm_compute. reflexivity.
  - exists u'. split; [exact Hu'|]. rewrite Hchips. reflexivity.
Defined.

Lemma heads_up_messages :
  exists m,
    In m (updateGameState (fun _ => true) (Table.room Example.heads_up)) /\
    recipient m = "socket-B" /\ isYourTurn m = true.
Proof.
  assert (NoDup (Player.userId <$> Room.players (Table.room Example.heads_up)))
    as Hnd.
  { assert (Player.userId <$> Room.players (Table.room Example.heads_up)
            = ["A"; "B"]) as -> by (vm_compute; reflexivity).
    apply NoDup_cons. split; [|apply NoDup_singleton].
    intros H%list_elem_of_singleton. discriminate H. }
  destruct (proj2 (updateGameState_messages (fun _ => true)
                     (Table.room Example.heads_up) Hnd)
              1%nat Example.heads_up_B)
    as (m & Hin & Hto & Hturn).
  - vm_compute. reflexivity.
  - reflexivity.
  - exists m. split; [exact Hin|]. split; [exact Hto|].
    rewrite Hturn. vm_compute. reflexivity.
Defined.

Lemma A_folds_last_and_the_handler_throws :
  act Example.random0 8 (Some "A") "fold" None 0
    (Player.set_bet 100 (Example.seat_of "A" 900)) Tables.B_folded_A_to_act
  = TypeError.
Proof.
  apply (last_fold_throws Example.random0 0).
  - reflexivity.
  - vm_compute. discriminate.
  - vm_compute. discriminate.
  - reflexivity.
  - intros j q Hj Hq. destruct j as [|[|j]]; [done| |discriminate Hq].
    cbn in Hq. injection Hq as <-. reflexivity.
Defined.

Lemma hand_over_never_returns :
  nextPlayer Example.random0 1000 Tables.hand_over = OutOfFuel /\
  act Example.random0 1000 (Some "A") "fold" None 0
    (Player.set_allIn true (Example.seat_of "A" 1050)) Tables.hand_over
  = OutOfFuel.
Proof.
  destruct (between_hands_never_returns Example.random0 Tables.hand_over)
    as [Hnext Hact].
  - reflexivity.
  - vm_compute. discriminate.
  - vm_compute. discriminate.
  - constructor; [reflexivity|]. constructor; [reflexivity|constructor].
  - vm_compute. lia.
  - split; [apply Hnext|apply Hact].
Defined.

Lemma bob_fold_returns :
  player_action Example.random0 8 (Example.first_hand 100) (Example.bob 100)
    "fold" None <> OutOfFuel.
Proof.
  apply (player_action_returns_in_hand Example.random0 0).
  intros roomId room Hcur Hroom.
  vm_compute in Hcur. injection Hcur as <-.
  vm_compute in Hroom. injection Hroom as <-. reflexivity.
Defined.

Lemma heads_up_fold_gives_the_turn_to_A :
  exists s' p,
    act Example.random0 8 None "fold" None 1 Example.heads_up_B Example.heads_up
      = Ok s' /\
    at_index (Room.players (Table.room s'))
      (Room.currentPlayerIndex (Table.room s')) = Some p /\
    Player.folded p = false.
Proof.
  assert (exists s',
    act Example.random0 8 None "fold" None 1 Example.heads_up_B Example.heads_up
      = Ok s' /\
    Room.phase (Table.room s') <> waiting) as (s' & Hact & Hphase).
  { eexists. split; [vm_compute; reflexivity|]. vm_compute. discriminate. }
  destruct (act_leaves_turn_with_player_who_can_act Example.random0 8 None "fold"
              None 1 Example.heads_up_B Example.heads_up s' Hact Hphase)
    as (p & Hp & Hf & _).
  exists s', p. split; [exact Hact|]. split; [exact Hp|exact Hf].
Defined.

Lemma heads_up_fold_keeps_or_advances_the_phase :
  exists s',
    act Example.random0 8 None "fold" None 1 Example.heads_up_B Example.heads_up
      = Ok s' /\
    (Room.phase (Table.room s') = Room.phase (Table.room Example.heads_up) \/
     (streets_left (Room.phase (Table.room s'))
      < streets_left (Room.phase (Table.room Example.heads_up)))%nat /\
     Forall (fun p => Player.bet p = 0) (Room.players (Table.room s')) /\
     Room.currentBet (Table.room s') = 0).
Proof.
  assert (exists s',
    act Example.random0 8 None "fold" None 1 Example.heads_up_B Example.heads_up
      = Ok s') as (s' & Hact).
  { eexists. vm_compute. reflexivity. }
  exists s'. split; [exact Hact|].
  apply (act_moves_forward Example.random0 8 None "fold" None 1
           Example.heads_up_B Example.heads_up s' Hact).
  vm_compute. reflexivity.
Defined.

Lemma bob_leaves_in_turn_and_alice_is_ignored :
  player_action Example.random0 8
    (leaveCurrentRoom (Example.first_hand 1000) (Example.bob 1000)).1
    (Example.alice 1000) "fold" None
  = Ok (leaveCurrentRoom (Example.first_hand 1000) (Example.bob 1000)).1.
Proof.
  pose (room := default (createGameRoom "r" 0)
                  (World.gameRooms (Example.first_hand 1000) !! "r")).
  pose (others := take 1 (Room.players room)).
  pose (leaver := default (Example.seat_of "" 0) (Room.players room !! 1%nat)).
  assert (Socket.currentRoom (Example.bob 1000) = Some "r") as H1 by (vm_compute; reflexivity).
  assert (World.gameRooms (Example.first_hand 1000) !! "r" = Some room) as H2 by (vm_compute; reflexivity).
  assert (Room.players room = (others ++ [leaver])%list) as H3 by (vm_compute; reflexivity).
  assert (others <> []) as H4 by (vm_compute; discriminate).
  assert (Forall (fun p => Player.socketId p <> Socket.id (Example.bob 1000)) others) as H5.
  { vm_compute. constructor; [discriminate|constructor]. }
  assert (Player.socketId leaver = Socket.id (Example.bob 1000)) as H6 by (vm_compute; reflexivity).
  assert (Room.currentPlayerIndex room = Z.of_nat (length others)) as H7 by (vm_compute; reflexivity).
  assert ("r" <> "") as H0 by discriminate.
  pose proof (leave_in_turn_at_last_seat Example.random0 (Example.first_hand 1000)
              (Example.bob 1000) "r" room others leaver H1 H0 H2 H3 H4 H5 H6 H7) as H.
  destruct H as [_ Hignored].
  assert (Socket.currentRoom (Example.alice 1000) = Some "r") as H8 by (vm_compute; reflexivity).
  exact (Hignored 8%nat (Example.alice 1000) "fold" None H8).
Defined.

Lemma three_players_pot_is_the_bets :
  Room.pot (Table.room (Js.startNewGame Example.random0 Example.three_players))
  == total_bets
       (Room.players
          (Table.room (Js.startNewGame Example.random0 Example.three_players))).
Proof.
  assert (Forall (fun p => small (Player.chips p) = true)
            (Room.players (Table.room Example.three_players))) as Hsmall.
  { repeat (apply Forall_cons_2; [vm_compute; reflexivity|]). apply Forall_nil_2. }
  assert (small (Room.smallBlind (Table.room Example.three_players)) = true)
    as Hsb by (vm_compute; reflexivity).
  assert (small (Room.bigBlind (Table.room Example.three_players)) = true)
    as Hbb by (vm_compute; reflexivity).
  assert (2 <= players_count (Table.room Example.three_players))%Z as H2
    by (vm_compute; discriminate).
  destruct (proj2 (startNewGame_starts_afresh Example.random0 Example.three_players)
              H2) as (_ & _ & Hexact).
  exact (proj2 (Hexact Hsb Hbb Hsmall)).
Defined.

Lemma B_calls_the_all_in_with_all_chips :
  Js.action_switch (Some "B") "call" None 1 Example.B_facing_all_in_B
    Example.B_facing_all_in = TypeError /\
  Player.bet
    (Js.bet_more
       (Math_min
          (Binary64.sub (Room.currentBet (Table.room Example.B_facing_all_in))
             (Player.bet Example.B_facing_all_in_B))
          (Player.chips Example.B_facing_all_in_B))
       Example.B_facing_all_in_B)
  == Room.currentBet (Table.room Example.B_facing_all_in).
Proof.
  destruct (call_pays_the_difference "B" None 1 Example.B_facing_all_in_B
              Example.B_facing_all_in) as (_ & Hthrows & _ & _ & Hexact).
  split.
  - apply Hthrows. reflexivity.
  - destruct (Hexact eq_refl eq_refl eq_refl) as (_ & _ & _ & Hfull & _).
    apply Hfull. vm_compute. discriminate.
Defined.

Lemma A_raises_by_minus_50 :
  exists s' player',
    Js.action_switch (Some "A") "raise" (Some (-50)%Z) 0
      (Player.set_bet 100 (Example.seat_of "A" 900)) Tables.B_folded_A_to_act
      = Ok s' /\
    Player.chips player'
      == Player.chips (Player.set_bet 100 (Example.seat_of "A" 900)) - inject_Z (-50) /\
    Room.pot (Table.room s')
      == Room.pot (Table.room Tables.B_folded_A_to_act) + inject_Z (-50).
Proof.
  destruct (raise_amount_is_not_checked "A" (-50) 0
              (Player.set_bet 100 (Example.seat_of "A" 900))
              Tables.B_folded_A_to_act (User.mk "A" "pw" 900 None))
    as (s' & player' & Hswitch & _ & _ & _ & _ & _ & Hback).
  - reflexivity.
  - reflexivity.
  - reflexivity.
  - reflexivity.
  - reflexivity.
  - reflexivity.
  - vm_compute. reflexivity.
  - vm_compute. discriminate.
  - exists s', player'. split; [exact Hswitch|]. apply Hback. reflexivity.
Defined.

